(** * Seat reservation and payment settlement worker (src/auth.js)

    A shallow embedding of the Cloudflare worker that backs the bus booking
    service: the seat key normaliser, the trip resolver, the seat
    availability engine, the seat lock manager, the booking finaliser, the
    manual booking of the administration, the payment webhook and the e-mail
    sign-up, followed by the properties the specification states about them.

    Modelling conventions.
    - A D1 table is the list of its rows in rowid order; [INSERT] appends a
      row whose id is one more than the largest id present, [DELETE] and
      [UPDATE] are [filter] and [map].
    - An [async] handler is a computation in the monad [M]: it threads the
      database and the log of outbound calls, and may throw.  A [try/catch]
      keeps the writes made before the throw, as the worker does (there is
      no transaction).  A handler runs from its first statement to its last
      without another request's statements in between.
    - JavaScript strings are [string]s; the operations are exact on ASCII
      text ([trim] removes ASCII white space, [toUpperCase] maps a-z), and
      a code unit above 127 is held as its UTF-8 bytes.
    - JavaScript numbers that are row ids, seat numbers, capacities and
      times are [Z]; amounts of money are rationals ([Q]).
    - [datetime('now')] is the parameter [now] of a request, in seconds. *)

From Stdlib Require Import ZArith List String Ascii Bool Lia.
From Stdlib Require Import QArith Qround.
From Stdlib Require Import DecimalString DecimalZ DecimalPos DecimalFacts.
From Stdlib Require Import Sorted Permutation.
Import ListNotations.

#[local] Open Scope string_scope.
#[local] Open Scope list_scope.
#[local] Open Scope Z_scope.

(** ** JavaScript strings and numbers *)

Module Js.

Definition code (c : ascii) : Z := Z.of_N (N_of_ascii c).

Definition byte (z : Z) : ascii := ascii_of_N (Z.to_N z).

Definition is_digit (c : ascii) : bool := (48 <=? code c) && (code c <=? 57).

Definition is_upper (c : ascii) : bool := (65 <=? code c) && (code c <=? 90).

Definition is_lower (c : ascii) : bool := (97 <=? code c) && (code c <=? 122).

(** White space and line terminators below 128: TAB, LF, VT, FF, CR, SP. *)
Definition is_space (c : ascii) : bool :=
  ((9 <=? code c) && (code c <=? 13)) || (code c =? 32).

Definition upper_char (c : ascii) : ascii :=
  if is_lower c then byte (code c - 32) else c.

Fixpoint toUpperCase (s : string) : string :=
  match s with
  | EmptyString => EmptyString
  | String c r => String (upper_char c) (toUpperCase r)
  end.

Fixpoint trimStart (s : string) : string :=
  match s with
  | EmptyString => EmptyString
  | String c r => if is_space c then trimStart r else s
  end.

(** [trimEnd] drops the trailing white space: a character is kept when it
    is no white space or when something is kept after it. *)
Fixpoint trimEnd (s : string) : string :=
  match s with
  | EmptyString => EmptyString
  | String c r =>
      match trimEnd r with
      | EmptyString => if is_space c then EmptyString else String c EmptyString
      | r' => String c r'
      end
  end.

Definition trim (s : string) : string := trimEnd (trimStart s).

Fixpoint all_digits (s : string) : bool :=
  match s with
  | EmptyString => true
  | String c r => is_digit c && all_digits r
  end.

Fixpoint strip_zeros (s : string) : string :=
  match s with
  | String "0"%char r => strip_zeros r
  | _ => s
  end.

(** [String(n)] for an integer [n]. *)
Definition String_of (n : Z) : string := NilZero.string_of_int (Z.to_int n).

(** [Number(s)] for a string of decimal digits; [None] is NaN.  The
    worker applies it to what [\d+] captured and to canonical seats. *)
Definition Number_of (s : string) : option Z :=
  option_map Z.of_uint (NilZero.uint_of_string s).

(** [String.fromCharCode(c)]: one UTF-16 code unit, [c] modulo 2^16. *)
Definition fromCharCode (c : Z) : string :=
  let u := c mod 65536 in
  if u <? 128 then String (byte u) EmptyString
  else if u <? 2048 then
    String (byte (192 + u / 64)) (String (byte (128 + u mod 64)) EmptyString)
  else
    String (byte (224 + u / 4096))
      (String (byte (128 + (u / 64) mod 64))
         (String (byte (128 + u mod 64)) EmptyString)).

(** [s.length]: the number of UTF-16 code units of the text whose UTF-8
    bytes are [s].  A continuation byte (10xxxxxx) counts for nothing, a
    leader of a four byte sequence (11110xxx) for a surrogate pair. *)
Fixpoint length (s : string) : Z :=
  match s with
  | EmptyString => 0
  | String c r =>
      (if (128 <=? code c) && (code c <? 192) then 0
       else if 240 <=? code c then 2 else 1) + length r
  end.

End Js.

(** ** Seat key normaliser (auth.js 894-936) *)

(** [raw.match(/^L?0*(\d+)$/)]: the text captured by [(\d+)].  The greedy
    [0*] leaves [\d+] its one digit when the digits are all zeros. *)
Definition match_numeric (raw : string) : option string :=
  let body := match raw with String "L"%char r => r | _ => raw end in
  match body with
  | EmptyString => None
  | _ =>
      if Js.all_digits body then
        Some (match Js.strip_zeros body with EmptyString => "0" | d => d end)
      else None
  end.

(** [raw.match(/^([A-Z])0*(\d{1,2})$/)]: the letter and the captured digits. *)
Definition match_legacy (raw : string) : option (ascii * string) :=
  match raw with
  | String c (String x r) =>
      let body := String x r in
      if Js.is_upper c && Js.all_digits body then
        match Js.strip_zeros body with
        | EmptyString => Some (c, "0")
        | String x EmptyString => Some (c, String x EmptyString)
        | String x (String y EmptyString) =>
            Some (c, String x (String y EmptyString))
        | _ => None
        end
      else None
  | _ => None
  end.

(** [Number(capacity || 50)]. *)
Definition capacity_or_50 (capacity : Z) : Z :=
  if capacity =? 0 then 50 else capacity.

(** [seatValue] is [None] for [null] and [undefined], else [String(seatValue)]. *)
Definition normalizeSeatNumberRaw (seatValue : option string) (capacity : Z)
  : option string :=
  match seatValue with
  | None => None
  | Some v =>
      let raw := Js.toUpperCase (Js.trim v) in
      match raw with
      | EmptyString => None
      | _ =>
          match match_numeric raw with
          | Some digits =>
              match Js.Number_of digits with
              | Some n =>
                  if (n <? 1) || (n >? capacity_or_50 capacity) then None
                  else Some (Js.String_of n)
              | None => None
              end
          | None =>
              match match_legacy raw with
              | Some (letter, digits) =>
                  let row := Js.code letter - 65 in
                  match Js.Number_of digits with
                  | Some col =>
                      if (row <? 0) || (col <? 1) || (col >? 10) then None
                      else
                        let n := row * 10 + col in
                        if (n <? 1) || (n >? capacity_or_50 capacity) then None
                        else Some (Js.String_of n)
                  | None => None
                  end
              | None => None
              end
          end
      end
  end.

(** [canonicalSeat] is a canonical seat, a string of decimal digits. *)
Definition canonicalSeatToLegacy (canonicalSeat : string) : option string :=
  match Js.Number_of canonicalSeat with
  | None => None
  | Some n =>
      if n <? 1 then None
      else
        let row := (n - 1) / 10 in
        let col := ((n - 1) mod 10) + 1 in
        Some (Js.fromCharCode (65 + row) ++ Js.String_of col)%string
  end.

(** [uniqueNormalizedSeatList]: a [Set] keeps the order of first insertion;
    [sort] with the comparator [Number(a) - Number(b)] is stable. *)
Definition set_add (k : string) (out : list string) : list string :=
  if existsb (String.eqb k) out then out else out ++ [k].

Definition number_or_0 (s : string) : Z :=
  match Js.Number_of s with Some n => n | None => 0 end.

Fixpoint insert_sorted (k : string) (l : list string) : list string :=
  match l with
  | [] => [k]
  | x :: r =>
      if number_or_0 k <? number_or_0 x then k :: l else x :: insert_sorted k r
  end.

Definition sort_numeric (l : list string) : list string :=
  fold_left (fun acc k => insert_sorted k acc) l [].

Definition normalized_set (seat_numbers : list string) (capacity : Z)
  : list string :=
  fold_left
    (fun out seat =>
       match normalizeSeatNumberRaw (Some seat) capacity with
       | Some key => set_add key out
       | None => out
       end)
    seat_numbers [].

Definition uniqueNormalizedSeatList (seat_numbers : list string) (capacity : Z)
  : list string :=
  sort_numeric (normalized_set seat_numbers capacity).

(** ** The persisted state *)

Record Route := {
  r_id : Z;
  r_name : string }.

Record Bus := {
  bus_id : Z;
  bus_route_id : option Z;
  bus_name : string;
  bus_capacity : Z;            (* NULL is 0: the worker reads [capacity || 0] *)
  bus_available_seats : Z;
  bus_price : Q }.

Record Trip := {
  t_id : Z;
  t_route_id : Z;
  t_bus_id : Z;
  t_status : string }.

Record Passenger := {
  p_id : Z;
  p_first_name : string;
  p_last_name : string;
  p_email : string;
  p_phone : string;
  p_nok_name : option string;
  p_nok_phone : option string }.

Record Booking := {
  b_id : Z;
  b_passenger_id : Z;
  b_bus_id : Z;
  b_trip_id : option Z;
  b_seat_number : string;
  b_price_paid : Q;
  b_status : string;
  b_external_ref : option string }.

Record SeatLock := {
  l_id : Z;
  l_bus_id : Z;
  l_trip_id : option Z;
  l_seat_number : string;
  l_locked_by : option string;
  l_expires_at : Z }.

Record Receipt := {
  rc_booking_id : Z;
  rc_receipt_url : string;
  rc_drive_file_id : option string }.

Record User := {
  u_id : Z;
  u_email : string;
  u_first_name : string;
  u_last_name : string;
  u_phone : string;
  u_password_hash : option string;
  u_auth_method : string }.

Record AuthSession := {
  s_user_id : Z;
  s_token : string;
  s_expires_at : Z }.

Record DB := {
  routes : list Route;
  buses : list Bus;
  trip_schedules : list Trip;
  passengers : list Passenger;
  bookings : list Booking;
  seat_locks : list SeatLock;
  booking_receipts : list Receipt;
  users : list User;
  auth_sessions : list AuthSession }.

Definition set_buses (f : list Bus -> list Bus) (d : DB) : DB :=
  {| routes := routes d; buses := f (buses d);
     trip_schedules := trip_schedules d; passengers := passengers d;
     bookings := bookings d; seat_locks := seat_locks d;
     booking_receipts := booking_receipts d; users := users d;
     auth_sessions := auth_sessions d |}.

Definition set_passengers (f : list Passenger -> list Passenger) (d : DB) : DB :=
  {| routes := routes d; buses := buses d;
     trip_schedules := trip_schedules d; passengers := f (passengers d);
     bookings := bookings d; seat_locks := seat_locks d;
     booking_receipts := booking_receipts d; users := users d;
     auth_sessions := auth_sessions d |}.

Definition set_bookings (f : list Booking -> list Booking) (d : DB) : DB :=
  {| routes := routes d; buses := buses d;
     trip_schedules := trip_schedules d; passengers := passengers d;
     bookings := f (bookings d); seat_locks := seat_locks d;
     booking_receipts := booking_receipts d; users := users d;
     auth_sessions := auth_sessions d |}.

Definition set_seat_locks (f : list SeatLock -> list SeatLock) (d : DB) : DB :=
  {| routes := routes d; buses := buses d;
     trip_schedules := trip_schedules d; passengers := passengers d;
     bookings := bookings d; seat_locks := f (seat_locks d);
     booking_receipts := booking_receipts d; users := users d;
     auth_sessions := auth_sessions d |}.

Definition set_booking_receipts (f : list Receipt -> list Receipt) (d : DB) : DB :=
  {| routes := routes d; buses := buses d;
     trip_schedules := trip_schedules d; passengers := passengers d;
     bookings := bookings d; seat_locks := seat_locks d;
     booking_receipts := f (booking_receipts d); users := users d;
     auth_sessions := auth_sessions d |}.

Definition set_users (f : list User -> list User) (d : DB) : DB :=
  {| routes := routes d; buses := buses d;
     trip_schedules := trip_schedules d; passengers := passengers d;
     bookings := bookings d; seat_locks := seat_locks d;
     booking_receipts := booking_receipts d; users := f (users d);
     auth_sessions := auth_sessions d |}.

Definition set_auth_sessions (f : list AuthSession -> list AuthSession) (d : DB)
  : DB :=
  {| routes := routes d; buses := buses d;
     trip_schedules := trip_schedules d; passengers := passengers d;
     bookings := bookings d; seat_locks := seat_locks d;
     booking_receipts := booking_receipts d; users := users d;
     auth_sessions := f (auth_sessions d) |}.

(** [meta.last_row_id] of an [INSERT]. *)
Definition next_id (ids : list Z) : Z := 1 + fold_right Z.max 0 ids.

(** ** The outside world *)

(** The text of a confirmation SMS, by the values its template interpolates. *)
Record SmsText := {
  sms_booking_id : Z;
  sms_seats : string;
  sms_amount : Q;
  sms_receipt_url : option string }.

(** The payload posted to the receipt service. *)
Record GasPayload := {
  gas_booking_id : Z;
  gas_passenger_name : string;
  gas_route_name : string;
  gas_bus_name : string;
  gas_seat : string;
  gas_amount : Q;
  gas_phone : string;
  gas_email : string;
  gas_paystack_ref : option string;
  gas_source : string }.

(** What the receipt service answers: [receipt_url || receiptUrl] and
    [drive_file_id || driveFileId]. *)
Record GasResult := {
  gas_receipt_url : option string;
  gas_drive_file_id : option string }.

(** What [GET /transaction/verify/:reference] of the processor answers. *)
Inductive VerifyReply :=
| VerifyHttpError (http_status : Z)            (* [!res.ok] *)
| VerifyInvalid                                (* no [status] or no [data] *)
| VerifyData (data_status : string) (data_amount : Q).

Record Verification := {
  v_verified : bool;
  v_status : string;
  v_amountKobo : Q }.

(** The parsed body of a webhook call: [event.event] and
    [event.data.reference]. *)
Record WebhookEvent := {
  ev_event : option string;
  ev_reference : option string }.

Inductive Outbound :=
| SmsSent (phone : string) (text : SmsText)
| GasPosted (payload : GasPayload)
| PaystackVerified (reference : string).

(** The bindings of the worker and what one request observes of the
    outside: the clock, the random sources, the external services. *)
Record Env := {
  PAYSTACK_SECRET_KEY : option string;
  GAS_WEBHOOK_URL : option string;
  ADMIN_EMAILS : string;
  now : Z;
  random_lock_id : string;       (* [`lock_${Date.now()}_${...}`] *)
  random_manual_ref : string;    (* [`admin_manual_${Date.now()}_${...}`] *)
  generateToken : Z -> string;
  hashPassword : string -> string;
  hmacSha512Hex : string -> string -> string;
  JSON_parse : string -> option WebhookEvent;
  paystack_verify : string -> VerifyReply;
  gas_service : GasPayload -> option GasResult }.

Record World := {
  db : DB;
  outbox : list Outbound }.

(** ** The monad of a handler *)

Inductive Outcome (A : Type) :=
| Ret (a : A)
| Throw (message : string).

Arguments Ret {A} a.
Arguments Throw {A} message.

Definition M (A : Type) : Type := World -> Outcome A * World.

Definition ret {A} (a : A) : M A := fun w => (Ret a, w).

Definition throw {A} (message : string) : M A := fun w => (Throw message, w).

Definition bind {A B} (m : M A) (k : A -> M B) : M B :=
  fun w =>
    match m w with
    | (Ret a, w') => k a w'
    | (Throw e, w') => (Throw e, w')
    end.

Declare Scope handler_scope.
Delimit Scope handler_scope with handler.

Notation "'let*' x ':=' m 'in' k" := (bind m (fun x => k))
  (at level 10, x pattern, m at level 100, k at level 200) : handler_scope.
Notation "m ';;' k" := (bind m (fun _ => k))
  (at level 100, k at level 200, right associativity) : handler_scope.

#[local] Open Scope handler_scope.

Definition query {A} (f : DB -> A) : M A := fun w => (Ret (f (db w)), w).

Definition run (f : DB -> DB) : M unit :=
  fun w => (Ret tt, {| db := f (db w); outbox := outbox w |}).

Definition send (o : Outbound) : M unit :=
  fun w => (Ret tt, {| db := db w; outbox := outbox w ++ [o] |}).

Record Response (Body : Type) := {
  status : Z;
  body : Body }.

Arguments status {Body} r.
Arguments body {Body} r.

(** [String(err)] of [new Error(message)]. *)
Definition String_of_error (message : string) : string :=
  ("Error: " ++ message)%string.

(** [Array.prototype.join]. *)
Definition join (sep : string) (l : list string) : string := String.concat sep l.

Definition ELITE (id : Z) : string := ("ELITE-" ++ Js.String_of id)%string.

(** A value that is an id or [null], read in a boolean position. *)
Definition truthy (o : option Z) : option Z :=
  match o with
  | Some 0 => None
  | _ => o
  end.

Definition eqb_opt (a b : option Z) : bool :=
  match a, b with
  | Some x, Some y => x =? y
  | None, None => true
  | _, _ => false
  end.

(** [COALESCE(trip_id, -1)]. *)
Definition COALESCE (o : option Z) (d : Z) : Z :=
  match o with Some t => t | None => d end.

(** One SQL statement: it reads and writes the database in one step. *)
Definition sql {A} (f : DB -> A * DB) : M A :=
  fun w => let (a, d) := f (db w) in (Ret a, {| db := d; outbox := outbox w |}).

Inductive Body (A : Type) :=
| Json (a : A)
| ErrorJson (error : string).

Arguments Json {A} a.
Arguments ErrorJson {A} error.

(** [try { ... } catch (err) { return new Response({error: String(err)}, st) }]. *)
Definition try_catch {A} (m : M (Response (Body A))) (st : Z)
  : M (Response (Body A)) :=
  fun w =>
    match m w with
    | (Ret r, w') => (Ret r, w')
    | (Throw e, w') =>
        (Ret {| status := st; body := ErrorJson (String_of_error e) |}, w')
    end.

Definition ok {A} (a : A) : M (Response (Body A)) :=
  ret {| status := 200; body := Json a |}.

(** [String(x || '').trim() || null]. *)
Definition trimmed_or_null (x : option string) : option string :=
  match Js.trim (match x with Some s => s | None => "" end) with
  | EmptyString => None
  | s => Some s
  end.

(** ** Trip resolver (auth.js 869-892) *)

(** [ORDER BY id DESC LIMIT 1]. *)
Definition order_by_id_desc_first (l : list Trip) : option Trip :=
  fold_left
    (fun best r =>
       match best with
       | None => Some r
       | Some b => if t_id b <? t_id r then Some r else Some b
       end)
    l None.

Definition resolveTripForBus (busId : Z) (tripId : option Z) : M (option Trip) :=
  match truthy tripId with
  | Some t =>
      let* trip :=
        query (fun d =>
          find (fun r => (t_id r =? t) && (t_bus_id r =? busId))
               (trip_schedules d)) in
      match trip with
      | None => throw "Trip not found for bus"
      | Some trip =>
          if String.eqb (t_status trip) "active" then ret (Some trip)
          else throw "Trip is not active"
      end
  | None =>
      query (fun d =>
        order_by_id_desc_first
          (filter (fun r => (t_bus_id r =? busId) && String.eqb (t_status r) "active")
                  (trip_schedules d)))
  end.

(** [trip?.id || null]. *)
Definition trip_key (trip : option Trip) : option Z :=
  truthy (option_map t_id trip).

(** [trip?.route_id]. *)
Definition trip_route (trip : option Trip) : option Z :=
  truthy (option_map t_route_id trip).

(** ** Readers of bookings and locks (auth.js 938-982) *)

Definition getBusCapacity (busId : Z) : M Z :=
  let* bus := query (fun d => find (fun b => bus_id b =? busId) (buses d)) in
  match bus with
  | None => throw "Bus not found"
  | Some bus =>
      let cap := bus_capacity bus in
      ret (if cap >? 0 then cap else 50)
  end.

(** The [WHERE] clause on [trip_id] is present when [tripId] is truthy. *)
Definition trip_clause (tripId : option Z) (row_trip : option Z) : bool :=
  match truthy tripId with
  | Some t => eqb_opt row_trip (Some t)
  | None => true
  end.

Definition confirmed_row (busId : Z) (tripId : option Z) (b : Booking) : bool :=
  (b_bus_id b =? busId) && trip_clause tripId (b_trip_id b)
  && String.eqb (b_status b) "confirmed".

Definition active_lock_row (env : Env) (busId : Z) (tripId : option Z)
  (l : SeatLock) : bool :=
  (l_bus_id l =? busId) && trip_clause tripId (l_trip_id l)
  && (l_expires_at l >? now env).

Definition listConfirmedSeatNumbersForBusTrip (busId : Z) (tripId : option Z)
  (capacity : Z) : M (list string) :=
  query (fun d =>
    uniqueNormalizedSeatList
      (map b_seat_number (filter (confirmed_row busId tripId) (bookings d)))
      capacity).

Definition listActiveLockedSeatNumbersForBusTrip (env : Env) (busId : Z)
  (tripId : option Z) (capacity : Z) : M (list string) :=
  query (fun d =>
    uniqueNormalizedSeatList
      (map l_seat_number (filter (active_lock_row env busId tripId) (seat_locks d)))
      capacity).

Definition listActiveLocksForBusTrip (env : Env) (busId : Z) (tripId : option Z)
  : M (list SeatLock) :=
  query (fun d => filter (active_lock_row env busId tripId) (seat_locks d)).

(** [seats.includes(String(seatKey))]. *)
Definition includes (l : list string) (k : string) : bool :=
  existsb (String.eqb k) l.

Definition hasConfirmedSeat (busId : Z) (tripId : option Z) (seatKey : string)
  (capacity : Z) : M bool :=
  let* seats := listConfirmedSeatNumbersForBusTrip busId tripId capacity in
  ret (includes seats seatKey).

Definition hasActiveLockSeat (env : Env) (busId : Z) (tripId : option Z)
  (seatKey : string) (capacity : Z) : M bool :=
  let* seats := listActiveLockedSeatNumbersForBusTrip env busId tripId capacity in
  ret (includes seats seatKey).

Definition eqb_opt_string (a b : option string) : bool :=
  match a, b with
  | Some x, Some y => String.eqb x y
  | None, None => true
  | _, _ => false
  end.

(** [normalizeSeatNumberRaw(r.seat_number, capacity) === String(seatKey)]. *)
Definition normalizes_to (capacity : Z) (seatKey : string) (seat_number : string)
  : bool :=
  eqb_opt_string (normalizeSeatNumberRaw (Some seat_number) capacity) (Some seatKey).

(** [locked_by = ?] is never true of a NULL on either side. *)
Definition sql_eq_string (column : option string) (param : option string) : bool :=
  match column, param with
  | Some x, Some y => String.eqb x y
  | _, _ => false
  end.

Definition findOwnedActiveLockForSeat (env : Env) (busId : Z) (tripId : option Z)
  (lockId : option string) (seatKey : string) (capacity : Z)
  : M (option SeatLock) :=
  let* rows :=
    query (fun d =>
      filter (fun l => active_lock_row env busId tripId l
                       && sql_eq_string (l_locked_by l) lockId)
             (seat_locks d)) in
  ret (find (fun r => normalizes_to capacity seatKey (l_seat_number r)) rows).

(** ** The conditional insert (auth.js 984-1008) *)

Record BookingPayload := {
  passengerId : Z;
  busId : Z;
  tripId : option Z;
  seatNumber : string;
  legacySeatNumber : option string;
  pricePaid : Q;
  externalRef : string }.

Record InsertResult := {
  inserted : bool;
  bookingId : option Z }.

(** The row the [NOT EXISTS] subquery looks for. *)
Definition blocks_insert (payload : BookingPayload) (b : Booking) : bool :=
  (b_bus_id b =? busId payload)
  && (COALESCE (b_trip_id b) (-1) =? COALESCE (tripId payload) (-1))
  && (String.eqb (b_seat_number b) (seatNumber payload)
      || String.eqb (b_seat_number b)
           (match legacySeatNumber payload with
            | Some "" | None => seatNumber payload
            | Some l => l
            end))
  && String.eqb (b_status b) "confirmed".

Definition insertConfirmedBookingAtomic (payload : BookingPayload)
  : M InsertResult :=
  sql (fun d =>
    if existsb (blocks_insert payload) (bookings d) then
      ({| inserted := false; bookingId := None |}, d)
    else
      let id := next_id (map b_id (bookings d)) in
      ({| inserted := true; bookingId := truthy (Some id) |},
       set_bookings (fun bs => bs ++
         [{| b_id := id; b_passenger_id := passengerId payload;
             b_bus_id := busId payload; b_trip_id := tripId payload;
             b_seat_number := seatNumber payload;
             b_price_paid := pricePaid payload; b_status := "confirmed";
             b_external_ref := Some (externalRef payload) |}]) d)).

(** ** Seat availability (auth.js 1117-1162) *)

Record SeatsJson := {
  sj_trip_id : option Z;
  sj_available : list string;
  sj_locked : list string;
  sj_own_locked : list string;
  sj_booked : list string }.

(** [String(l.locked_by || '')]. *)
Definition owner_of (l : SeatLock) : string :=
  match l_locked_by l with Some s => s | None => "" end.

(** The loop over [activeLocks]: the pair [(ownLockedSet, lockedByOthersSet)]. *)
Definition split_locks (ownLockId : option string) (capacity : Z)
  (activeLocks : list SeatLock) : list string * list string :=
  fold_left
    (fun '(own, others) l =>
       match normalizeSeatNumberRaw (Some (l_seat_number l)) capacity with
       | None => (own, others)
       | Some k =>
           match ownLockId with
           | Some o =>
               if String.eqb (owner_of l) o then (set_add k own, others)
               else (own, set_add k others)
           | None => (own, set_add k others)
           end
       end)
    activeLocks ([], []).

(** [tripIdParam] is [Number(url.searchParams.get('tripId') || 0)], an integer;
    [lockIdParam] is [url.searchParams.get('lockId')]. *)
Definition handleGetBusSeats (env : Env) (busId : Z) (tripIdParam : Z)
  (lockIdParam : option string) : M (Response (Body SeatsJson)) :=
  try_catch
    (let tripId := if tripIdParam >? 0 then Some tripIdParam else None in
     let ownLockId := trimmed_or_null lockIdParam in
     let* trip := resolveTripForBus busId tripId in
     let* capacity := getBusCapacity busId in
     let allSeats :=
       map (fun i => Js.String_of (Z.of_nat i + 1)) (seq 0 (Z.to_nat capacity)) in
     let* bookedSeats :=
       listConfirmedSeatNumbersForBusTrip busId (trip_key trip) capacity in
     let* activeLocks := listActiveLocksForBusTrip env busId (trip_key trip) in
     let '(ownLockedSet, lockedByOthersSet) :=
       split_locks ownLockId capacity activeLocks in
     let ownLocked := sort_numeric ownLockedSet in
     let lockedSeats := sort_numeric lockedByOthersSet in
     let available :=
       filter (fun s => negb (includes bookedSeats s) && negb (includes lockedSeats s))
              allSeats in
     ok {| sj_trip_id := trip_key trip;
           sj_available := available;
           sj_locked := lockedSeats;
           sj_own_locked := ownLocked;
           sj_booked := bookedSeats |})
    500.

(** ** Seat locks (auth.js 1165-1224, 1409-1447) *)

Record LockJson := {
  lj_lock_id : string;
  lj_trip_id : option Z;
  lj_seat : string;
  lj_expires_at : Z }.

(** [seat_number = ? OR seat_number = ?] on the canonical and the legacy key. *)
Definition seat_is (seatKey legacySeat : string) (seat_number : string) : bool :=
  String.eqb seat_number seatKey || String.eqb seat_number legacySeat.

(** [canonicalSeatToLegacy(seatKey) || seatKey]. *)
Definition legacy_or_self (seatKey : string) : string :=
  match canonicalSeatToLegacy seatKey with
  | Some "" | None => seatKey
  | Some l => l
  end.

(** [DELETE FROM seat_locks WHERE bus_id = ? AND (seat_number = ? OR
    seat_number = ?) AND datetime(expires_at) <= datetime("now")]. *)
Definition delete_expired_locks (env : Env) (busId : Z)
  (seatKey legacySeat : string) (ls : list SeatLock) : list SeatLock :=
  filter (fun l =>
    negb ((l_bus_id l =? busId)
          && seat_is seatKey legacySeat (l_seat_number l)
          && (l_expires_at l <=? now env))) ls.

(** [DELETE FROM seat_locks WHERE bus_id = ? AND (seat_number = ? OR
    seat_number = ?) AND (trip_id IS NULL OR trip_id != ?)]. *)
Definition delete_other_trip_locks (busId : Z) (seatKey legacySeat : string)
  (tripKey : Z) (ls : list SeatLock) : list SeatLock :=
  filter (fun l =>
    negb ((l_bus_id l =? busId)
          && seat_is seatKey legacySeat (l_seat_number l)
          && negb (eqb_opt (l_trip_id l) (Some tripKey)))) ls.

(** [UPDATE seat_locks SET expires_at = ? WHERE id = ?]. *)
Definition extend_lock (id expiresAt : Z) (ls : list SeatLock) : list SeatLock :=
  map (fun l =>
    if l_id l =? id then
      {| l_id := l_id l; l_bus_id := l_bus_id l; l_trip_id := l_trip_id l;
         l_seat_number := l_seat_number l; l_locked_by := l_locked_by l;
         l_expires_at := expiresAt |}
    else l) ls.

(** [INSERT INTO seat_locks (bus_id, trip_id, seat_number, locked_by,
    expires_at) VALUES (?, ?, ?, ?, ?)]. *)
Definition insert_lock (busId : Z) (tripKey : option Z) (seatKey lockOwner : string)
  (expiresAt : Z) (ls : list SeatLock) : list SeatLock :=
  ls ++ [{| l_id := next_id (map l_id ls); l_bus_id := busId;
            l_trip_id := tripKey; l_seat_number := seatKey;
            l_locked_by := Some lockOwner; l_expires_at := expiresAt |}].

(** [requestedLockId || `lock_${Date.now()}_${...}`]. *)
Definition lock_owner (env : Env) (lockId : option string) : string :=
  match trimmed_or_null lockId with
  | Some o => o
  | None => random_lock_id env
  end.

Definition handleLockSeat (env : Env) (busId : Z) (seat : option string)
  (tripId : option Z) (lockId : option string) : M (Response (Body LockJson)) :=
  try_catch
    (let* trip := resolveTripForBus busId (truthy tripId) in
     let tripKey := trip_key trip in
     let* capacity := getBusCapacity busId in
     match normalizeSeatNumberRaw seat capacity with
     | None => throw "Invalid seat number"
     | Some seatKey =>
         let legacySeat := legacy_or_self seatKey in
         let lockOwner := lock_owner env lockId in
         run (set_seat_locks (delete_expired_locks env busId seatKey legacySeat));;
         match tripKey with
         | Some t =>
             run (set_seat_locks
                    (delete_other_trip_locks busId seatKey legacySeat t))
         | None => ret tt
         end;;
         let* activeLocks := listActiveLocksForBusTrip env busId tripKey in
         let matchingLock :=
           find (fun l => normalizes_to capacity seatKey (l_seat_number l))
                activeLocks in
         match matchingLock with
         | Some l =>
             if negb (String.eqb (owner_of l) lockOwner)
             then throw "Seat already locked by another user"
             else ret tt
         | None => ret tt
         end;;
         let* booked := hasConfirmedSeat busId tripKey seatKey capacity in
         (if booked then throw "Seat already booked" else ret tt);;
         let expiresAt := now env + 300 in
         match matchingLock with
         | Some m => run (set_seat_locks (extend_lock (l_id m) expiresAt))
         | None =>
             run (set_seat_locks
                    (insert_lock busId tripKey seatKey lockOwner expiresAt))
         end;;
         ok {| lj_lock_id := lockOwner; lj_trip_id := tripKey;
               lj_seat := seatKey; lj_expires_at := expiresAt |}
     end)
    400.

Record UnlockJson := {
  uj_unlocked : bool;
  uj_trip_id : option Z;
  uj_seat : string }.

Definition handleUnlockSeat (env : Env) (busId : Z) (seat : option string)
  (tripId : option Z) (lockId : option string) : M (Response (Body UnlockJson)) :=
  try_catch
    (match trimmed_or_null lockId with
     | None => throw "Lock ID required"
     | Some key =>
         let* capacity := getBusCapacity busId in
         match normalizeSeatNumberRaw seat capacity with
         | None => throw "Invalid seat number"
         | Some seatKey =>
             let legacySeat := legacy_or_self seatKey in
             let* trip := resolveTripForBus busId (truthy tripId) in
             let tripKey := trip_key trip in
             run (set_seat_locks (filter (fun l =>
               negb ((l_bus_id l =? busId)
                     && trip_clause tripKey (l_trip_id l)
                     && sql_eq_string (l_locked_by l) (Some key)
                     && seat_is seatKey legacySeat (l_seat_number l)))));;
             ok {| uj_unlocked := true; uj_trip_id := tripKey; uj_seat := seatKey |}
         end
     end)
    400.

(** ** Receipts, the receipt service, SMS and the processor (auth.js 1450-1631) *)

Definition sendSMS (phone : string) (text : SmsText) : M unit :=
  send (SmsSent phone text).

Definition saveReceiptForBooking (bookingId : option Z) (receiptUrl : option string)
  (driveFileId : option string) : M unit :=
  match truthy bookingId, receiptUrl with
  | Some id, Some url =>
      match url with
      | EmptyString => ret tt
      | _ =>
          run (set_booking_receipts (fun rs =>
            if existsb (fun r => rc_booking_id r =? id) rs then
              map (fun r =>
                     if rc_booking_id r =? id then
                       {| rc_booking_id := id; rc_receipt_url := url;
                          rc_drive_file_id := driveFileId |}
                     else r) rs
            else rs ++ [{| rc_booking_id := id; rc_receipt_url := url;
                           rc_drive_file_id := driveFileId |}]))
      end
  | _, _ => ret tt
  end.

Definition getReceiptByBookingId (bookingId : option Z) : M (option Receipt) :=
  match truthy bookingId with
  | None => ret None
  | Some id =>
      query (fun d => find (fun r => rc_booking_id r =? id) (booking_receipts d))
  end.

Definition nonempty (o : option string) : option string :=
  match o with
  | Some "" => None
  | _ => o
  end.

Definition sendBookingToGAS (env : Env) (payload : GasPayload)
  : M (option GasResult) :=
  match nonempty (GAS_WEBHOOK_URL env) with
  | None => ret None
  | Some _ =>
      send (GasPosted payload);;
      ret (gas_service env payload)
  end.

(** [gasResult?.receipt_url || gasResult?.receiptUrl || null]. *)
Definition receipt_url_of (gasResult : option GasResult) : option string :=
  match gasResult with
  | Some g => nonempty (gas_receipt_url g)
  | None => None
  end.

Definition drive_file_id_of (gasResult : option GasResult) : option string :=
  match gasResult with
  | Some g => nonempty (gas_drive_file_id g)
  | None => None
  end.

Definition verifyPaystackTransaction (env : Env) (reference : string)
  : M Verification :=
  match nonempty (PAYSTACK_SECRET_KEY env) with
  | None => throw "Missing PAYSTACK_SECRET_KEY"
  | Some _ =>
      send (PaystackVerified reference);;
      match paystack_verify env reference with
      | VerifyHttpError st =>
          throw ("Paystack verify failed: HTTP " ++ Js.String_of st)%string
      | VerifyInvalid => throw "Invalid Paystack verify response"
      | VerifyData st amount =>
          ret {| v_verified := true; v_status := st; v_amountKobo := amount |}
      end
  end.

(** ** SQL [LIKE] and the bookings of a payment reference *)

Definition lower_char (c : ascii) : ascii :=
  if Js.is_upper c then Js.byte (Js.code c + 32) else c.

(** SQLite's [LIKE]: [%] is any text, [_] any one character, a letter of
    ASCII matches in either case. *)
Fixpoint like (pattern text : string) : bool :=
  match pattern with
  | EmptyString => match text with EmptyString => true | _ => false end
  | String p pattern' =>
      if Ascii.eqb p "%" then
        (fix any_suffix (t : string) : bool :=
           like pattern' t
           || match t with
              | EmptyString => false
              | String _ t' => any_suffix t'
              end) text
      else
        match text with
        | EmptyString => false
        | String c text' =>
            (Ascii.eqb p "_" || Ascii.eqb (lower_char p) (lower_char c))
            && like pattern' text'
        end
  end.

(** [external_ref = ? OR external_ref LIKE ?] bound to [ref] and [`${ref}:%`]. *)
Definition ref_matches (ref : string) (external_ref : option string) : bool :=
  match external_ref with
  | None => false
  | Some x => String.eqb x ref || like (ref ++ ":%")%string x
  end.

Record ExistingRow := {
  er_id : Z;
  er_seat_number : string;
  er_price_paid : Q;
  er_bus_name : string;
  er_route_name : string;
  er_bus_capacity : Z }.

Fixpoint insert_by_id (x : ExistingRow) (l : list ExistingRow) : list ExistingRow :=
  match l with
  | [] => [x]
  | y :: r => if er_id x <? er_id y then x :: l else y :: insert_by_id x r
  end.

(** [ORDER BY b.id ASC]. *)
Definition order_by_id (l : list ExistingRow) : list ExistingRow :=
  fold_left (fun acc x => insert_by_id x acc) l [].

(** The idempotency query of [handleBookingConfirm]: bookings joined to
    their bus and to the route of that bus. *)
Definition existing_rows (ref : string) (d : DB) : list ExistingRow :=
  order_by_id
    (flat_map (fun b =>
       if ref_matches ref (b_external_ref b) then
         flat_map (fun bus =>
           if bus_id bus =? b_bus_id b then
             flat_map (fun r =>
               if eqb_opt (Some (r_id r)) (bus_route_id bus) then
                 [{| er_id := b_id b; er_seat_number := b_seat_number b;
                     er_price_paid := b_price_paid b;
                     er_bus_name := bus_name bus; er_route_name := r_name r;
                     er_bus_capacity := bus_capacity bus |}]
               else [])
               (routes d)
           else [])
           (buses d)
       else [])
       (bookings d)).

(** ** Booking finaliser (auth.js 1227-1407) *)

Record ConfirmRequest := {
  c_firstName : string;
  c_lastName : string;
  c_email : string;
  c_phone : string;
  c_nokName : option string;
  c_nokPhone : option string;
  c_seat : option string;
  c_seats : list string;          (* [[]] when [seats] is no array *)
  c_busId : Z;
  c_price : option Q;             (* [Number(price)] when it is finite *)
  c_unitPrice : option Q;         (* [Number(unitPrice)] when it is finite *)
  c_lockId : option string;
  c_paystackRef : string;         (* [""] when absent *)
  c_tripId : option Z }.

Record ConfirmJson := {
  cj_booking_id : string;
  cj_booking_ids : list string;
  cj_passenger_name : string;
  cj_route_name : string;
  cj_bus_name : string;
  cj_seat : string;
  cj_seats : list string;
  cj_seat_count : Z;
  cj_price : Q;
  cj_phone : string;
  cj_email : string;
  cj_status : string;
  cj_duplicate : bool;            (* [false] when the member is absent *)
  cj_receipt_url : option string }.

(** [`ELITE-${id}`] of an id that may be [null]. *)
Definition ELITE_of (id : option Z) : string :=
  match id with
  | Some i => ELITE i
  | None => "ELITE-null"
  end.

(** [Math.round]. *)
Definition Math_round (x : Q) : Z := Qfloor (x + (1 # 2))%Q.

(** The loop that normalises [rawSeatList] into [seatKeys]. *)
Fixpoint normalize_seats (capacity : Z) (rawSeatList : list string)
  (seatKeys : list string) : M (list string) :=
  match rawSeatList with
  | [] => ret seatKeys
  | rawSeat :: rest =>
      match normalizeSeatNumberRaw (Some rawSeat) capacity with
      | None => throw "Invalid seat number"
      | Some seatKey =>
          normalize_seats capacity rest
            (if includes seatKeys seatKey then seatKeys else seatKeys ++ [seatKey])
      end
  end.

(** The loop that collects [ownedLocks]. *)
Fixpoint owned_locks (env : Env) (busId : Z) (tripKey : option Z)
  (lockId : option string) (capacity : Z) (seatKeys : list string)
  : M (list SeatLock) :=
  match seatKeys with
  | [] => ret []
  | seatKey :: rest =>
      let* lock :=
        findOwnedActiveLockForSeat env busId tripKey lockId seatKey capacity in
      match lock with
      | None =>
          throw ("Seat lock expired or invalid for seat " ++ seatKey)%string
      | Some l =>
          let* ls := owned_locks env busId tripKey lockId capacity rest in
          ret (l :: ls)
      end
  end.

Definition delete_booking (bookingId : option Z) : M unit :=
  run (set_bookings (filter (fun b => negb (eqb_opt (Some (b_id b)) bookingId)))).

Definition delete_passenger (passengerId : Z) : M unit :=
  run (set_passengers (filter (fun p => negb (p_id p =? passengerId)))).

Fixpoint for_each {A} (l : list A) (f : A -> M unit) : M unit :=
  match l with
  | [] => ret tt
  | x :: r => f x;; for_each r f
  end.

(** The loop that inserts one confirmed booking per seat; [single] is
    [seatKeys.length === 1]. *)
Fixpoint insert_seats (passengerId busId : Z) (tripKey : option Z)
  (perSeatPaid : Q) (paystackRef : string) (single : bool)
  (seatKeys : list string) (createdBookingIds : list (option Z))
  : M (list (option Z)) :=
  match seatKeys with
  | [] => ret createdBookingIds
  | seatKey :: rest =>
      let legacySeat := legacy_or_self seatKey in
      let externalRef :=
        if single then paystackRef else (paystackRef ++ ":" ++ seatKey)%string in
      let* bookingInsert :=
        insertConfirmedBookingAtomic
          {| passengerId := passengerId; busId := busId; tripId := tripKey;
             seatNumber := seatKey; legacySeatNumber := Some legacySeat;
             pricePaid := perSeatPaid; externalRef := externalRef |} in
      if negb (inserted bookingInsert) then
        for_each createdBookingIds delete_booking;;
        delete_passenger passengerId;;
        throw ("Seat already booked: " ++ seatKey)%string
      else
        insert_seats passengerId busId tripKey perSeatPaid paystackRef single
          rest (createdBookingIds ++ [bookingId bookingInsert])
  end.

Definition insert_passenger (first last email phone : string)
  (nok_name nok_phone : option string) : M Z :=
  sql (fun d =>
    let id := next_id (map p_id (passengers d)) in
    (id, set_passengers (fun ps => ps ++
       [{| p_id := id; p_first_name := first; p_last_name := last;
           p_email := email; p_phone := phone;
           p_nok_name := nok_name; p_nok_phone := nok_phone |}]) d)).

(** [UPDATE buses SET available_seats = ? WHERE id = ?]. *)
Definition update_available_seats (busId remaining : Z) : M unit :=
  run (set_buses (map (fun b =>
    if bus_id b =? busId then
      {| bus_id := bus_id b; bus_route_id := bus_route_id b;
         bus_name := bus_name b; bus_capacity := bus_capacity b;
         bus_available_seats := remaining; bus_price := bus_price b |}
    else b))).

Definition count_confirmed (busId tripKey : Z) (d : DB) : Z :=
  Z.of_nat (List.length (filter (fun b =>
    (b_bus_id b =? busId) && eqb_opt (b_trip_id b) (Some tripKey)
    && String.eqb (b_status b) "confirmed") (bookings d))).

Definition sum_paid (rows : list ExistingRow) : Q :=
  fold_left (fun sum r => (sum + er_price_paid r)%Q) rows 0%Q.

Definition or_default (s d : string) : string :=
  match s with EmptyString => d | _ => s end.

Definition route_name_of (routeId : option Z) : M string :=
  match truthy routeId with
  | None => ret "Route"
  | Some id =>
      let* routeInfo := query (fun d => find (fun r => r_id r =? id) (routes d)) in
      ret (or_default (match routeInfo with Some r => r_name r | None => "" end)
                      "Route")
  end.

(** [a || b] on ids. *)
Definition or_else (a b : option Z) : option Z :=
  match truthy a with Some x => Some x | None => truthy b end.

(** Lines 1229-1243: the trip, the capacity and the seat keys of a request. *)
Definition confirm_validate (data : ConfirmRequest)
  : M (option Trip * Z * list string) :=
  let* trip := resolveTripForBus (c_busId data) (truthy (c_tripId data)) in
  let* capacity := getBusCapacity (c_busId data) in
  let rawSeatList :=
    match c_seats data with
    | [] => match c_seat data with Some s => [s] | None => [] end
    | l => l
    end in
  match rawSeatList with
  | [] => throw "Seat selection is required"
  | _ =>
      let* seatKeys := normalize_seats capacity rawSeatList [] in
      match seatKeys with
      | [] => throw "Seat selection is required"
      | _ =>
          match c_paystackRef data with
          | EmptyString => throw "Payment reference is required"
          | _ => ret (trip, capacity, seatKeys)
          end
      end
  end.

(** Lines 1255-1278: the answer to a reference that already has bookings. *)
Definition confirm_duplicate (data : ConfirmRequest) (capacity : Z)
  (first : ExistingRow) (existingRows : list ExistingRow)
  : M (Response (Body ConfirmJson)) :=
  let* existingReceipt := getReceiptByBookingId (Some (er_id first)) in
  let normalizedSeats :=
    filter (fun s => negb (String.eqb s ""))
      (map (fun r =>
              match normalizeSeatNumberRaw (Some (er_seat_number r))
                      (if er_bus_capacity r =? 0 then capacity
                       else er_bus_capacity r) with
              | Some k => k
              | None => er_seat_number r
              end)
           existingRows) in
  ok {| cj_booking_id := ELITE (er_id first);
        cj_booking_ids := map (fun r => ELITE (er_id r)) existingRows;
        cj_passenger_name := (c_firstName data ++ " " ++ c_lastName data)%string;
        cj_route_name := er_route_name first;
        cj_bus_name := er_bus_name first;
        cj_seat := join ", " normalizedSeats;
        cj_seats := normalizedSeats;
        cj_seat_count := Z.of_nat (List.length normalizedSeats);
        cj_price := sum_paid existingRows;
        cj_phone := c_phone data;
        cj_email := c_email data;
        cj_status := "confirmed";
        cj_duplicate := true;
        cj_receipt_url :=
          match existingReceipt with
          | Some r => nonempty (Some (rc_receipt_url r))
          | None => None
          end |}.

(** Lines 1280-1289: the payment is verified with the processor. *)
Definition confirm_verify (env : Env) (data : ConfirmRequest) : M unit :=
  let* verification := verifyPaystackTransaction env (c_paystackRef data) in
  if negb (v_verified verification) then throw "Payment verification failed"
  else if negb (String.eqb (v_status verification) "success")
  then throw "Payment not successful"
  else
    match c_price data with
    | Some price =>
        let expectedKobo := Math_round (price * 100)%Q in
        if negb (Qeq_bool (v_amountKobo verification) (inject_Z expectedKobo))
        then throw "Payment amount mismatch"
        else ret tt
    | None => ret tt
    end.

(** Lines 1299-1403: the passenger, the bookings, the locks, the receipt,
    the SMS and the answer. *)
Definition confirm_commit (env : Env) (data : ConfirmRequest)
  (trip : option Trip) (seatKeys : list string) (ownedLocks : list SeatLock)
  : M (Response (Body ConfirmJson)) :=
  let busId := c_busId data in
  let tripKey := trip_key trip in
  let* passengerId :=
    insert_passenger (c_firstName data) (c_lastName data) (c_email data)
      (c_phone data) (c_nokName data) (c_nokPhone data) in
  let totalPaid := match c_price data with Some p => p | None => 0%Q end in
  let count := Z.of_nat (List.length seatKeys) in
  let perSeatPaid :=
    match c_unitPrice data with
    | Some u => if negb (Qle_bool u 0) then u else (totalPaid / inject_Z count)%Q
    | None => (totalPaid / inject_Z count)%Q
    end in
  let* createdBookingIds :=
    insert_seats passengerId busId tripKey perSeatPaid (c_paystackRef data)
      (count =? 1) seatKeys [] in
  let bookingId := match createdBookingIds with id :: _ => id | [] => None end in
  for_each ownedLocks (fun lock =>
    run (set_seat_locks (filter (fun l => negb (l_id l =? l_id lock)))));;
  match tripKey with
  | Some t =>
      let* busCap := query (fun d => find (fun b => bus_id b =? busId) (buses d)) in
      let* c := query (count_confirmed busId t) in
      update_available_seats busId
        (Z.max 0 (match busCap with Some b => bus_capacity b | None => 0 end - c))
  | None => ret tt
  end;;
  let* busInfo := query (fun d => find (fun b => bus_id b =? busId) (buses d)) in
  let busName :=
    or_default (match busInfo with Some b => bus_name b | None => "" end)
               "Unknown Bus" in
  let* routeName :=
    route_name_of
      (or_else (trip_route trip)
               (match busInfo with Some b => bus_route_id b | None => None end)) in
  let seatText := join ", " seatKeys in
  let* gasResult :=
    sendBookingToGAS env
      {| gas_booking_id := COALESCE bookingId 0;
         gas_passenger_name := (c_firstName data ++ " " ++ c_lastName data)%string;
         gas_route_name := routeName; gas_bus_name := busName;
         gas_seat := seatText; gas_amount := totalPaid;
         gas_phone := c_phone data; gas_email := c_email data;
         gas_paystack_ref := Some (c_paystackRef data);
         gas_source := "customer_paystack" |} in
  let receiptUrl := receipt_url_of gasResult in
  match receiptUrl with
  | Some _ =>
      for_each createdBookingIds (fun id =>
        saveReceiptForBooking id receiptUrl (drive_file_id_of gasResult))
  | None => ret tt
  end;;
  sendSMS (c_phone data)
    {| sms_booking_id := COALESCE bookingId 0; sms_seats := seatText;
       sms_amount := totalPaid; sms_receipt_url := receiptUrl |};;
  ok {| cj_booking_id := ELITE_of bookingId;
        cj_booking_ids := map ELITE_of createdBookingIds;
        cj_passenger_name := (c_firstName data ++ " " ++ c_lastName data)%string;
        cj_route_name := routeName;
        cj_bus_name := busName;
        cj_seat := seatText;
        cj_seats := seatKeys;
        cj_seat_count := count;
        cj_price := totalPaid;
        cj_phone := c_phone data;
        cj_email := c_email data;
        cj_status := "confirmed";
        cj_duplicate := false;
        cj_receipt_url := receiptUrl |}.

Definition handleBookingConfirm (env : Env) (data : ConfirmRequest)
  : M (Response (Body ConfirmJson)) :=
  try_catch
    (let* (trip, capacity, seatKeys) := confirm_validate data in
     let* existingRows := query (existing_rows (c_paystackRef data)) in
     match existingRows with
     | first :: _ => confirm_duplicate data capacity first existingRows
     | [] =>
         confirm_verify env data;;
         let* ownedLocks :=
           owned_locks env (c_busId data) (trip_key trip) (c_lockId data)
             capacity seatKeys in
         confirm_commit env data trip seatKeys ownedLocks
     end)
    400.

(** ** Sessions and the administrator list (auth.js 1633-1661) *)

Fixpoint toLowerCase (s : string) : string :=
  match s with
  | EmptyString => EmptyString
  | String c r => String (lower_char c) (toLowerCase r)
  end.

(** [raw.split(',')]. *)
Fixpoint split_comma (s : string) : list string :=
  match s with
  | EmptyString => [EmptyString]
  | String c r =>
      if Ascii.eqb c "," then EmptyString :: split_comma r
      else
        match split_comma r with
        | x :: xs => String c x :: xs
        | [] => [String c EmptyString]
        end
  end.

Definition parseAdminEmails (env : Env) : list string :=
  match Js.trim (ADMIN_EMAILS env) with
  | EmptyString => []
  | raw =>
      filter (fun e => negb (String.eqb e ""))
        (map (fun e => toLowerCase (Js.trim e)) (split_comma raw))
  end.

Definition isAdminEmail (env : Env) (email : string) : bool :=
  match email with
  | EmptyString => false
  | _ => includes (parseAdminEmails env) (toLowerCase email)
  end.

Definition getSessionUser (env : Env) (token : option string) : M User :=
  match nonempty token with
  | None => throw "Token required"
  | Some tok =>
      let* session :=
        query (fun d => find (fun s => String.eqb (s_token s) tok) (auth_sessions d)) in
      match session with
      | None => throw "Invalid token"
      | Some session =>
          if s_expires_at session <? now env then throw "Token expired"
          else
            let* user :=
              query (fun d => find (fun u => u_id u =? s_user_id session) (users d)) in
            match user with
            | None => throw "User not found"
            | Some user => ret user
            end
      end
  end.

(** ** Manual booking of the administration (auth.js 2134-2242) *)

Record ManualRequest := {
  m_firstName : string;
  m_lastName : string;
  m_email : string;
  m_phone : string;
  m_nokName : option string;
  m_nokPhone : option string;
  m_busId : Z;                    (* [0] when absent *)
  m_seat : option string;
  m_pricePaid : option Q;         (* [Number(pricePaid)] when it is finite *)
  m_tripId : option Z }.

Record ManualJson := {
  mj_booking_id : string;
  mj_route_name : string;
  mj_bus_name : string;
  mj_seat : string;
  mj_price : Q;
  mj_status : string;
  mj_external_ref : string;
  mj_receipt_url : option string }.

Definition is_empty (s : string) : bool :=
  match s with EmptyString => true | _ => false end.

Definition handleAdminManualBooking (env : Env) (token : option string)
  (data : ManualRequest) : M (Response (Body ManualJson)) :=
  try_catch
    (let* user := getSessionUser env token in
     if negb (isAdminEmail env (u_email user)) then
       ret {| status := 403; body := ErrorJson "Forbidden" |}
     else
       let busId := m_busId data in
       if is_empty (m_firstName data) || is_empty (m_lastName data)
          || is_empty (m_email data) || is_empty (m_phone data)
          || (busId =? 0)
          || match nonempty (m_seat data) with None => true | Some _ => false end
       then throw "Missing required fields"
       else
         let* bus := query (fun d => find (fun b => bus_id b =? busId) (buses d)) in
         match bus with
         | None => throw "Bus not found"
         | Some bus =>
             let* trip := resolveTripForBus busId (truthy (m_tripId data)) in
             let tripKey := trip_key trip in
             let capacity := capacity_or_50 (bus_capacity bus) in
             match normalizeSeatNumberRaw (m_seat data) capacity with
             | None => throw "Invalid seat number"
             | Some seatKey =>
                 let legacySeat := legacy_or_self seatKey in
                 let* booked := hasConfirmedSeat busId tripKey seatKey capacity in
                 (if booked then throw "Seat already booked" else ret tt);;
                 let* locked := hasActiveLockSeat env busId tripKey seatKey capacity in
                 (if locked then throw "Seat currently locked" else ret tt);;
                 let* passengerId :=
                   insert_passenger (m_firstName data) (m_lastName data)
                     (m_email data) (m_phone data)
                     (nonempty (m_nokName data)) (nonempty (m_nokPhone data)) in
                 let paid :=
                   match m_pricePaid data with
                   | Some p => p
                   | None => bus_price bus
                   end in
                 let extRef := random_manual_ref env in
                 let* bookingInsert :=
                   insertConfirmedBookingAtomic
                     {| passengerId := passengerId; busId := busId;
                        tripId := tripKey; seatNumber := seatKey;
                        legacySeatNumber := Some legacySeat;
                        pricePaid := paid; externalRef := extRef |} in
                 if negb (inserted bookingInsert) then
                   delete_passenger passengerId;;
                   throw "Seat already booked"
                 else
                   let bookingId := bookingId bookingInsert in
                   let* routeName :=
                     route_name_of (or_else (trip_route trip) (bus_route_id bus)) in
                   let* gasResult :=
                     sendBookingToGAS env
                       {| gas_booking_id := COALESCE bookingId 0;
                          gas_passenger_name :=
                            (m_firstName data ++ " " ++ m_lastName data)%string;
                          gas_route_name := routeName;
                          gas_bus_name := bus_name bus;
                          gas_seat := seatKey; gas_amount := paid;
                          gas_phone := m_phone data; gas_email := m_email data;
                          gas_paystack_ref := None;
                          gas_source := "admin_manual" |} in
                   let receiptUrl := receipt_url_of gasResult in
                   saveReceiptForBooking bookingId receiptUrl
                     (drive_file_id_of gasResult);;
                   sendSMS (m_phone data)
                     {| sms_booking_id := COALESCE bookingId 0;
                        sms_seats := seatKey; sms_amount := paid;
                        sms_receipt_url := receiptUrl |};;
                   match tripKey with
                   | Some t =>
                       let* c := query (count_confirmed busId t) in
                       update_available_seats busId
                         (Z.max 0 (bus_capacity bus - c))
                   | None => ret tt
                   end;;
                   ok {| mj_booking_id := ELITE_of bookingId;
                         mj_route_name := routeName;
                         mj_bus_name := bus_name bus;
                         mj_seat := seatKey;
                         mj_price := paid;
                         mj_status := "confirmed";
                         mj_external_ref := extRef;
                         mj_receipt_url := receiptUrl |}
             end
         end)
    400.

(** ** Payment webhook (auth.js 1536-1603, 1676-1724) *)

(** The loop of [timingSafeEqual]: [out |= a.charCodeAt(i) ^ b.charCodeAt(i)]. *)
Fixpoint xor_fold (a b : string) (out : Z) : Z :=
  match a, b with
  | String x a', String y b' =>
      xor_fold a' b' (Z.lor out (Z.lxor (Js.code x) (Js.code y)))
  | _, _ => out
  end.

Definition timingSafeEqual (a b : string) : bool :=
  if is_empty a || is_empty b
     || negb (Nat.eqb (String.length a) (String.length b))
  then false
  else xor_fold a b 0 =? 0.

Record FallbackRow := {
  fr_id : Z;
  fr_seat_number : string;
  fr_price_paid : Q;
  fr_external_ref : option string;
  fr_first_name : string;
  fr_last_name : string;
  fr_email : string;
  fr_phone : string;
  fr_bus_name : string;
  fr_bus_capacity : Z;
  fr_route_name : string }.      (* [""] when the left join finds no route *)

(** [LEFT JOIN]: the matching rows, or one row of NULLs. *)
Definition left_join {A} (p : A -> bool) (l : list A) : list (option A) :=
  match filter p l with
  | [] => [None]
  | rows => map Some rows
  end.

Definition fallback_rows (reference : string) (d : DB) : list FallbackRow :=
  flat_map (fun b =>
    if ref_matches reference (b_external_ref b) then
      flat_map (fun p =>
        flat_map (fun bus =>
          flat_map (fun ts =>
            map (fun r =>
                   {| fr_id := b_id b; fr_seat_number := b_seat_number b;
                      fr_price_paid := b_price_paid b;
                      fr_external_ref := b_external_ref b;
                      fr_first_name := p_first_name p;
                      fr_last_name := p_last_name p;
                      fr_email := p_email p; fr_phone := p_phone p;
                      fr_bus_name := bus_name bus;
                      fr_bus_capacity := bus_capacity bus;
                      fr_route_name :=
                        match r with Some r => r_name r | None => "" end |})
                (left_join
                   (fun r =>
                      eqb_opt (Some (r_id r))
                        (match ts with
                         | Some ts => Some (t_route_id ts)
                         | None => bus_route_id bus
                         end))
                   (routes d)))
            (left_join (fun ts => eqb_opt (Some (t_id ts)) (b_trip_id b))
                       (trip_schedules d)))
          (filter (fun bus => bus_id bus =? b_bus_id b) (buses d)))
        (filter (fun p => p_id p =? b_passenger_id b) (passengers d))
    else [])
    (bookings d).

(** [ORDER BY b.id DESC LIMIT 1]. *)
Definition last_by_id (l : list FallbackRow) : option FallbackRow :=
  fold_left
    (fun best r =>
       match best with
       | None => Some r
       | Some b => if fr_id b <? fr_id r then Some r else Some b
       end)
    l None.

Definition handleWebhookBookingFallback (env : Env) (reference : string) : M unit :=
  match reference with
  | EmptyString => ret tt
  | _ =>
      let* booking := query (fun d => last_by_id (fallback_rows reference d)) in
      match booking with
      | None => ret tt
      | Some booking =>
          let* existingReceipt := getReceiptByBookingId (Some (fr_id booking)) in
          let receiptUrl0 :=
            match existingReceipt with
            | Some r => nonempty (Some (rc_receipt_url r))
            | None => None
            end in
          let normalizedSeat :=
            match normalizeSeatNumberRaw (Some (fr_seat_number booking))
                    (capacity_or_50 (fr_bus_capacity booking)) with
            | Some k => k
            | None => fr_seat_number booking
            end in
          let* receiptUrl :=
            match receiptUrl0 with
            | Some url => ret (Some url)
            | None =>
                let* gasResult :=
                  sendBookingToGAS env
                    {| gas_booking_id := fr_id booking;
                       gas_passenger_name :=
                         (fr_first_name booking ++ " " ++ fr_last_name booking)%string;
                       gas_route_name := or_default (fr_route_name booking) "Route";
                       gas_bus_name := or_default (fr_bus_name booking) "Bus";
                       gas_seat := normalizedSeat;
                       gas_amount := fr_price_paid booking;
                       gas_phone := fr_phone booking;
                       gas_email := fr_email booking;
                       gas_paystack_ref := fr_external_ref booking;
                       gas_source := "paystack_webhook_fallback" |} in
                saveReceiptForBooking (Some (fr_id booking))
                  (receipt_url_of gasResult) (drive_file_id_of gasResult);;
                ret (receipt_url_of gasResult)
            end in
          match existingReceipt with
          | Some _ => ret tt
          | None =>
              sendSMS (fr_phone booking)
                {| sms_booking_id := fr_id booking; sms_seats := normalizedSeat;
                   sms_amount := fr_price_paid booking;
                   sms_receipt_url := receiptUrl |}
          end
      end
  end.

Record ReceivedJson := { received : bool }.

(** [signature] is [request.headers.get('x-paystack-signature')]. *)
Definition handlePaystackWebhook (env : Env) (rawBody : string)
  (signature : option string) : M (Response (Body ReceivedJson)) :=
  try_catch
    (match nonempty (PAYSTACK_SECRET_KEY env) with
     | None => ret {| status := 500; body := ErrorJson "Missing PAYSTACK_SECRET_KEY" |}
     | Some secretKey =>
         let signature := match signature with Some s => s | None => "" end in
         let expectedSignature := hmacSha512Hex env secretKey rawBody in
         if negb (timingSafeEqual signature expectedSignature) then
           ret {| status := 401; body := ErrorJson "Invalid webhook signature" |}
         else
           match JSON_parse env rawBody with
           | None => throw "Unexpected token in JSON"
           | Some event =>
               (if eqb_opt_string (ev_event event) (Some "charge.success") then
                  match nonempty (ev_reference event) with
                  | Some reference =>
                      run (set_bookings (map (fun b =>
                        if ref_matches reference (b_external_ref b) then
                          {| b_id := b_id b; b_passenger_id := b_passenger_id b;
                             b_bus_id := b_bus_id b; b_trip_id := b_trip_id b;
                             b_seat_number := b_seat_number b;
                             b_price_paid := b_price_paid b;
                             b_status := "confirmed";
                             b_external_ref := b_external_ref b |}
                        else b)));;
                      handleWebhookBookingFallback env reference
                  | None => ret tt
                  end
                else ret tt);;
               ok {| received := true |}
           end
     end)
    400.

(** ** E-mail sign-up (auth.js 1873-1915) *)

Record SignUpRequest := {
  su_firstName : string;
  su_lastName : string;
  su_email : string;
  su_phone : string;
  su_password : string }.

Record AuthJson := {
  aj_token : string;
  aj_user_id : Z;
  aj_name : string;
  aj_email : string;
  aj_phone : string;
  aj_authMethod : string;
  aj_isAdmin : bool }.

Definition handleEmailSignUp (env : Env) (data : SignUpRequest)
  : M (Response (Body AuthJson)) :=
  try_catch
    (if is_empty (su_firstName data) || is_empty (su_lastName data)
        || is_empty (su_email data) || is_empty (su_phone data)
        || is_empty (su_password data)
     then throw "All fields required"
     else if Js.length (su_password data) <? 6
     then throw "Password must be at least 6 characters"
     else
       let* existingUser :=
         query (fun d => find (fun u => String.eqb (u_email u) (su_email data))
                              (users d)) in
       match existingUser with
       | Some _ => throw "User already exists"
       | None =>
           let passwordHash := hashPassword env (su_password data) in
           let* userId :=
             sql (fun d =>
               let id := next_id (map u_id (users d)) in
               (id, set_users (fun us => us ++
                  [{| u_id := id; u_email := su_email data;
                      u_first_name := su_firstName data;
                      u_last_name := su_lastName data;
                      u_phone := su_phone data;
                      u_password_hash := Some passwordHash;
                      u_auth_method := "email" |}]) d)) in
           insert_passenger (su_firstName data) (su_lastName data)
             (su_email data) (su_phone data) None None;;
           let token := generateToken env userId in
           let expiresAt := now env + 7 * 24 * 60 * 60 in
           run (set_auth_sessions (fun ss => ss ++
             [{| s_user_id := userId; s_token := token;
                 s_expires_at := expiresAt |}]));;
           ok {| aj_token := token; aj_user_id := userId;
                 aj_name := (su_firstName data ++ " " ++ su_lastName data)%string;
                 aj_email := su_email data; aj_phone := su_phone data;
                 aj_authMethod := "email";
                 aj_isAdmin := isAdminEmail env (su_email data) |}
       end)
    400.

(** ** E-mail sign-in (auth.js 1749-1771, 1832-1870) *)

(** The two checks of [verifyPassword] that are cryptography or encoding:
    the PBKDF2 comparison of a [pbkdf2$...] hash, and [btoa]. *)
Record PasswordCheck := {
  pbkdf2_matches : string -> string -> bool;
  btoa : string -> string }.

Definition verifyPassword (check : PasswordCheck) (password : string)
  (hash : option string) : bool :=
  match nonempty hash with
  | None => false
  | Some hash =>
      if String.prefix "pbkdf2$" hash then pbkdf2_matches check password hash
      else String.eqb hash ("hash_" ++ btoa check password)%string
  end.

Record SignInRequest := {
  si_email : string;
  si_password : string }.

Definition handleEmailSignIn (env : Env) (check : PasswordCheck)
  (data : SignInRequest) : M (Response (Body AuthJson)) :=
  try_catch
    (if is_empty (si_email data) || is_empty (si_password data)
     then throw "Email and password required"
     else
       let* user :=
         query (fun d => find (fun u => String.eqb (u_email u) (si_email data))
                              (users d)) in
       match user with
       | None => throw "User not found"
       | Some user =>
           if negb (verifyPassword check (si_password data) (u_password_hash user))
           then throw "Invalid password"
           else
             let token := generateToken env (u_id user) in
             let expiresAt := now env + 7 * 24 * 60 * 60 in
             run (set_auth_sessions (fun ss => ss ++
               [{| s_user_id := u_id user; s_token := token;
                   s_expires_at := expiresAt |}]));;
             let* fullUser :=
               query (fun d => find (fun u => u_id u =? u_id user) (users d)) in
             match fullUser with
             | None => throw "Cannot read properties of null (reading 'phone')"
             | Some fullUser =>
                 ok {| aj_token := token; aj_user_id := u_id user;
                       aj_name :=
                         (u_first_name user ++ " " ++ u_last_name user)%string;
                       aj_email := si_email data;
                       aj_phone := u_phone fullUser;
                       aj_authMethod := u_auth_method fullUser;
                       aj_isAdmin := isAdminEmail env (si_email data) |}
             end
       end)
    400.

(** ** The administration of trips (auth.js 2450-2454, 2572-2647) *)

Definition set_trip_schedules (f : list Trip -> list Trip) (d : DB) : DB :=
  {| routes := routes d; buses := buses d;
     trip_schedules := f (trip_schedules d); passengers := passengers d;
     bookings := bookings d; seat_locks := seat_locks d;
     booking_receipts := booking_receipts d; users := users d;
     auth_sessions := auth_sessions d |}.

Definition requireAdminUser (env : Env) (token : option string) : M User :=
  let* user := getSessionUser env token in
  if negb (isAdminEmail env (u_email user)) then throw "Forbidden"
  else ret user.

(** [text.includes(part)]. *)
Fixpoint str_includes (part text : string) : bool :=
  String.prefix part text
  || match text with
     | EmptyString => false
     | String _ rest => str_includes part rest
     end.

(** The [catch] of the trip handlers: 403 when the text of the error holds
    [Forbidden], else 400. *)
Definition try_catch_admin {A} (m : M (Response (Body A)))
  : M (Response (Body A)) :=
  fun w =>
    match m w with
    | (Ret r, w') => (Ret r, w')
    | (Throw e, w') =>
        (Ret {| status :=
                  if str_includes "Forbidden" (String_of_error e) then 403 else 400;
                body := ErrorJson (String_of_error e) |}, w')
    end.

Record CreateTripRequest := {
  ct_routeId : option Z;
  ct_busId : option Z;
  ct_departureDate : option string;
  ct_departureTime : option string;
  ct_price : option Q }.          (* [Number(price)] when it is finite *)

Record CreateTripJson := {
  ctj_tripId : Z;
  ctj_routeId : Z;
  ctj_busId : Z;
  ctj_departureDate : option string;
  ctj_departureTime : option string;
  ctj_price : Q;
  ctj_status : string }.

(** [UPDATE buses SET route_id = ?, available_seats = ?, price = ? WHERE id = ?]. *)
Definition assign_bus (busId routeId seats : Z) (price : Q) : M unit :=
  run (set_buses (map (fun b =>
    if bus_id b =? busId then
      {| bus_id := bus_id b; bus_route_id := Some routeId;
         bus_name := bus_name b; bus_capacity := bus_capacity b;
         bus_available_seats := seats; bus_price := price |}
    else b))).

(** The trip row holds the columns that the worker reads back: its id, its
    route, its bus and its status. *)
Definition insert_trip (routeId busId : Z) : M Z :=
  sql (fun d =>
    let id := next_id (map t_id (trip_schedules d)) in
    (id, set_trip_schedules (fun ts => ts ++
       [{| t_id := id; t_route_id := routeId; t_bus_id := busId;
           t_status := "active" |}]) d)).

Definition handleAdminCreateTrip (env : Env) (token : option string)
  (data : CreateTripRequest) : M (Response (Body CreateTripJson)) :=
  try_catch_admin
    (requireAdminUser env token;;
     match truthy (ct_routeId data), truthy (ct_busId data) with
     | Some routeId, Some busId =>
         let* route :=
           query (fun d => find (fun r => r_id r =? routeId) (routes d)) in
         match route with
         | None => throw "Route not found"
         | Some _ =>
             let* bus :=
               query (fun d => find (fun b => bus_id b =? busId) (buses d)) in
             match bus with
             | None => throw "Bus not found"
             | Some bus =>
                 let* activeOnBus :=
                   query (fun d =>
                     find (fun r => (t_bus_id r =? busId)
                                    && String.eqb (t_status r) "active")
                          (trip_schedules d)) in
                 match activeOnBus with
                 | Some _ => throw "Bus already assigned to an active trip"
                 | None =>
                     let safePrice :=
                       match ct_price data with
                       | Some p => p
                       | None => bus_price bus
                       end in
                     let* tripId := insert_trip routeId busId in
                     assign_bus busId routeId (bus_capacity bus) safePrice;;
                     ok {| ctj_tripId := tripId; ctj_routeId := routeId;
                           ctj_busId := busId;
                           ctj_departureDate := nonempty (ct_departureDate data);
                           ctj_departureTime := nonempty (ct_departureTime data);
                           ctj_price := safePrice; ctj_status := "active" |}
                 end
             end
         end
     | _, _ => throw "Route and bus are required"
     end).

Record EndTripJson := {
  et_tripId : Z;
  et_status : string;
  et_busId : Z;
  et_availableSeats : Z }.

(** [UPDATE trip_schedules SET status = 'completed', ... WHERE id = ?]. *)
Definition complete_trip (tripId : Z) : M unit :=
  run (set_trip_schedules (map (fun r =>
    if t_id r =? tripId then
      {| t_id := t_id r; t_route_id := t_route_id r; t_bus_id := t_bus_id r;
         t_status := "completed" |}
    else r))).

(** [DELETE FROM seat_locks WHERE trip_id = ?]. *)
Definition delete_trip_locks (tripId : Z) : M unit :=
  run (set_seat_locks (filter (fun l =>
    negb (eqb_opt (l_trip_id l) (Some tripId))))).

(** [tripId] is [Number(match[1])] of the path, [match[1]] being digits. *)
Definition handleAdminEndTrip (env : Env) (token : option string) (tripId : Z)
  : M (Response (Body EndTripJson)) :=
  try_catch_admin
    (requireAdminUser env token;;
     if tripId =? 0 then throw "Trip ID required"
     else
       let* trip :=
         query (fun d => find (fun r => t_id r =? tripId) (trip_schedules d)) in
       match trip with
       | None => throw "Trip not found"
       | Some trip =>
           if negb (String.eqb (t_status trip) "active")
           then throw "Trip is not active"
           else
             let* bus :=
               query (fun d => find (fun b => bus_id b =? t_bus_id trip)
                                    (buses d)) in
             let capacity :=
               match bus with Some b => bus_capacity b | None => 0 end in
             complete_trip tripId;;
             update_available_seats (t_bus_id trip) capacity;;
             delete_trip_locks tripId;;
             ok {| et_tripId := tripId; et_status := "completed";
                   et_busId := t_bus_id trip; et_availableSeats := capacity |}
       end).

(** ** Vocabulary of the specification *)

(** A canonical seat of a bus of [capacity] seats: the decimal string of a
    number from 1 to the capacity. *)
Definition canonical_seat (capacity : Z) (k : string) : Prop :=
  exists n, 1 <= n <= capacity_or_50 capacity /\ k = Js.String_of n.

(** The integers from [lo], [len] of them. *)
Definition Z_range (lo : Z) (len : nat) : list Z :=
  map (fun i => lo + Z.of_nat i) (seq 0 len).

(** The seats of the rows A to K and M to Z of the legacy layout, ten a row. *)
Definition unshadowed_seats : list Z := Z_range 1 110 ++ Z_range 121 140.


(** What the dispatcher [fetch] (auth.js 639-788) returns for a handler: its
    own [catch] turns a throw that escapes the handler into status 500. *)
Definition respond {A} (m : M (Response (Body A))) (w : World)
  : Response (Body A) * World :=
  match m w with
  | (Ret r, w') => (r, w')
  | (Throw e, w') =>
      ({| status := 500; body := ErrorJson (String_of_error e) |}, w')
  end.

Definition is_error {A} (r : Response (Body A)) : Prop :=
  exists e, body r = ErrorJson e.




(** The row belongs to the trip the handler resolved: with a trip, its
    [trip_id] is that trip; without one, the handler reads every row of the
    bus. *)
Definition trip_matches (tripKey : option Z) (row_trip : option Z) : Prop :=
  match tripKey with
  | Some t => row_trip = Some t
  | None => True
  end.

(** Seat [k] has a confirmed booking on the bus and trip. *)
Definition booked_seat (d : DB) (busId : Z) (tripKey : option Z) (capacity : Z)
  (k : string) : Prop :=
  exists b, In b (bookings d)
            /\ b_bus_id b = busId /\ trip_matches tripKey (b_trip_id b)
            /\ b_status b = "confirmed"
            /\ normalizeSeatNumberRaw (Some (b_seat_number b)) capacity = Some k.

(** Lock [l] is an unexpired lock of seat [k] on the bus and trip. *)
Definition lock_of_seat (env : Env) (d : DB) (busId : Z) (tripKey : option Z)
  (capacity : Z) (k : string) (l : SeatLock) : Prop :=
  In l (seat_locks d)
  /\ l_bus_id l = busId /\ trip_matches tripKey (l_trip_id l)
  /\ now env < l_expires_at l
  /\ normalizeSeatNumberRaw (Some (l_seat_number l)) capacity = Some k.


(** The decimal strings of a strictly increasing list of seats of the bus. *)
Definition ascending_seats (capacity : Z) (l : list string) : Prop :=
  exists ns, l = map Js.String_of ns
             /\ StronglySorted Z.lt ns
             /\ Forall (fun n => 1 <= n <= capacity) ns.

Definition le_number (a b : string) : Prop := number_or_0 a <= number_or_0 b.






(** A handler part answers values that satisfy [Q] when it returns. *)
Definition yields {A} (Q : A -> Prop) (m : M A) : Prop :=
  forall w a w', m w = (Ret a, w') -> Q a.


(** The payload of the conditional insert for the canonical seat [n]. *)
Definition seat_payload (passenger bus : Z) (trip : option Z) (n : Z) (paid : Q)
  (ref : string) : BookingPayload :=
  {| passengerId := passenger; busId := bus; tripId := trip;
     seatNumber := Js.String_of n;
     legacySeatNumber := Some (legacy_or_self (Js.String_of n));
     pricePaid := paid; externalRef := ref |}.


(** Seat [k] has a confirmed booking on the bus and trip, under its
    canonical or its legacy key: the conditional insert of [k] is refused. *)
Definition seat_taken (d : DB) (bus : Z) (tripKey : option Z) (k : string)
  : Prop :=
  exists b, In b (bookings d)
            /\ b_bus_id b = bus
            /\ COALESCE (b_trip_id b) (-1) = COALESCE tripKey (-1)
            /\ b_status b = "confirmed"
            /\ (b_seat_number b = k \/ b_seat_number b = legacy_or_self k).

(** The request gets as far as the insertion of its seats: it is valid, its
    reference has no bookings, the payment is verified and every seat is
    locked by its session. *)
Definition reaches_insertion (env : Env) (data : ConfirmRequest) (w : World)
  (trip : option Trip) (seatKeys : list string) : Prop :=
  exists capacity w1 locks,
    confirm_validate data w = (Ret (trip, capacity, seatKeys), w)
    /\ existing_rows (c_paystackRef data) (db w) = []
    /\ confirm_verify env data w = (Ret tt, w1)
    /\ owned_locks env (c_busId data) (trip_key trip) (c_lockId data)
         capacity seatKeys w1 = (Ret locks, w1).

(** The tables of bookings and passengers are the same in both worlds. *)
Definition same_tables (w w' : World) : Prop :=
  bookings (db w') = bookings (db w) /\ passengers (db w') = passengers (db w).

(** A handler part that, when it throws, leaves the bookings and the
    passengers as it found them. *)
Definition restores {A} (m : M A) : Prop :=
  forall w e w', m w = (Throw e, w') -> same_tables w w'.

(** The answer carries a JSON value, not an error. *)
Definition is_json {A} (r : Response (Body A)) : Prop :=
  exists a, body r = Json a.

(** ** Vocabulary of the seat locks *)

(** The capacity [getBusCapacity] reads for a bus. *)
Definition capacity_of (d : DB) (bus : Z) : option Z :=
  option_map (fun b => if bus_capacity b >? 0 then bus_capacity b else 50)
             (find (fun b => bus_id b =? bus) (buses d)).

(** The canonical seat a lock row holds, on the capacity of its bus. *)
Definition seat_of_lock (d : DB) (l : SeatLock) : option string :=
  match capacity_of d (l_bus_id l) with
  | Some c => normalizeSeatNumberRaw (Some (l_seat_number l)) c
  | None => None
  end.

(** The state of the locks: the ids are unique; two unexpired locks of the
    same bus, trip and canonical seat are the same row; the trips have
    positive ids; and a lock with a trip names an active trip of its bus. *)
Definition locks_wf (now : Z) (d : DB) : Prop :=
  NoDup (map l_id (seat_locks d))
  /\ (forall l1 l2 k,
        In l1 (seat_locks d) -> In l2 (seat_locks d) ->
        l_bus_id l1 = l_bus_id l2 -> l_trip_id l1 = l_trip_id l2 ->
        now < l_expires_at l1 -> now < l_expires_at l2 ->
        seat_of_lock d l1 = Some k -> seat_of_lock d l2 = Some k ->
        l1 = l2)
  /\ (forall t, In t (trip_schedules d) -> 0 < t_id t)
  /\ (forall l t, In l (seat_locks d) -> l_trip_id l = Some t ->
        exists trip, In trip (trip_schedules d) /\ t_id trip = t
                     /\ t_bus_id trip = l_bus_id l /\ t_status trip = "active").

(** The request resolves: its trip, the capacity of its bus, its seat. *)
Definition lock_request_resolves (w : World) (busId : Z) (seat : option string)
  (tripId : option Z) (trip : option Trip) (capacity : Z) (seatKey : string)
  : Prop :=
  resolveTripForBus busId (truthy tripId) w = (Ret trip, w)
  /\ getBusCapacity busId w = (Ret capacity, w)
  /\ normalizeSeatNumberRaw seat capacity = Some seatKey.

(** Lock [l] is an unexpired lock of the seat on the bus and trip. *)
Definition holds_seat (env : Env) (d : DB) (busId : Z) (tripKey : option Z)
  (seatKey : string) (l : SeatLock) : Prop :=
  In l (seat_locks d)
  /\ l_bus_id l = busId /\ l_trip_id l = tripKey
  /\ now env < l_expires_at l
  /\ seat_of_lock d l = Some seatKey.

(** The two statements that clear the way for a lock request. *)
Definition locks_after_cleanup (env : Env) (busId : Z) (tripKey : option Z)
  (seatKey : string) (ls : list SeatLock) : list SeatLock :=
  let legacySeat := legacy_or_self seatKey in
  let ls1 := delete_expired_locks env busId seatKey legacySeat ls in
  match tripKey with
  | Some t => delete_other_trip_locks busId seatKey legacySeat t ls1
  | None => ls1
  end.

Definition with_locks (w : World) (ls : list SeatLock) : World :=
  {| db := set_seat_locks (fun _ => ls) (db w); outbox := outbox w |}.

Definition lock_error (message : string) : Response (Body LockJson) :=
  {| status := 400; body := ErrorJson (String_of_error message) |}.

(** The world after has the trips and the capacities of the world before,
    and of its locks those that a deletion left. *)
Definition only_deletes_locks (w w' : World) : Prop :=
  trip_schedules (db w') = trip_schedules (db w)
  /\ (forall bus, capacity_of (db w') bus = capacity_of (db w) bus)
  /\ exists p, seat_locks (db w') = filter p (seat_locks (db w)).


(** Booking [b'] is booking [b], but for its status, which is the status of
    [b] or [confirmed]. *)
Definition status_only (b b' : Booking) : Prop :=
  b_id b' = b_id b /\ b_passenger_id b' = b_passenger_id b
  /\ b_bus_id b' = b_bus_id b /\ b_trip_id b' = b_trip_id b
  /\ b_seat_number b' = b_seat_number b /\ b_price_paid b' = b_price_paid b
  /\ b_external_ref b' = b_external_ref b
  /\ (b_status b' = b_status b \/ b_status b' = "confirmed").

Definition is_sms (o : Outbound) : bool :=
  match o with SmsSent _ _ => true | _ => false end.

Definition is_receipt_post (o : Outbound) : bool :=
  match o with GasPosted _ => true | _ => false end.

(** The tables that the webhook never writes. *)
Definition same_but_bookings_and_receipts (w w' : World) : Prop :=
  routes (db w') = routes (db w) /\ buses (db w') = buses (db w)
  /\ trip_schedules (db w') = trip_schedules (db w)
  /\ passengers (db w') = passengers (db w)
  /\ seat_locks (db w') = seat_locks (db w)
  /\ users (db w') = users (db w)
  /\ auth_sessions (db w') = auth_sessions (db w).

(** A sign-up request with all its fields. *)
Definition complete_sign_up (data : SignUpRequest) : Prop :=
  su_firstName data <> "" /\ su_lastName data <> "" /\ su_email data <> ""
  /\ su_phone data <> "" /\ su_password data <> "".

(** The user row that a sign-up creates. *)
Definition signed_up_user (env : Env) (data : SignUpRequest) (w : World) : User :=
  {| u_id := next_id (map u_id (users (db w))); u_email := su_email data;
     u_first_name := su_firstName data; u_last_name := su_lastName data;
     u_phone := su_phone data;
     u_password_hash := Some (hashPassword env (su_password data));
     u_auth_method := "email" |}.

(** The ids and the e-mail addresses of the users are unique. *)
Definition users_unique (d : DB) : Prop :=
  NoDup (map u_id (users d)) /\ NoDup (map u_email (users d)).

(** The user of the session of a token, when the token is valid. *)
Definition session_of (env : Env) (w : World) (token : option string)
  : option User :=
  match getSessionUser env token w with
  | (Ret user, _) => Some user
  | (Throw _, _) => None
  end.

(** The token is the token of a session of an administrator. *)
Definition admin_session (env : Env) (w : World) (token : option string) : bool :=
  match session_of env w token with
  | Some user => isAdminEmail env (u_email user)
  | None => false
  end.

(** The ids of the trips are unique and positive, and a bus has at most one
    active trip. *)
Definition trips_wf (d : DB) : Prop :=
  NoDup (map t_id (trip_schedules d))
  /\ (forall r, In r (trip_schedules d) -> 0 < t_id r)
  /\ (forall r1 r2, In r1 (trip_schedules d) -> In r2 (trip_schedules d) ->
        t_status r1 = "active" -> t_status r2 = "active" ->
        t_bus_id r1 = t_bus_id r2 -> r1 = r2).

(** Booking [b] is a confirmed booking of the request, for the passenger, on
    the bus and trip of the request, under the reference of the payment:
    the reference itself when the request has one seat, the reference, a
    colon and the seat otherwise. *)
Definition booking_of_request (data : ConfirmRequest) (tripKey : option Z)
  (single : bool) (passenger : Z) (b : Booking) : Prop :=
  b_passenger_id b = passenger
  /\ b_bus_id b = c_busId data
  /\ b_trip_id b = tripKey
  /\ b_status b = "confirmed"
  /\ b_external_ref b
     = Some (if single then c_paystackRef data
             else (c_paystackRef data ++ ":" ++ b_seat_number b)%string).

(** The world after has the bookings, the passengers and the locks of the
    world before. *)
Definition same_bookings_and_locks (w w' : World) : Prop :=
  bookings (db w') = bookings (db w)
  /\ passengers (db w') = passengers (db w)
  /\ seat_locks (db w') = seat_locks (db w).

(** Lock [l] is not one of the locks [owned], by its id. *)
Definition not_released (owned : list SeatLock) (l : SeatLock) : bool :=
  negb (existsb (fun o => l_id l =? l_id o) owned).

(** A handler part that never throws. *)
Definition returns {A} (m : M A) : Prop :=
  forall w, exists a w', m w = (Ret a, w').

(** A handler part whose every run, thrown or returned, relates the world
    before to the world after by [R]. *)
Definition keeps {A} (R : World -> World -> Prop) (m : M A) : Prop :=
  forall w, R w (snd (m w)).

(** ** Sample bindings and data, for the worked cases *)

Definition demo_env : Env :=
  {| PAYSTACK_SECRET_KEY := Some "sk_test";
     GAS_WEBHOOK_URL := None;
     ADMIN_EMAILS := "ops@elite.example, Admin@Elite.example";
     now := 1000;
     random_lock_id := "lock_1000_abcd1234";
     random_manual_ref := "admin_manual_1000_x1y2z3";
     generateToken := fun userId => ("tok_" ++ Js.String_of userId)%string;
     hashPassword := fun password => ("pbkdf2$120000$c2FsdA$" ++ password)%string;
     hmacSha512Hex := fun secret payload => ("5f" ++ secret ++ payload)%string;
     JSON_parse := fun raw =>
       if String.eqb raw "" then None
       else Some {| ev_event := Some "charge.success";
                    ev_reference := Some raw |};
     paystack_verify := fun reference => VerifyData "success" 5000;
     gas_service := fun payload => None |}.

Definition empty_db : DB :=
  {| routes := []; buses := []; trip_schedules := []; passengers := [];
     bookings := []; seat_locks := []; booking_receipts := []; users := [];
     auth_sessions := [] |}.


Definition demo_confirm : ConfirmRequest :=
  {| c_firstName := "Ama"; c_lastName := "Mensah";
     c_email := "ama@example.com"; c_phone := "0240000000";
     c_nokName := None; c_nokPhone := None;
     c_seat := None; c_seats := ["5"];
     c_busId := 1; c_price := Some (50 # 1); c_unitPrice := Some (50 # 1);
     c_lockId := Some "LA"; c_paystackRef := "R1"; c_tripId := None |}.


(** Bus 1 runs without a scheduled trip, bus 2 on the active trip 3.  Seat
    38 of bus 1 is sold under its legacy key, seat 5 is held by session LA
    until 1200; on trip 3, seat 7 is sold and seat 9 is held by session LB. *)
Definition demo_db : DB :=
  {| routes := [{| r_id := 1; r_name := "Accra - Kumasi" |}];
     buses :=
       [{| bus_id := 1; bus_route_id := Some 1; bus_name := "Elite 01";
           bus_capacity := 50; bus_available_seats := 50; bus_price := 50 # 1 |};
        {| bus_id := 2; bus_route_id := Some 1; bus_name := "Elite 02";
           bus_capacity := 30; bus_available_seats := 29; bus_price := 60 # 1 |}];
     trip_schedules :=
       [{| t_id := 3; t_route_id := 1; t_bus_id := 2; t_status := "active" |}];
     passengers :=
       [{| p_id := 1; p_first_name := "Kofi"; p_last_name := "Boateng";
           p_email := "kofi@example.com"; p_phone := "0201111111";
           p_nok_name := None; p_nok_phone := None |}];
     bookings :=
       [{| b_id := 1; b_passenger_id := 1; b_bus_id := 1; b_trip_id := None;
           b_seat_number := "D8"; b_price_paid := 50 # 1;
           b_status := "confirmed"; b_external_ref := Some "R0" |};
        {| b_id := 2; b_passenger_id := 1; b_bus_id := 2; b_trip_id := Some 3;
           b_seat_number := "7"; b_price_paid := 60 # 1;
           b_status := "confirmed"; b_external_ref := Some "R7" |}];
     seat_locks :=
       [{| l_id := 1; l_bus_id := 1; l_trip_id := None; l_seat_number := "5";
           l_locked_by := Some "LA"; l_expires_at := 1200 |};
        {| l_id := 2; l_bus_id := 2; l_trip_id := Some 3; l_seat_number := "9";
           l_locked_by := Some "LB"; l_expires_at := 1250 |}];
     booking_receipts := [];
     users :=
       [{| u_id := 1; u_email := "admin@elite.example"; u_first_name := "Esi";
           u_last_name := "Owusu"; u_phone := "0209999999";
           u_password_hash := None; u_auth_method := "google" |}];
     auth_sessions :=
       [{| s_user_id := 1; s_token := "tok_admin"; s_expires_at := 5000 |}] |}.

Definition demo_world : World := {| db := demo_db; outbox := [] |}.


(** The world after [demo_confirm] has been answered once. *)
Definition after_first_confirm : World :=
  snd (respond (handleBookingConfirm demo_env demo_confirm) demo_world).

(** The booking that [demo_confirm] creates. *)
Definition demo_booking_3 : Booking :=
  {| b_id := 3; b_passenger_id := 2; b_bus_id := 1; b_trip_id := None;
     b_seat_number := "5"; b_price_paid := 50 # 1;
     b_status := "confirmed"; b_external_ref := Some "R1" |}.


(** A state only a race can leave: session LA holds seats 5 and 38 of bus 1
    while seat 38 is already sold (under its legacy key D8). *)
Definition demo_race_world : World :=
  {| db := set_seat_locks (fun ls => ls ++
             [{| l_id := 3; l_bus_id := 1; l_trip_id := None;
                 l_seat_number := "38"; l_locked_by := Some "LA";
                 l_expires_at := 1200 |}]) demo_db;
     outbox := [] |}.

(** Session LA pays for seats 5 and 38 of bus 1 with the reference R2. *)
Definition demo_two_seats : ConfirmRequest :=
  {| c_firstName := "Ama"; c_lastName := "Mensah";
     c_email := "ama@example.com"; c_phone := "0240000000";
     c_nokName := None; c_nokPhone := None;
     c_seat := None; c_seats := ["5"; "38"];
     c_busId := 1; c_price := Some (50 # 1); c_unitPrice := None;
     c_lockId := Some "LA"; c_paystackRef := "R2"; c_tripId := None |}.

(** The sample world with the receipt of booking 1 stored. *)
Definition demo_receipt_world : World :=
  {| db := set_booking_receipts
             (fun _ => [{| rc_booking_id := 1; rc_receipt_url := "https://r/1";
                           rc_drive_file_id := None |}]) demo_db;
     outbox := [] |}.

(** A password check that agrees with [hashPassword] of [demo_env]. *)
Definition demo_check : PasswordCheck :=
  {| pbkdf2_matches := fun password hash =>
       String.eqb hash ("pbkdf2$120000$c2FsdA$" ++ password)%string;
     btoa := fun s => s |}.

Definition demo_sign_up : SignUpRequest :=
  {| su_firstName := "Ama"; su_lastName := "Mensah";
     su_email := "ama@example.com"; su_phone := "0240000000";
     su_password := "secret1" |}.

(* ================================================================== *)
(** * Properties *)

#[global] Arguments normalizeSeatNumberRaw : simpl never.
#[global] Arguments canonicalSeatToLegacy : simpl never.
#[global] Arguments legacy_or_self : simpl never.

(** ** Worked values of the seat key normaliser *)

Example normalize_38 : normalizeSeatNumberRaw (Some "038") 50 = Some "38".
Proof. reflexivity. Qed.

Example normalize_L38 : normalizeSeatNumberRaw (Some " l38 ") 50 = Some "38".
Proof. reflexivity. Qed.

Example normalize_D8 : normalizeSeatNumberRaw (Some "d08") 50 = Some "38".
Proof. reflexivity. Qed.

Example normalize_A100 : normalizeSeatNumberRaw (Some "A100") 200 = None.
Proof. reflexivity. Qed.

Example normalize_out_of_range : normalizeSeatNumberRaw (Some "51") 0 = None.
Proof. reflexivity. Qed.

Example legacy_38 : canonicalSeatToLegacy "38" = Some "D8".
Proof. reflexivity. Qed.

Example unique_list_dedups :
  uniqueNormalizedSeatList ["D8"; "7"; "038"; "A7"; "L38"; "zz"; "12"] 50
  = ["7"; "12"; "38"].
Proof. reflexivity. Qed.

(** ** Decimal strings *)

Section Decimal.

Lemma all_digits_string_of_uint d :
  Js.all_digits (NilEmpty.string_of_uint d) = true.
Proof. induction d; simpl; auto. Qed.

Lemma unorm_to_uint p : Decimal.unorm (Pos.to_uint p) = Pos.to_uint p.
Proof.
  rewrite <- DecimalPos.Unsigned.to_of.
  now rewrite DecimalPos.Unsigned.of_to.
Qed.

Lemma String_of_pos p :
  Js.String_of (Zpos p) = NilEmpty.string_of_uint (Pos.to_uint p).
Proof.
  unfold Js.String_of; simpl.
  pose proof (DecimalPos.Unsigned.to_uint_nonnil p) as H.
  destruct (Pos.to_uint p); simpl; try reflexivity. now destruct H.
Qed.

Lemma Number_of_String_of n : 0 <= n -> Js.Number_of (Js.String_of n) = Some n.
Proof.
  intros Hn. destruct n as [|p|p]; try lia; [reflexivity|].
  rewrite String_of_pos. unfold Js.Number_of.
  pose proof (DecimalPos.Unsigned.to_uint_nonnil p) as Hnil.
  assert (E : NilZero.uint_of_string (NilEmpty.string_of_uint (Pos.to_uint p))
              = Some (Pos.to_uint p)).
  { pose proof (NilZero.usu (Pos.to_uint p) Hnil) as U.
    destruct (Pos.to_uint p); try (now destruct Hnil); exact U. }
  rewrite E. simpl. unfold Z.of_uint.
  now rewrite DecimalPos.Unsigned.of_to.
Qed.

Lemma String_of_inj n m :
  0 <= n -> 0 <= m -> Js.String_of n = Js.String_of m -> n = m.
Proof.
  intros Hn Hm E.
  apply (f_equal Js.Number_of) in E.
  rewrite !Number_of_String_of in E by assumption. congruence.
Qed.

Lemma number_or_0_String_of n : 0 <= n -> number_or_0 (Js.String_of n) = n.
Proof. intros; unfold number_or_0; now rewrite Number_of_String_of. Qed.

(** A canonical seat starts with a digit from 1 to 9 and holds digits only. *)
Lemma String_of_pos_shape p :
  exists c r, Js.String_of (Zpos p) = String c r
              /\ Js.is_digit c = true /\ c <> "0"%char
              /\ Js.all_digits r = true.
Proof.
  rewrite String_of_pos.
  pose proof (unorm_to_uint p) as U.
  pose proof (DecimalPos.Unsigned.to_uint_nonzero p) as NZ.
  pose proof (all_digits_string_of_uint (Pos.to_uint p)) as AD.
  destruct (Pos.to_uint p) as [|d|d|d|d|d|d|d|d|d|d]; simpl in *.
  - now destruct NZ.
  - exfalso. unfold Decimal.unorm in U. simpl in U.
    destruct (Decimal.nzhead d) eqn:E; try discriminate.
    + apply NZ. congruence.
    + apply (DecimalFacts.nzhead_nonzero d d). congruence.
  - eexists _, _; repeat split; try reflexivity; try discriminate; exact AD.
  - eexists _, _; repeat split; try reflexivity; try discriminate; exact AD.
  - eexists _, _; repeat split; try reflexivity; try discriminate; exact AD.
  - eexists _, _; repeat split; try reflexivity; try discriminate; exact AD.
  - eexists _, _; repeat split; try reflexivity; try discriminate; exact AD.
  - eexists _, _; repeat split; try reflexivity; try discriminate; exact AD.
  - eexists _, _; repeat split; try reflexivity; try discriminate; exact AD.
  - eexists _, _; repeat split; try reflexivity; try discriminate; exact AD.
  - eexists _, _; repeat split; try reflexivity; try discriminate; exact AD.
Qed.

End Decimal.

(** ** Rules for handlers *)

Section HandlerRules.

Context {A B : Type}.

Lemma returns_ret (a : A) : returns (ret a).
Proof. intros w. unfold ret. eauto. Qed.

Lemma returns_query (f : DB -> A) : returns (query f).
Proof. intros w. unfold query. eauto. Qed.

Lemma returns_sql (f : DB -> A * DB) : returns (sql f).
Proof. intros w. unfold sql. destruct (f (db w)). eauto. Qed.

Lemma returns_bind (m : M A) (k : A -> M B) :
  returns m -> (forall a, returns (k a)) -> returns (bind m k).
Proof.
  intros Hm Hk w. unfold bind.
  destruct (Hm w) as (a & w1 & ->). apply Hk.
Qed.

Lemma keeps_ret (R : World -> World -> Prop) (a : A) :
  (forall w, R w w) -> keeps R (ret a).
Proof. intros Hr w. apply Hr. Qed.

Lemma keeps_throw (R : World -> World -> Prop) (e : string) :
  (forall w, R w w) -> keeps R (@throw A e).
Proof. intros Hr w. apply Hr. Qed.

Lemma keeps_query (R : World -> World -> Prop) (f : DB -> A) :
  (forall w, R w w) -> keeps R (query f).
Proof. intros Hr w. apply Hr. Qed.

Lemma keeps_bind (R : World -> World -> Prop) (m : M A) (k : A -> M B) :
  (forall w1 w2 w3, R w1 w2 -> R w2 w3 -> R w1 w3) ->
  keeps R m -> (forall a, keeps R (k a)) -> keeps R (bind m k).
Proof.
  intros Ht Hm Hk w. unfold bind.
  specialize (Hm w). destruct (m w) as [[a|e] w1]; simpl in *.
  - eapply Ht; [exact Hm|apply Hk].
  - exact Hm.
Qed.

End HandlerRules.

Lemma returns_run (f : DB -> DB) : returns (run f).
Proof. intros w. unfold run. eauto. Qed.

Lemma returns_send (o : Outbound) : returns (send o).
Proof. intros w. unfold send. eauto. Qed.

Lemma keeps_try_catch {A} (R : World -> World -> Prop)
  (m : M (Response (Body A))) (st : Z) :
  keeps R m -> keeps R (try_catch m st).
Proof.
  intros Hm w. unfold try_catch. specialize (Hm w).
  destruct (m w) as [[r|e] w1]; exact Hm.
Qed.

(** Splits a goal [returns m] along the structure of [m]. *)
Ltac returns_auto :=
  repeat first
    [ apply returns_ret | apply returns_query | apply returns_sql
    | apply returns_run | apply returns_send
    | apply returns_bind; [|intros ?]
    | match goal with
      | |- returns (match ?x with _ => _ end) => destruct x
      | |- returns (if ?b then _ else _) => destruct b
      end ].

(** ** The seat key normaliser *)

Section Normaliser.

Lemma trimEnd_digits s : Js.all_digits s = true -> Js.trimEnd s = s.
Proof.
  induction s as [|c r IH]; simpl; [reflexivity|].
  intros H. apply andb_prop in H as [Hc Hr].
  rewrite (IH Hr). destruct r; [|reflexivity].
  replace (Js.is_space c) with false; [reflexivity|].
  unfold Js.is_digit, Js.is_space in *. lia.
Qed.

Lemma trim_digits c r :
  Js.is_digit c = true -> Js.all_digits r = true ->
  Js.trim (String c r) = String c r.
Proof.
  intros Hc Hr. unfold Js.trim. simpl.
  replace (Js.is_space c) with false
    by (unfold Js.is_digit, Js.is_space in *; lia).
  apply trimEnd_digits. simpl. now rewrite Hc, Hr.
Qed.

Lemma upper_char_digit c : Js.is_digit c = true -> Js.upper_char c = c.
Proof.
  intros H. unfold Js.upper_char.
  replace (Js.is_lower c) with false; [reflexivity|].
  unfold Js.is_digit, Js.is_lower in *. lia.
Qed.

Lemma toUpperCase_digits s : Js.all_digits s = true -> Js.toUpperCase s = s.
Proof.
  induction s as [|c r IH]; simpl; [reflexivity|].
  intros H. apply andb_prop in H as [Hc Hr].
  now rewrite (upper_char_digit c Hc), (IH Hr).
Qed.

Lemma digit_not_L c : Js.is_digit c = true -> c <> "L"%char.
Proof. intros H ->. vm_compute in H. discriminate. Qed.

Lemma match_numeric_canonical c r :
  Js.is_digit c = true -> c <> "0"%char -> Js.all_digits r = true ->
  match_numeric (String c r) = Some (String c r).
Proof.
  intros Hc H0 Hr. unfold match_numeric.
  assert (B : match String c r with
              | String "L"%char r0 => r0
              | _ => String c r
              end = String c r).
  { pose proof (digit_not_L c Hc) as HL.
    destruct c as [[|] [|] [|] [|] [|] [|] [|] [|]]; try reflexivity.
    now destruct HL. }
  rewrite B. simpl Js.all_digits. rewrite Hc, Hr. simpl.
  destruct c as [[|] [|] [|] [|] [|] [|] [|] [|]]; try reflexivity.
  now destruct H0.
Qed.

(** The normaliser answers canonical seats only. *)
Lemma normalize_canonical v capacity k :
  normalizeSeatNumberRaw v capacity = Some k -> canonical_seat capacity k.
Proof.
  unfold normalizeSeatNumberRaw, canonical_seat.
  destruct v as [v|]; [|discriminate].
  destruct (Js.toUpperCase (Js.trim v)) as [|c r]; [discriminate|].
  destruct (match_numeric (String c r)) as [digits|].
  - destruct (Js.Number_of digits) as [n|]; [|discriminate].
    destruct ((n <? 1) || (n >? capacity_or_50 capacity)) eqn:E; [discriminate|].
    intros [= <-]. exists n. split; [lia|reflexivity].
  - destruct (match_legacy (String c r)) as [[letter digits]|]; [|discriminate].
    destruct (Js.Number_of digits) as [col|]; [|discriminate].
    destruct ((Js.code letter - 65 <? 0) || (col <? 1) || (col >? 10));
      [discriminate|].
    cbv zeta.
    destruct ((_ <? 1) || (_ >? capacity_or_50 capacity)) eqn:E; [discriminate|].
    intros [= <-]. eexists. split; [|reflexivity]. lia.
Qed.

(** A canonical seat is its own normal form. *)
Lemma normalize_String_of capacity n :
  1 <= n <= capacity_or_50 capacity ->
  normalizeSeatNumberRaw (Some (Js.String_of n)) capacity = Some (Js.String_of n).
Proof.
  intros Hn. destruct n as [|p|p]; try lia.
  destruct (String_of_pos_shape p) as (c & r & E & Hc & H0 & Hr).
  unfold normalizeSeatNumberRaw.
  rewrite E, (trim_digits c r Hc Hr).
  rewrite toUpperCase_digits by (simpl; now rewrite Hc, Hr).
  rewrite (match_numeric_canonical c r Hc H0 Hr).
  rewrite <- E, Number_of_String_of by lia.
  replace ((Z.pos p <? 1) || (Z.pos p >? capacity_or_50 capacity)) with false
    by lia.
  reflexivity.
Qed.

Lemma normalize_idempotent v capacity k :
  normalizeSeatNumberRaw v capacity = Some k ->
  normalizeSeatNumberRaw (Some k) capacity = Some k.
Proof.
  intros H. apply normalize_canonical in H as (n & Hn & ->).
  now apply normalize_String_of.
Qed.

(** The capacity enters the normaliser through the final range test only. *)
Lemma normalize_change_capacity v c1 c2 n :
  normalizeSeatNumberRaw v c1 = Some (Js.String_of n) -> 0 <= n ->
  n <= capacity_or_50 c2 ->
  normalizeSeatNumberRaw v c2 = Some (Js.String_of n).
Proof.
  unfold normalizeSeatNumberRaw.
  destruct v as [v|]; [|discriminate].
  destruct (Js.toUpperCase (Js.trim v)) as [|c r]; [discriminate|].
  destruct (match_numeric (String c r)) as [digits|].
  - destruct (Js.Number_of digits) as [m|]; [|discriminate].
    destruct ((m <? 1) || (m >? capacity_or_50 c1)) eqn:E; [discriminate|].
    intros [= Em] Hn Hc. apply String_of_inj in Em; try lia. subst m.
    replace ((n <? 1) || (n >? capacity_or_50 c2)) with false by lia.
    reflexivity.
  - destruct (match_legacy (String c r)) as [[letter digits]|]; [|discriminate].
    destruct (Js.Number_of digits) as [col|]; [|discriminate].
    destruct ((Js.code letter - 65 <? 0) || (col <? 1) || (col >? 10));
      [discriminate|].
    cbv zeta.
    destruct ((_ <? 1) || (_ >? capacity_or_50 c1)) eqn:E; [discriminate|].
    intros [= Em] Hn Hc. apply String_of_inj in Em; try lia. rewrite Em.
    replace ((n <? 1) || (n >? capacity_or_50 c2)) with false by lia.
    reflexivity.
Qed.

End Normaliser.

(** ** Legacy keys and canonical seats *)

Section LegacyRoundTrip.

Lemma in_Z_range lo len n :
  lo <= n < lo + Z.of_nat len -> In n (Z_range lo len).
Proof.
  intros H. unfold Z_range.
  replace n with (lo + Z.of_nat (Z.to_nat (n - lo))) by lia.
  apply (in_map (fun i => lo + Z.of_nat i)), in_seq. lia.
Qed.

Lemma round_trip_at_260 :
  forallb
    (fun n =>
       eqb_opt_string
         (normalizeSeatNumberRaw (canonicalSeatToLegacy (Js.String_of n)) 260)
         (Some (Js.String_of n)))
    unshadowed_seats = true.
Proof. vm_compute. reflexivity. Qed.

Lemma eqb_opt_string_eq a b : eqb_opt_string a b = true -> a = b.
Proof.
  destruct a, b; simpl; try discriminate; try reflexivity.
  intros H. apply String.eqb_eq in H. now subst.
Qed.

End LegacyRoundTrip.

(** C7, as the specification states it, fails: the legacy key of seat 111 is
    "L1", which the normaliser reads as the tolerated spelling "L<number>" of
    seat 1. *)
Lemma legacy_round_trip_fails_at_111 :
  1 <= 111 <= 120
  /\ canonicalSeatToLegacy (Js.String_of 111) = Some "L1"
  /\ normalizeSeatNumberRaw (canonicalSeatToLegacy (Js.String_of 111)) 120
     = Some "1"
  /\ normalizeSeatNumberRaw (canonicalSeatToLegacy (Js.String_of 111)) 120
     <> Some (Js.String_of 111).
Proof.
  split; [lia|]. split; [reflexivity|]. split; [reflexivity|].
  vm_compute. discriminate.
Qed.

(** Past row Z the legacy key starts with no letter and is no seat at all. *)
Lemma legacy_round_trip_fails_at_261 :
  canonicalSeatToLegacy (Js.String_of 261) = Some "[1"
  /\ normalizeSeatNumberRaw (canonicalSeatToLegacy (Js.String_of 261)) 300 = None.
Proof. split; reflexivity. Qed.

(** C7 (amended).  For every seat [n] of a bus of [capacity] seats that lies
    in the rows A to K or M to Z of the legacy layout (1..110, 121..260),
    normalising the legacy key of [n] gives the decimal string of [n]. *)
Theorem legacy_round_trip (capacity n : Z) :
  1 <= n <= capacity ->
  n <= 110 \/ 121 <= n <= 260 ->
  normalizeSeatNumberRaw (canonicalSeatToLegacy (Js.String_of n)) capacity
  = Some (Js.String_of n).
Proof.
  intros Hn Hrow.
  assert (Hin : In n unshadowed_seats).
  { unfold unshadowed_seats. apply in_or_app.
    destruct Hrow; [left|right]; apply in_Z_range; lia. }
  pose proof round_trip_at_260 as H.
  rewrite forallb_forall in H. specialize (H n Hin).
  apply eqb_opt_string_eq in H.
  apply (normalize_change_capacity _ 260); try assumption; try lia.
  unfold capacity_or_50. destruct (capacity =? 0) eqn:E; lia.
Qed.

Lemma legacy_round_trip_witness :
  1 <= 38 <= 50 /\ (38 <= 110 \/ 121 <= 38 <= 260)
  /\ normalizeSeatNumberRaw (canonicalSeatToLegacy (Js.String_of 38)) 50
     = Some (Js.String_of 38).
Proof.
  split; [lia|]. split; [left; lia|].
  apply (legacy_round_trip 50 38); [lia | left; lia].
Defined.

(** ** E-mail sign-up *)

(** C10.  A sign-up whose password has fewer than six characters is
    answered with status 400 and an error, and leaves the users, the
    passengers and the sessions (indeed the whole database and the outbox)
    as they were. *)
Theorem short_password_rejected (env : Env) (data : SignUpRequest) (w : World) :
  Js.length (su_password data) < 6 ->
  let (r, w') := respond (handleEmailSignUp env data) w in
  status r = 400 /\ is_error r
  /\ users (db w') = users (db w)
  /\ passengers (db w') = passengers (db w)
  /\ auth_sessions (db w') = auth_sessions (db w)
  /\ w' = w.
Proof.
  intros Hlen.
  unfold respond, handleEmailSignUp, try_catch.
  destruct (is_empty (su_firstName data) || is_empty (su_lastName data)
            || is_empty (su_email data) || is_empty (su_phone data)
            || is_empty (su_password data)).
  - cbn. repeat split; try reflexivity. now eexists.
  - replace (Js.length (su_password data) <? 6) with true by lia.
    cbn. repeat split; try reflexivity. now eexists.
Qed.

Lemma short_password_rejected_witness :
  let data := {| su_firstName := "Ama"; su_lastName := "Mensah";
                 su_email := "ama@example.com"; su_phone := "0240000000";
                 su_password := "12345" |} in
  let w := {| db := empty_db; outbox := [] |} in
  Js.length (su_password data) < 6
  /\ let (r, w') := respond (handleEmailSignUp demo_env data) w in
     status r = 400 /\ is_error r
     /\ users (db w') = users (db w)
     /\ passengers (db w') = passengers (db w)
     /\ auth_sessions (db w') = auth_sessions (db w)
     /\ w' = w.
Proof.
  intros data w. split; [reflexivity|].
  apply (short_password_rejected demo_env data w). reflexivity.
Defined.

(** ** Requests that name no bus or no trip *)

Section UnknownBus.

Lemma truthy_idempotent o : truthy (truthy o) = truthy o.
Proof. destruct o as [[| |]|]; reflexivity. Qed.

Lemma resolveTripForBus_reads busId tripId w :
  snd (resolveTripForBus busId tripId w) = w.
Proof.
  unfold resolveTripForBus, bind, query, ret, throw.
  destruct (truthy tripId); [|reflexivity].
  destruct (find _ _) as [trip|]; [|reflexivity].
  destruct (String.eqb _ _); reflexivity.
Qed.



Lemma getBusCapacity_reads busId w : snd (getBusCapacity busId w) = w.
Proof.
  unfold getBusCapacity, bind, query, throw, ret. cbn.
  destruct (find _ _); reflexivity.
Qed.


End UnknownBus.




(** ** Payment webhook *)

Section Webhook.

Lemma code_inj x y : Js.code x = Js.code y -> x = y.
Proof.
  unfold Js.code. intros H. apply N2Z.inj in H.
  rewrite <- (ascii_N_embedding x), <- (ascii_N_embedding y). now rewrite H.
Qed.

Lemma xor_fold_zero a : forall b out,
  String.length a = String.length b ->
  (xor_fold a b out = 0 <-> out = 0 /\ a = b).
Proof.
  induction a as [|x a IH]; intros [|y b] out Hlen; simpl in *; try discriminate.
  - tauto.
  - injection Hlen as Hlen. rewrite (IH b _ Hlen), Z.lor_eq_0_iff, Z.lxor_eq_0_iff.
    split.
    + intros [[H0 Hxy] Hab]. apply code_inj in Hxy. subst. tauto.
    + intros [H0 [= -> ->]]. tauto.
Qed.

(** [timingSafeEqual] is equality of non-empty strings. *)
Lemma timingSafeEqual_spec a b :
  timingSafeEqual a b = true <-> a = b /\ a <> "".
Proof.
  unfold timingSafeEqual.
  destruct a as [|x a]; [simpl; split; [discriminate|intros [_ H]; now destruct H]|].
  destruct b as [|y b]; [simpl; split; [discriminate|intros [H _]; discriminate]|].
  cbn [is_empty orb].
  destruct (Nat.eqb (String.length (String x a)) (String.length (String y b))) eqn:E.
  - apply Nat.eqb_eq in E. cbn [negb]. rewrite Z.eqb_eq, (xor_fold_zero _ _ _ E).
    split; [intros [_ H]; split; [exact H|discriminate] | intros [H _]; tauto].
  - apply Nat.eqb_neq in E. cbn [negb]. split; [discriminate|].
    intros [H _]. rewrite H in E. now destruct E.
Qed.

Lemma handleWebhookBookingFallback_returns env reference :
  returns (handleWebhookBookingFallback env reference).
Proof.
  unfold handleWebhookBookingFallback, getReceiptByBookingId, sendBookingToGAS,
    saveReceiptForBooking, sendSMS.
  returns_auto.
Qed.

End Webhook.

Lemma set_bookings_same d bs : bs = bookings d -> set_bookings (fun _ => bs) d = d.
Proof. intros ->. now destruct d. Qed.

Lemma map_id_on {X} (f : X -> X) l : (forall x, In x l -> f x = x) -> map f l = l.
Proof.
  intros H. induction l as [|x l IH]; simpl; [reflexivity|].
  rewrite H by (now left). rewrite IH; [reflexivity|].
  intros y Hy. apply H. now right.
Qed.

Lemma fallback_rows_none reference d :
  (forall b, In b (bookings d) -> ref_matches reference (b_external_ref b) = false) ->
  fallback_rows reference d = [].
Proof.
  unfold fallback_rows. intros H.
  induction (bookings d) as [|b bs IH]; simpl; [reflexivity|].
  rewrite H by (now left). simpl. apply IH. intros b' Hb'. apply H. now right.
Qed.

(** C8.  With the secret configured, a call whose signature header differs
    from the HMAC-SHA-512 hex digest of the raw body is answered 401 and
    changes nothing; a call that carries the digest and a [charge.success]
    event is answered 200 with [{received: true}], whatever the database
    holds; when no booking carries the reference, nothing changes at all. *)
Theorem webhook_signature_gate (env : Env) (rawBody : string)
  (signature : option string) (w : World) (secretKey : string) :
  nonempty (PAYSTACK_SECRET_KEY env) = Some secretKey ->
  let header := match signature with Some s => s | None => "" end in
  let digest := hmacSha512Hex env secretKey rawBody in
  digest <> "" ->
  (header <> digest ->
   respond (handlePaystackWebhook env rawBody signature) w
   = ({| status := 401; body := ErrorJson "Invalid webhook signature" |}, w))
  /\ (header = digest ->
      forall event,
        JSON_parse env rawBody = Some event ->
        ev_event event = Some "charge.success" ->
        (exists w',
           respond (handlePaystackWebhook env rawBody signature) w
           = ({| status := 200; body := Json {| received := true |} |}, w'))
        /\ ((forall reference b,
               nonempty (ev_reference event) = Some reference ->
               In b (bookings (db w)) ->
               ref_matches reference (b_external_ref b) = false) ->
            respond (handlePaystackWebhook env rawBody signature) w
            = ({| status := 200; body := Json {| received := true |} |}, w))).
Proof.
  intros Hkey header digest Hdigest.
  unfold respond, handlePaystackWebhook, try_catch. rewrite Hkey.
  fold header. fold digest. split.
  - intros Hne.
    destruct (timingSafeEqual header digest) eqn:E.
    + apply timingSafeEqual_spec in E. tauto.
    + reflexivity.
  - intros Heq event Hparse Hevent.
    assert (E : timingSafeEqual header digest = true).
    { apply timingSafeEqual_spec. split; [exact Heq|]. now rewrite Heq. }
    rewrite E, Hparse, Hevent. cbn [negb eqb_opt_string].
    rewrite String.eqb_refl.
    destruct (nonempty (ev_reference event)) as [reference|] eqn:Href.
    + split.
      * unfold bind at 1. unfold bind at 1. unfold run at 1.
        match goal with
        | |- context [handleWebhookBookingFallback env reference ?w1] =>
            destruct (handleWebhookBookingFallback_returns env reference w1)
              as ([] & w2 & ->)
        end.
        cbn. eauto.
      * intros Hnone. specialize (Hnone reference).
        unfold bind at 1. unfold bind at 1. unfold run at 1.
        assert (Hmap : set_bookings
                  (map (fun b =>
                     if ref_matches reference (b_external_ref b)
                     then {| b_id := b_id b; b_passenger_id := b_passenger_id b;
                             b_bus_id := b_bus_id b; b_trip_id := b_trip_id b;
                             b_seat_number := b_seat_number b;
                             b_price_paid := b_price_paid b;
                             b_status := "confirmed";
                             b_external_ref := b_external_ref b |}
                     else b)) (db w) = db w).
        { unfold set_bookings. rewrite map_id_on.
          - now destruct (db w).
          - intros b Hb. now rewrite (Hnone b eq_refl Hb). }
        rewrite Hmap.
        unfold handleWebhookBookingFallback.
        destruct reference as [|c r];
          [destruct (ev_reference event) as [[|]|]; discriminate Href|].
        unfold bind at 1. unfold query at 1. cbn [db].
        rewrite fallback_rows_none by (intros b Hb; now apply Hnone).
        cbn. now destruct w.
    + split; [cbn; eauto|]. intros _. cbn. reflexivity.
Qed.

Lemma webhook_signature_gate_witness :
  nonempty (PAYSTACK_SECRET_KEY demo_env) = Some "sk_test"
  /\ hmacSha512Hex demo_env "sk_test" "R0" <> ""
  /\ respond (handlePaystackWebhook demo_env "R0" (Some "5fsk_testR1")) demo_world
     = ({| status := 401; body := ErrorJson "Invalid webhook signature" |},
        demo_world)
  /\ exists w',
       respond (handlePaystackWebhook demo_env "R0" (Some "5fsk_testR0")) demo_world
       = ({| status := 200; body := Json {| received := true |} |}, w').
Proof.
  split; [reflexivity|]. split; [discriminate|]. split.
  - apply (webhook_signature_gate demo_env "R0" (Some "5fsk_testR1") demo_world
             "sk_test" eq_refl); discriminate.
  - refine (proj1 (proj2 (webhook_signature_gate demo_env "R0" (Some "5fsk_testR0")
                     demo_world "sk_test" eq_refl _) eq_refl
                     {| ev_event := Some "charge.success";
                        ev_reference := Some "R0" |} eq_refl eq_refl)).
    discriminate.
Defined.

Example webhook_fallback_sends_one_sms :
  outbox (snd (respond (handlePaystackWebhook demo_env "R0" (Some "5fsk_testR0"))
                 demo_world))
  = [SmsSent "0201111111"
       {| sms_booking_id := 1; sms_seats := "38"; sms_amount := 50 # 1;
          sms_receipt_url := None |}].
Proof. reflexivity. Qed.

(** ** Sets of seat keys and their numeric order *)

Section SeatLists.

Lemma includes_In l k : includes l k = true <-> In k l.
Proof.
  unfold includes. rewrite existsb_exists. split.
  - intros (x & Hx & E). apply String.eqb_eq in E. now subst.
  - intros H. exists k. split; [exact H|apply String.eqb_refl].
Qed.

Lemma includes_false l k : includes l k = false <-> ~ In k l.
Proof.
  rewrite <- includes_In. destruct (includes l k); split; congruence.
Qed.

Lemma in_set_add x k out : In x (set_add k out) <-> x = k \/ In x out.
Proof.
  unfold set_add. fold (includes out k).
  destruct (includes out k) eqn:E.
  - apply includes_In in E. split; [tauto|]. intros [->|H]; assumption.
  - rewrite in_app_iff. simpl. split; [intros [H|[H|[]]]|intros [H|H]]; auto.
Qed.

Lemma NoDup_set_add k out : NoDup out -> NoDup (set_add k out).
Proof.
  intros H. unfold set_add. fold (includes out k).
  destruct (includes out k) eqn:E; [exact H|].
  apply includes_false in E.
  apply NoDup_rev in H. rewrite <- (rev_involutive (out ++ [k])).
  apply NoDup_rev. rewrite rev_app_distr. simpl. constructor.
  - now rewrite <- in_rev.
  - exact H.
Qed.

Lemma insert_sorted_perm k l : Permutation (k :: l) (insert_sorted k l).
Proof.
  induction l as [|x l IH]; simpl; [reflexivity|].
  destruct (number_or_0 k <? number_or_0 x); [reflexivity|].
  rewrite perm_swap. now constructor.
Qed.

Lemma insert_sorted_sorted k l :
  Sorted le_number l -> Sorted le_number (insert_sorted k l).
Proof.
  induction l as [|x l IH]; simpl; intros H.
  - repeat constructor.
  - destruct (number_or_0 k <? number_or_0 x) eqn:E.
    + constructor; [exact H|]. constructor. unfold le_number. lia.
    + inversion H as [|? ? Hs Hh]; subst.
      constructor; [now apply IH|].
      destruct l as [|y l]; simpl.
      * constructor. unfold le_number. lia.
      * destruct (number_or_0 k <? number_or_0 y).
        -- constructor. unfold le_number. lia.
        -- inversion Hh; subst. now constructor.
Qed.

Lemma sort_fold_perm l : forall acc,
  Permutation (l ++ acc) (fold_left (fun acc k => insert_sorted k acc) l acc).
Proof.
  induction l as [|k l IH]; intros acc; simpl; [reflexivity|].
  rewrite <- IH. rewrite <- insert_sorted_perm. now rewrite Permutation_middle.
Qed.

Lemma sort_fold_sorted l : forall acc,
  Sorted le_number acc ->
  Sorted le_number (fold_left (fun acc k => insert_sorted k acc) l acc).
Proof.
  induction l as [|k l IH]; intros acc H; simpl; [exact H|].
  apply IH. now apply insert_sorted_sorted.
Qed.

Lemma sort_numeric_perm l : Permutation l (sort_numeric l).
Proof.
  unfold sort_numeric. rewrite <- sort_fold_perm. now rewrite List.app_nil_r.
Qed.

Lemma sort_numeric_In l k : In k (sort_numeric l) <-> In k l.
Proof.
  split; apply Permutation_in; [symmetry|]; apply sort_numeric_perm.
Qed.

Lemma sort_numeric_sorted l : StronglySorted le_number (sort_numeric l).
Proof.
  apply Sorted_StronglySorted.
  - intros a b c. unfold le_number. lia.
  - apply sort_fold_sorted. constructor.
Qed.

(** Canonical seats without repetition, in the order of the comparator,
    are strictly ascending. *)
Lemma sorted_canonical_ascending capacity l :
  0 < capacity ->
  StronglySorted le_number l -> NoDup l ->
  Forall (canonical_seat capacity) l ->
  ascending_seats capacity l.
Proof.
  intros Hcap. unfold ascending_seats.
  assert (Hc : capacity_or_50 capacity = capacity).
  { unfold capacity_or_50. destruct (capacity =? 0) eqn:E; lia. }
  induction l as [|a l IH]; intros Hs Hn Hf.
  - exists []. repeat constructor.
  - inversion Hs as [|? ? Hs' Hall]; subst.
    inversion Hn as [|? ? Hnotin Hn']; subst.
    inversion Hf as [|? ? (n & Hr & ->) Hf']; subst.
    destruct (IH Hs' Hn' Hf') as (ns & -> & Hsorted & Hrange).
    exists (n :: ns). rewrite Hc in Hr. repeat split.
    + constructor; [exact Hsorted|].
      rewrite Forall_forall in *. intros m Hm.
      assert (Hm1 : 1 <= m <= capacity) by (now apply Hrange).
      specialize (Hall (Js.String_of m) (in_map _ _ _ Hm)).
      unfold le_number in Hall.
      rewrite !number_or_0_String_of in Hall by lia.
      assert (n <> m); [|lia].
      intros ->. apply Hnotin. now apply in_map.
    + constructor; assumption.
Qed.

Lemma sort_numeric_ascending capacity l :
  0 < capacity -> NoDup l -> Forall (canonical_seat capacity) l ->
  ascending_seats capacity (sort_numeric l).
Proof.
  intros Hcap Hn Hf. apply sorted_canonical_ascending; try assumption.
  - apply sort_numeric_sorted.
  - eapply Permutation_NoDup; [apply sort_numeric_perm|exact Hn].
  - rewrite Forall_forall in *. intros k Hk. apply Hf.
    now apply sort_numeric_In.
Qed.

End SeatLists.

(** ** Seat availability *)

Section Availability.

Lemma normalized_fold_In capacity rows : forall acc k,
  In k (fold_left
          (fun out seat =>
             match normalizeSeatNumberRaw (Some seat) capacity with
             | Some key => set_add key out
             | None => out
             end) rows acc)
  <-> In k acc
      \/ exists seat, In seat rows
                      /\ normalizeSeatNumberRaw (Some seat) capacity = Some k.
Proof.
  induction rows as [|seat rows IH]; intros acc k; simpl.
  - split; [tauto|]. intros [H|(s & [] & _)]. exact H.
  - rewrite IH.
    destruct (normalizeSeatNumberRaw (Some seat) capacity) as [key|] eqn:E.
    + rewrite in_set_add. split.
      * intros [[->|H]|(s & Hs & Hk)]; eauto.
      * intros [H|(s & [<-|Hs] & Hk)]; eauto.
        left. left. congruence.
    + split.
      * intros [H|(s & Hs & Hk)]; eauto.
      * intros [H|(s & [<-|Hs] & Hk)]; eauto. congruence.
Qed.

Lemma normalized_fold_NoDup capacity rows : forall acc,
  NoDup acc ->
  NoDup (fold_left
           (fun out seat =>
              match normalizeSeatNumberRaw (Some seat) capacity with
              | Some key => set_add key out
              | None => out
              end) rows acc).
Proof.
  induction rows as [|seat rows IH]; intros acc H; simpl; [exact H|].
  apply IH. destruct (normalizeSeatNumberRaw (Some seat) capacity);
    [now apply NoDup_set_add|exact H].
Qed.

Lemma uniqueNormalizedSeatList_In rows capacity k :
  In k (uniqueNormalizedSeatList rows capacity)
  <-> exists seat, In seat rows
                   /\ normalizeSeatNumberRaw (Some seat) capacity = Some k.
Proof.
  unfold uniqueNormalizedSeatList, normalized_set.
  rewrite sort_numeric_In, normalized_fold_In. simpl. tauto.
Qed.

Lemma uniqueNormalizedSeatList_ascending rows capacity :
  0 < capacity -> ascending_seats capacity (uniqueNormalizedSeatList rows capacity).
Proof.
  intros Hcap. unfold uniqueNormalizedSeatList. apply sort_numeric_ascending.
  - exact Hcap.
  - apply normalized_fold_NoDup. constructor.
  - rewrite Forall_forall. intros k Hk.
    apply normalized_fold_In in Hk as [[]|(seat & _ & Hk)].
    eapply normalize_canonical, Hk.
Qed.



End Availability.

Section AvailabilityResult.



Lemma truthy_trip_key trip : truthy (trip_key trip) = trip_key trip.
Proof. unfold trip_key. apply truthy_idempotent. Qed.

Lemma trip_clause_spec tripKey row_trip :
  truthy tripKey = tripKey ->
  (trip_clause tripKey row_trip = true <-> trip_matches tripKey row_trip).
Proof.
  intros Ht. unfold trip_clause, trip_matches. rewrite Ht.
  destruct tripKey as [t|]; [|tauto].
  destruct row_trip as [r|]; simpl; [|split; discriminate].
  rewrite Z.eqb_eq. split; congruence.
Qed.

Lemma confirmed_row_spec busId tripKey b :
  truthy tripKey = tripKey ->
  (confirmed_row busId tripKey b = true
   <-> b_bus_id b = busId /\ trip_matches tripKey (b_trip_id b)
       /\ b_status b = "confirmed").
Proof.
  intros Ht. unfold confirmed_row.
  rewrite !andb_true_iff, Z.eqb_eq, String.eqb_eq, (trip_clause_spec _ _ Ht).
  tauto.
Qed.

Lemma active_lock_row_spec env busId tripKey l :
  truthy tripKey = tripKey ->
  (active_lock_row env busId tripKey l = true
   <-> l_bus_id l = busId /\ trip_matches tripKey (l_trip_id l)
       /\ now env < l_expires_at l).
Proof.
  intros Ht. unfold active_lock_row.
  rewrite !andb_true_iff, Z.eqb_eq, (trip_clause_spec _ _ Ht).
  assert ((l_expires_at l >? now env) = true <-> now env < l_expires_at l) by lia.
  tauto.
Qed.

Lemma booked_list_spec d busId tripKey capacity k :
  truthy tripKey = tripKey ->
  (In k (uniqueNormalizedSeatList
           (map b_seat_number (filter (confirmed_row busId tripKey) (bookings d)))
           capacity)
   <-> booked_seat d busId tripKey capacity k).
Proof.
  intros Ht. rewrite uniqueNormalizedSeatList_In. unfold booked_seat. split.
  - intros (seat & Hin & Hk). apply in_map_iff in Hin as (b & <- & Hb).
    apply filter_In in Hb as [Hb Hrow].
    apply (confirmed_row_spec _ _ _ Ht) in Hrow. exists b. tauto.
  - intros (b & Hb & H1 & H2 & H3 & Hk). exists (b_seat_number b).
    split; [|exact Hk]. apply in_map, filter_In. split; [exact Hb|].
    apply (confirmed_row_spec _ _ _ Ht). tauto.
Qed.







End AvailabilityResult.



Example seats_of_trip_3 :
  body (fst (respond (handleGetBusSeats demo_env 2 0 (Some "LB")) demo_world))
  = Json {| sj_trip_id := Some 3;
            sj_available :=
              map Js.String_of (Z_range 1 6 ++ Z_range 8 23);
            sj_locked := [];
            sj_own_locked := ["9"];
            sj_booked := ["7"] |}.
Proof. reflexivity. Qed.

Example seats_of_bus_1_for_a_stranger :
  body (fst (respond (handleGetBusSeats demo_env 1 0 None) demo_world))
  = Json {| sj_trip_id := None;
            sj_available :=
              map Js.String_of (Z_range 1 4 ++ Z_range 6 32 ++ Z_range 39 12);
            sj_locked := ["5"];
            sj_own_locked := [];
            sj_booked := ["38"] |}.
Proof. reflexivity. Qed.

(** ** Booking finaliser: the idempotency check *)

Section Idempotency.

Lemma lower_char_refl c : Ascii.eqb (lower_char c) (lower_char c) = true.
Proof. apply Ascii.eqb_refl. Qed.











Lemma normalize_seats_reads capacity raw : forall keys w,
  snd (normalize_seats capacity raw keys w) = w.
Proof.
  induction raw as [|s raw IH]; intros keys w; simpl; [reflexivity|].
  destruct (normalizeSeatNumberRaw (Some s) capacity); [apply IH|reflexivity].
Qed.

Lemma confirm_validate_reads data w : snd (confirm_validate data w) = w.
Proof.
  unfold confirm_validate. unfold bind at 1.
  pose proof (resolveTripForBus_reads (c_busId data) (truthy (c_tripId data)) w) as H1.
  destruct (resolveTripForBus _ _ w) as [[trip|e] w1]; simpl in H1; subst w1;
    [|reflexivity].
  unfold bind at 1.
  pose proof (getBusCapacity_reads (c_busId data) w) as H2.
  destruct (getBusCapacity _ w) as [[capacity|e] w1]; simpl in H2; subst w1;
    [|reflexivity].
  cbv zeta.
  match goal with
  | |- context [normalize_seats capacity ?r []] => generalize r; intros raw
  end. destruct raw as [|s rest]; [reflexivity|].
  unfold bind at 1.
  pose proof (normalize_seats_reads capacity (s :: rest) [] w) as H3.
  destruct (normalize_seats capacity (s :: rest) [] w) as [[keys|e] w1];
    simpl in H3; subst w1; [|reflexivity].
  destruct keys; [reflexivity|].
  destruct (c_paystackRef data); reflexivity.
Qed.

End Idempotency.



Example first_confirm_creates_booking_3 :
  bookings (db after_first_confirm) = bookings demo_db ++ [demo_booking_3]
  /\ outbox after_first_confirm
     = [PaystackVerified "R1";
        SmsSent "0240000000"
          {| sms_booking_id := 3; sms_seats := "5"; sms_amount := 50 # 1;
             sms_receipt_url := None |}].
Proof. split; reflexivity. Qed.


Example retry_answers_duplicate :
  confirm_validate demo_confirm after_first_confirm
  = (Ret (None, 50, ["5"]), after_first_confirm)
  /\ respond (handleBookingConfirm demo_env demo_confirm) after_first_confirm
     = ({| status := 200;
           body := Json
             {| cj_booking_id := "ELITE-3"; cj_booking_ids := ["ELITE-3"];
                cj_passenger_name := "Ama Mensah";
                cj_route_name := "Accra - Kumasi"; cj_bus_name := "Elite 01";
                cj_seat := "5"; cj_seats := ["5"]; cj_seat_count := 1;
                cj_price := Qplus 0 (50 # 1);
                cj_phone := "0240000000"; cj_email := "ama@example.com";
                cj_status := "confirmed"; cj_duplicate := true;
                cj_receipt_url := None |} |},
        after_first_confirm).
Proof. split; vm_compute; reflexivity. Qed.

(** ** Booking finaliser: the payment *)




Example mismatch_of_4000_against_50 :
  let env :=
    {| PAYSTACK_SECRET_KEY := Some "sk_test"; GAS_WEBHOOK_URL := None;
       ADMIN_EMAILS := ""; now := 1000; random_lock_id := "lock_x";
       random_manual_ref := "admin_manual_x";
       generateToken := fun _ => "tok"; hashPassword := fun p => p;
       hmacSha512Hex := fun _ _ => "00"; JSON_parse := fun _ => None;
       paystack_verify := fun _ => VerifyData "success" (4000 # 1);
       gas_service := fun _ => None |} in
  respond (handleBookingConfirm env demo_confirm) demo_world
  = ({| status := 400; body := ErrorJson "Error: Payment amount mismatch" |},
     {| db := demo_db; outbox := [PaystackVerified "R1"] |}).
Proof. vm_compute. reflexivity. Qed.

(** ** Legacy keys are no decimal strings *)

Section LegacyKeys.

Lemma code_byte z : 0 <= z < 256 -> Js.code (Js.byte z) = z.
Proof.
  intros H. unfold Js.code, Js.byte.
  rewrite N_ascii_embedding by lia. lia.
Qed.

(** The legacy key of a seat below 631: its row letter and its column. *)
Lemma canonicalSeatToLegacy_ascii n :
  1 <= n <= 630 ->
  canonicalSeatToLegacy (Js.String_of n)
  = Some (String (Js.byte (65 + (n - 1) / 10))
                 (Js.String_of ((n - 1) mod 10 + 1))).
Proof.
  intros Hn. unfold canonicalSeatToLegacy.
  rewrite Number_of_String_of by lia.
  replace (n <? 1) with false by lia.
  unfold Js.fromCharCode.
  assert (Hrow : 0 <= (n - 1) / 10 < 63).
  { split; [apply Z.div_pos; lia|apply Z.div_lt_upper_bound; lia]. }
  rewrite Z.mod_small by lia.
  replace (65 + (n - 1) / 10 <? 128) with true by lia.
  reflexivity.
Qed.

Lemma String_of_starts_with_digit n :
  0 <= n -> exists c r, Js.String_of n = String c r /\ Js.is_digit c = true.
Proof.
  intros Hn. destruct n as [|p|p]; try lia.
  - exists "0"%char, EmptyString. split; reflexivity.
  - destruct (String_of_pos_shape p) as (c & r & E & Hc & _). eauto.
Qed.

Lemma legacy_is_not_canonical n m s :
  1 <= n <= 630 -> 0 <= m ->
  canonicalSeatToLegacy (Js.String_of n) = Some s -> s <> Js.String_of m.
Proof.
  intros Hn Hm Hs E. rewrite (canonicalSeatToLegacy_ascii n Hn) in Hs.
  assert (Hrow : 0 <= (n - 1) / 10 < 63).
  { split; [apply Z.div_pos; lia|apply Z.div_lt_upper_bound; lia]. }
  remember (65 + (n - 1) / 10) as letter eqn:El.
  remember (Js.String_of ((n - 1) mod 10 + 1)) as col eqn:Ec.
  destruct (String_of_starts_with_digit m Hm) as (c & r & Em & Hc).
  assert (Hletter : Js.byte letter = c) by congruence.
  unfold Js.is_digit in Hc. rewrite <- Hletter, code_byte in Hc by lia. lia.
Qed.



End LegacyKeys.

(** ** One confirmed booking for a bus, a trip and a seat *)

Section ConfirmedUnique.


Lemma keeps_for_each {A} (R : World -> World -> Prop) (l : list A)
  (f : A -> M unit) :
  (forall w, R w w) ->
  (forall w1 w2 w3, R w1 w2 -> R w2 w3 -> R w1 w3) ->
  (forall x, keeps R (f x)) -> keeps R (for_each l f).
Proof.
  intros Hr Ht Hf. induction l as [|x l IH]; simpl.
  - now apply keeps_ret.
  - apply keeps_bind; auto.
Qed.



Lemma filter_none {X} (p : X -> bool) l :
  (forall x, In x l -> p x = false) -> filter p l = [].
Proof.
  intros H. induction l as [|x l IH]; simpl; [reflexivity|].
  rewrite H by (now left). apply IH. intros y Hy. apply H. now right.
Qed.






End ConfirmedUnique.


Section ConfirmedUniqueHandlers.


Lemma keeps_reads {A} (R : World -> World -> Prop) (m : M A) :
  (forall w, R w w) -> (forall w, snd (m w) = w) -> keeps R m.
Proof. intros Hr Hm w. rewrite Hm. apply Hr. Qed.



Lemma owned_locks_reads env bus tripKey lockId capacity seatKeys : forall w,
  snd (owned_locks env bus tripKey lockId capacity seatKeys w) = w.
Proof.
  induction seatKeys as [|k rest IH]; intros w; simpl; [reflexivity|].
  unfold bind at 1. unfold findOwnedActiveLockForSeat, bind, query, ret.
  cbn [fst snd]. destruct (find _ _) as [l|]; [|reflexivity].
  specialize (IH w).
  destruct (owned_locks env bus tripKey lockId capacity rest w) as [[ls|e] w1];
    exact IH.
Qed.





End ConfirmedUniqueHandlers.

Lemma snd_respond {A} (m : M (Response (Body A))) w :
  snd (respond m w) = snd (m w).
Proof. unfold respond. now destruct (m w) as [[r|e] w']. Qed.




Example legacy_row_blocks_canonical_insert :
  fst (insertConfirmedBookingAtomic
         (seat_payload 1 1 None 38 (50 # 1) "R2") demo_world)
  = Ret {| inserted := false; bookingId := None |}
  /\ fst (insertConfirmedBookingAtomic
            (seat_payload 1 1 None 39 (50 # 1) "R2") demo_world)
     = Ret {| inserted := true; bookingId := Some 3 |}.
Proof. split; reflexivity. Qed.

(** ** Booking finaliser: the rollback *)

Section Rollback.

Lemma fold_max_bound ids : forall x, In x ids -> x <= fold_right Z.max 0 ids.
Proof.
  induction ids as [|y ids IH]; simpl; intros x [].
  - subst. lia.
  - specialize (IH x H). lia.
Qed.

Lemma next_id_fresh ids x : In x ids -> x < next_id ids.
Proof. intros H. unfold next_id. pose proof (fold_max_bound ids x H). lia. Qed.

Lemma next_id_positive ids : 1 <= next_id ids.
Proof.
  unfold next_id. assert (0 <= fold_right Z.max 0 ids); [|lia].
  induction ids; simpl; lia.
Qed.

Lemma truthy_next_id ids : truthy (Some (next_id ids)) = Some (next_id ids).
Proof.
  pose proof (next_id_positive ids). destruct (next_id ids); try reflexivity; lia.
Qed.

Lemma filter_filter {X} (p q : X -> bool) l :
  filter p (filter q l) = filter (fun x => q x && p x) l.
Proof.
  induction l as [|x l IH]; simpl; [reflexivity|].
  destruct (q x); simpl; [destruct (p x)|]; now rewrite IH.
Qed.

Lemma filter_all {X} (p : X -> bool) l :
  (forall x, In x l -> p x = true) -> filter p l = l.
Proof.
  intros H. induction l as [|x l IH]; simpl; [reflexivity|].
  rewrite H by (now left). f_equal. apply IH. intros y Hy. apply H. now right.
Qed.

(** Deleting the created bookings one by one. *)
Lemma for_each_delete_booking created : forall w,
  exists w',
    for_each created delete_booking w = (Ret tt, w')
    /\ bookings (db w')
       = filter (fun b => negb (existsb (eqb_opt (Some (b_id b))) created))
                (bookings (db w))
    /\ passengers (db w') = passengers (db w)
    /\ outbox w' = outbox w.
Proof.
  induction created as [|id created IH]; intros w.
  - exists w. simpl. repeat split. symmetry. now apply filter_all.
  - simpl for_each. unfold bind at 1. unfold delete_booking at 1. unfold run.
    destruct (IH {| db := set_bookings
                      (filter (fun b => negb (eqb_opt (Some (b_id b)) id))) (db w);
                    outbox := outbox w |}) as (w' & -> & Hb & Hp & Ho).
    exists w'. split; [reflexivity|]. cbn [db set_bookings bookings passengers outbox]
      in Hb, Hp, Ho.
    repeat split; try assumption.
    rewrite Hb, filter_filter. apply filter_ext. intros b. simpl.
    now rewrite negb_orb.
Qed.

Lemma eqb_opt_Some x y : eqb_opt (Some x) (Some y) = (x =? y).
Proof. reflexivity. Qed.

(** Deleting by the ids of the rows the request appended gives the table
    back, when no older row has one of those ids. *)
Lemma delete_created_restores (B0 C : list Booking) :
  (forall b0 c, In b0 B0 -> In c C -> b_id b0 <> b_id c) ->
  filter (fun b => negb (existsb (eqb_opt (Some (b_id b)))
                           (map (fun c => Some (b_id c)) C)))
         (B0 ++ C) = B0.
Proof.
  intros Hfresh. rewrite filter_app.
  rewrite (filter_all _ B0), (filter_none _ C).
  - apply List.app_nil_r.
  - intros c Hc. apply negb_false_iff, existsb_exists.
    exists (Some (b_id c)).
    split; [exact (in_map (fun c => Some (b_id c)) C c Hc)|].
    rewrite eqb_opt_Some. apply Z.eqb_refl.
  - intros b0 Hb0. apply negb_true_iff.
    destruct (existsb _ _) eqn:E; [|reflexivity].
    apply existsb_exists in E as (x & Hx & E).
    apply in_map_iff in Hx as (c & <- & Hc).
    rewrite eqb_opt_Some in E. apply Z.eqb_eq in E.
    now destruct (Hfresh b0 c Hb0 Hc).
Qed.

(** The insertion loop: when it throws, the bookings it appended are gone,
    the passenger is gone, and the message names one of the seats. *)
Lemma insert_seats_rollback passenger bus tripKey paid ref single seatKeys :
  forall created w1 B0 C,
    bookings (db w1) = B0 ++ C ->
    created = map (fun c => Some (b_id c)) C ->
    (forall b0 c, In b0 B0 -> In c C -> b_id b0 <> b_id c) ->
    forall e w2,
      insert_seats passenger bus tripKey paid ref single seatKeys created w1
      = (Throw e, w2) ->
      bookings (db w2) = B0
      /\ passengers (db w2)
         = filter (fun p => negb (p_id p =? passenger)) (passengers (db w1))
      /\ outbox w2 = outbox w1
      /\ exists k, In k seatKeys /\ e = ("Seat already booked: " ++ k)%string.
Proof.
  induction seatKeys as [|k rest IH]; intros created w1 B0 C HB Hcreated Hfresh e w2.
  - simpl. discriminate.
  - simpl insert_seats. unfold bind at 1.
    unfold insertConfirmedBookingAtomic, sql.
    destruct (existsb _ (bookings (db w1))) eqn:Eblock.
    + cbn [inserted negb].
      unfold bind at 1.
      destruct (for_each_delete_booking created
                  {| db := db w1; outbox := outbox w1 |})
        as (w' & -> & Hb & Hp & Ho).
      unfold bind, delete_passenger, run, throw. intros [= <- <-].
      cbn [db set_passengers bookings passengers outbox] in *.
      rewrite Hb, Hp, Ho, HB, Hcreated. repeat split.
      * now apply delete_created_restores.
      * exists k. split; [now left|reflexivity].
    + cbn [inserted negb bookingId]. rewrite truthy_next_id.
      set (id := next_id (map b_id (bookings (db w1)))).
      set (row := {| b_id := id; b_passenger_id := passenger; b_bus_id := bus;
                     b_trip_id := tripKey; b_seat_number := k;
                     b_price_paid := paid; b_status := "confirmed";
                     b_external_ref :=
                       Some (if single then ref else (ref ++ ":" ++ k)%string) |}).
      intros Hrun.
      destruct (IH (created ++ [Some id])
                  {| db := set_bookings (fun bs => bs ++ [row]) (db w1);
                     outbox := outbox w1 |}
                  B0 (C ++ [row])) with (e := e) (w2 := w2)
        as (H1 & H2 & H3 & k' & Hk' & He).
      * cbn [db set_bookings bookings]. now rewrite HB, <- List.app_assoc.
      * rewrite map_app, Hcreated. reflexivity.
      * intros b0 c Hb0 Hc. apply in_app_or in Hc as [Hc|[<-|[]]].
        -- now apply Hfresh.
        -- cbn [b_id row]. assert (b_id b0 < id); [|lia].
           apply next_id_fresh. rewrite HB. apply in_map, in_or_app. now left.
      * exact Hrun.
      * repeat split; try assumption. exists k'. split; [now right|exact He].
Qed.

End Rollback.

Section RollbackOfTheHandler.

Lemma same_tables_refl w : same_tables w w.
Proof. split; reflexivity. Qed.

Lemma same_tables_trans w1 w2 w3 :
  same_tables w1 w2 -> same_tables w2 w3 -> same_tables w1 w3.
Proof. intros [H1 H2] [H3 H4]. split; congruence. Qed.

Lemma restores_bind {A B} (m : M A) (k : A -> M B) :
  keeps same_tables m -> restores m -> (forall a, restores (k a)) ->
  restores (bind m k).
Proof.
  intros Hm Hr Hk w e w'. unfold bind.
  specialize (Hm w). specialize (Hr w).
  destruct (m w) as [[a|e1] w1]; simpl in Hm.
  - intros H. eapply same_tables_trans; [exact Hm|]. eapply Hk, H.
  - intros [= <- <-]. exact Hm.
Qed.

Lemma restores_of_keeps {A} (m : M A) : keeps same_tables m -> restores m.
Proof. intros H w e w' E. specialize (H w). now rewrite E in H. Qed.

Lemma yields_bind {A B} (Q : B -> Prop) (m : M A) (k : A -> M B) :
  (forall a, yields Q (k a)) -> yields Q (bind m k).
Proof.
  intros Hk w b w'. unfold bind.
  destruct (m w) as [[a|e] w1]; [apply Hk|discriminate].
Qed.

Lemma yields_ret {A} (Q : A -> Prop) (a : A) : Q a -> yields Q (ret a).
Proof. intros H w b w'. unfold ret. now intros [= <- _]. Qed.

Lemma yields_throw {A} (Q : A -> Prop) e : yields Q (@throw A e).
Proof. intros w b w'. discriminate. Qed.

Lemma returns_for_each {A} (l : list A) (f : A -> M unit) :
  (forall x, returns (f x)) -> returns (for_each l f).
Proof.
  intros Hf. induction l as [|x l IH]; simpl.
  - apply returns_ret.
  - apply returns_bind; [apply Hf|intros _; exact IH].
Qed.

Lemma seat_taken_blocks d bus tripKey k passenger paid ref :
  seat_taken d bus tripKey k ->
  existsb (blocks_insert
             {| passengerId := passenger; busId := bus; tripId := tripKey;
                seatNumber := k; legacySeatNumber := Some (legacy_or_self k);
                pricePaid := paid; externalRef := ref |})
          (bookings d) = true.
Proof.
  intros (b & Hb & Hbus & Htrip & Hst & Hseat).
  apply existsb_exists. exists b. split; [exact Hb|].
  unfold blocks_insert. cbn [busId tripId seatNumber legacySeatNumber].
  rewrite Hbus, Htrip, Hst, !Z.eqb_refl. cbn [andb]. rewrite andb_true_r.
  apply orb_true_iff. destruct Hseat as [->| ->].
  - left. apply String.eqb_refl.
  - destruct (legacy_or_self k) eqn:E.
    + left. unfold legacy_or_self in E.
      destruct (canonicalSeatToLegacy k) as [[|c r]|]; try discriminate;
        subst; reflexivity.
    + right. apply String.eqb_refl.
Qed.

Lemma seat_taken_grows d bus tripKey k row :
  seat_taken d bus tripKey k ->
  seat_taken (set_bookings (fun bs => bs ++ [row]) d) bus tripKey k.
Proof.
  intros (b & Hb & H). exists b. split; [|exact H].
  cbn [set_bookings bookings]. apply in_or_app. now left.
Qed.

(** The insertion loop throws when one of its seats is taken. *)
Lemma insert_seats_refuses passenger bus tripKey paid ref single seatKeys :
  forall created w1,
    (exists k, In k seatKeys /\ seat_taken (db w1) bus tripKey k) ->
    exists e w2,
      insert_seats passenger bus tripKey paid ref single seatKeys created w1
      = (Throw e, w2).
Proof.
  induction seatKeys as [|k0 rest IH]; intros created w1 (k & Hk & Htaken).
  - destruct Hk.
  - simpl insert_seats. unfold bind at 1.
    unfold insertConfirmedBookingAtomic, sql.
    destruct (existsb _ (bookings (db w1))) eqn:Eblock.
    + cbn [inserted negb]. unfold bind at 1.
      destruct (for_each_delete_booking created
                  {| db := db w1; outbox := outbox w1 |}) as (w' & -> & _).
      unfold bind, delete_passenger, run, throw. eauto.
    + cbn [inserted negb bookingId].
      destruct Hk as [<-|Hk].
      * enough (true = false) by discriminate.
        rewrite <- Eblock. symmetry. apply seat_taken_blocks. exact Htaken.
      * apply IH. exists k. split; [exact Hk|]. now apply seat_taken_grows.
Qed.

End RollbackOfTheHandler.

(** Splits a goal [yields is_json m] along the structure of [m]. *)
Ltac yields_json_auto :=
  repeat first
    [ apply yields_throw
    | apply yields_bind; intros ?
    | apply yields_ret; eexists; reflexivity
    | match goal with
      | |- yields _ (match ?x with _ => _ end) => destruct x
      | |- yields _ (if ?b then _ else _) => destruct b
      end ].

(** Splits a goal [returns m], loops over lists included. *)
Ltac returns_all :=
  repeat first
    [ apply returns_ret | apply returns_query | apply returns_sql
    | apply returns_run | apply returns_send
    | apply returns_for_each; intros ?
    | apply returns_bind; [|intros ?]
    | match goal with
      | |- returns (match ?x with _ => _ end) => destruct x
      | |- returns (if ?b then _ else _) => destruct b
      end ].

(** Splits a goal [keeps same_tables m]; a step that leaves both tables
    alone is closed by conversion. *)
Ltac keeps_tables_auto :=
  repeat first
    [ apply keeps_ret; exact same_tables_refl
    | apply keeps_throw; exact same_tables_refl
    | apply keeps_query; exact same_tables_refl
    | apply keeps_bind; [exact same_tables_trans | | intros ?]
    | match goal with
      | |- keeps _ (match ?x with _ => _ end) => destruct x
      | |- keeps _ (if ?b then _ else _) => destruct b
      end
    | (intros ?w; exact (conj eq_refl eq_refl)) ].

Section RollbackTheorem.

Lemma delete_new_passenger (ps : list Passenger) (p : Passenger) :
  p_id p = next_id (map p_id ps) ->
  filter (fun q => negb (p_id q =? p_id p)) (ps ++ [p]) = ps.
Proof.
  intros Hid. rewrite filter_app. cbn [filter]. rewrite Z.eqb_refl. cbn [negb].
  rewrite List.app_nil_r. apply filter_all. intros q Hq.
  apply negb_true_iff, Z.eqb_neq.
  assert (p_id q < p_id p); [|lia].
  rewrite Hid. apply next_id_fresh. now apply in_map.
Qed.

(** The commit throws only out of the insertion loop, and then the two
    tables are as they were. *)
Lemma confirm_commit_throws env data trip seatKeys ownedLocks w e w' :
  confirm_commit env data trip seatKeys ownedLocks w = (Throw e, w') ->
  same_tables w w'
  /\ exists k, In k seatKeys /\ e = ("Seat already booked: " ++ k)%string.
Proof.
  unfold confirm_commit. cbv zeta. unfold bind at 1.
  unfold insert_passenger, sql.
  set (pid := next_id (map p_id (passengers (db w)))).
  match goal with
  | |- context [set_passengers (fun ps => ps ++ [?p]) (db w)] => set (row := p)
  end.
  set (w1 := {| db := set_passengers (fun ps => ps ++ [row]) (db w);
                outbox := outbox w |}).
  unfold bind at 1.
  destruct (insert_seats pid (c_busId data) (trip_key trip) _ _ _ seatKeys [] w1)
    as [[created|e0] w2] eqn:E.
  - match goal with
    | |- ?tail w2 = _ -> _ => assert (Htail : returns tail)
    end.
    { unfold update_available_seats, route_name_of, sendBookingToGAS,
        saveReceiptForBooking, sendSMS, ok.
      returns_all. }
    destruct (Htail w2) as (r & w3 & ->). discriminate.
  - intros [= <- <-].
    assert (HB : bookings (db w1) = bookings (db w) ++ []).
    { subst w1. cbn [db set_passengers bookings]. now rewrite List.app_nil_r. }
    assert (Hfresh : forall b0 c : Booking,
              In b0 (bookings (db w)) -> In c [] -> b_id b0 <> b_id c).
    { intros b0 c _ []. }
    destruct (insert_seats_rollback _ _ _ _ _ _ _ _ _ _ _ HB eq_refl Hfresh _ _ E)
      as (Hb & Hp & _ & Hk).
    split; [split|exact Hk]; [exact Hb|].
    rewrite Hp. subst w1. cbn [db set_passengers passengers].
    apply (delete_new_passenger (passengers (db w)) row). reflexivity.
Qed.

Lemma confirm_commit_refuses env data trip seatKeys ownedLocks w :
  (exists k, In k seatKeys
             /\ seat_taken (db w) (c_busId data) (trip_key trip) k) ->
  exists e w', confirm_commit env data trip seatKeys ownedLocks w = (Throw e, w').
Proof.
  intros (k & Hk & b & Hb & Htaken).
  unfold confirm_commit. cbv zeta. unfold bind at 1.
  unfold insert_passenger, sql. unfold bind at 1.
  match goal with
  | |- context [insert_seats ?p ?bus ?t ?paid ?ref ?single seatKeys [] ?w1] =>
      destruct (insert_seats_refuses p bus t paid ref single seatKeys [] w1)
        as (e & w2 & ->)
  end.
  - exists k. split; [exact Hk|]. exists b. split; [exact Hb|exact Htaken].
  - eauto.
Qed.

Lemma confirm_verify_keeps_db env data w : db (snd (confirm_verify env data w)) = db w.
Proof.
  unfold confirm_verify, verifyPaystackTransaction.
  destruct (nonempty (PAYSTACK_SECRET_KEY env)); [|reflexivity].
  unfold bind, send, ret, throw. cbn [fst snd db].
  destruct (paystack_verify env (c_paystackRef data)); cbn [db snd]; try reflexivity.
  destruct (negb _); [reflexivity|]. destruct (negb _); [reflexivity|].
  destruct (c_price data); [|reflexivity]. destruct (negb _); reflexivity.
Qed.

Lemma handleBookingConfirm_json env data :
  yields is_json
    (let* (trip, capacity, seatKeys) := confirm_validate data in
     let* existingRows := query (existing_rows (c_paystackRef data)) in
     match existingRows with
     | first :: _ => confirm_duplicate data capacity first existingRows
     | [] =>
         confirm_verify env data;;
         let* ownedLocks :=
           owned_locks env (c_busId data) (trip_key trip) (c_lockId data)
             capacity seatKeys in
         confirm_commit env data trip seatKeys ownedLocks
     end).
Proof.
  unfold confirm_duplicate, confirm_commit, ok. cbv zeta. yields_json_auto.
Qed.

End RollbackTheorem.

Section RollbackOfConfirm.

Lemma keeps_tables_reads {A} (m : M A) :
  (forall w, snd (m w) = w) -> keeps same_tables m.
Proof. intros H. apply keeps_reads; [exact same_tables_refl|exact H]. Qed.

Lemma keeps_tables_db {A} (m : M A) :
  (forall w, db (snd (m w)) = db w) -> keeps same_tables m.
Proof. intros H w. unfold same_tables. now rewrite H. Qed.

(** Whenever the body of [handleBookingConfirm] throws, the bookings and
    the passengers are as they were. *)
Lemma handleBookingConfirm_restores env data :
  restores
    (let* (trip, capacity, seatKeys) := confirm_validate data in
     let* existingRows := query (existing_rows (c_paystackRef data)) in
     match existingRows with
     | first :: _ => confirm_duplicate data capacity first existingRows
     | [] =>
         confirm_verify env data;;
         let* ownedLocks :=
           owned_locks env (c_busId data) (trip_key trip) (c_lockId data)
             capacity seatKeys in
         confirm_commit env data trip seatKeys ownedLocks
     end).
Proof.
  assert (Hvalidate : keeps same_tables (confirm_validate data)).
  { apply keeps_tables_reads, confirm_validate_reads. }
  apply restores_bind; [exact Hvalidate|now apply restores_of_keeps|].
  intros [[trip capacity] seatKeys].
  assert (Hquery : keeps same_tables (query (existing_rows (c_paystackRef data)))).
  { apply keeps_query, same_tables_refl. }
  apply restores_bind; [exact Hquery|now apply restores_of_keeps|].
  intros [|first rest].
  - assert (Hverify : keeps same_tables (confirm_verify env data)).
    { apply keeps_tables_db, confirm_verify_keeps_db. }
    apply restores_bind; [exact Hverify|now apply restores_of_keeps|]. intros _.
    assert (Hlocks : keeps same_tables
              (owned_locks env (c_busId data) (trip_key trip) (c_lockId data)
                 capacity seatKeys)).
    { apply keeps_tables_reads, owned_locks_reads. }
    apply restores_bind; [exact Hlocks|now apply restores_of_keeps|].
    intros ownedLocks w e w' E. now apply confirm_commit_throws in E.
  - apply restores_of_keeps.
    unfold confirm_duplicate, getReceiptByBookingId, ok. keeps_tables_auto.
Qed.

End RollbackOfConfirm.

(** C4.  Whenever booking confirmation answers an error, the status is 400
    and the bookings and the passengers are as they were before the request;
    and when the request gets as far as inserting its seats and one of them
    already has a confirmed booking on the bus and trip, the insert is
    refused, the answer is "Seat already booked" for one of the seats, and
    what the request had inserted (the passenger, the bookings of the seats
    before it) is deleted again. *)
Theorem refused_insert_rolls_back (env : Env) (data : ConfirmRequest) (w : World) :
  let (r, w') := respond (handleBookingConfirm env data) w in
  (is_error r ->
   status r = 400
   /\ bookings (db w') = bookings (db w)
   /\ passengers (db w') = passengers (db w))
  /\ (forall trip seatKeys,
        reaches_insertion env data w trip seatKeys ->
        (exists k, In k seatKeys
                   /\ seat_taken (db w) (c_busId data) (trip_key trip) k) ->
        exists k,
          In k seatKeys
          /\ r = {| status := 400;
                    body := ErrorJson ("Error: Seat already booked: " ++ k) |}
          /\ bookings (db w') = bookings (db w)
          /\ passengers (db w') = passengers (db w)).
Proof.
  unfold respond, handleBookingConfirm, try_catch.
  pose proof (handleBookingConfirm_restores env data w) as Hrestore.
  pose proof (handleBookingConfirm_json env data w) as Hjson.
  match goal with
  | |- context [match ?body w with _ => _ end] =>
      destruct (body w) as [[r|e] w'] eqn:E
  end.
  - split.
    + intros [e He]. destruct (Hjson r w' eq_refl) as [j Hj]. congruence.
    + intros trip seatKeys (capacity & w1 & locks & Hv & Hex & Hpay & Hlocks) Htaken.
      exfalso. revert E. unfold bind at 1. rewrite Hv.
      unfold bind at 1. unfold query at 1. rewrite Hex.
      unfold bind at 1. rewrite Hpay. unfold bind at 1. rewrite Hlocks.
      pose proof (confirm_verify_keeps_db env data w) as Hdb.
      rewrite Hpay in Hdb. cbn [snd] in Hdb.
      destruct (confirm_commit_refuses env data trip seatKeys locks w1)
        as (e & w2 & ->); [|discriminate].
      now rewrite Hdb.
  - destruct (Hrestore e w' eq_refl) as [Hb Hp]. split.
    + intros _. cbn [status]. auto.
    + intros trip seatKeys (capacity & w1 & locks & Hv & Hex & Hpay & Hlocks) Htaken.
      revert E. unfold bind at 1. rewrite Hv.
      unfold bind at 1. unfold query at 1. rewrite Hex.
      unfold bind at 1. rewrite Hpay. unfold bind at 1. rewrite Hlocks.
      intros E. apply confirm_commit_throws in E as (_ & k & Hk & ->).
      exists k. auto.
Qed.

Lemma refused_insert_rolls_back_witness :
  reaches_insertion demo_env demo_two_seats demo_race_world None ["5"; "38"]
  /\ seat_taken (db demo_race_world) 1 None "38"
  /\ exists k,
       In k ["5"; "38"]
       /\ fst (respond (handleBookingConfirm demo_env demo_two_seats) demo_race_world)
          = {| status := 400;
               body := ErrorJson ("Error: Seat already booked: " ++ k) |}
       /\ bookings (db (snd (respond (handleBookingConfirm demo_env demo_two_seats)
                               demo_race_world)))
          = bookings (db demo_race_world)
       /\ passengers (db (snd (respond (handleBookingConfirm demo_env demo_two_seats)
                                 demo_race_world)))
          = passengers (db demo_race_world).
Proof.
  assert (Hreach : reaches_insertion demo_env demo_two_seats demo_race_world None
                     ["5"; "38"]).
  { exists 50, {| db := db demo_race_world; outbox := [PaystackVerified "R2"] |}.
    eexists. repeat split; reflexivity. }
  assert (Htaken : seat_taken (db demo_race_world) 1 None "38").
  { eexists. split; [left; reflexivity|]. repeat split. right. reflexivity. }
  split; [exact Hreach|]. split; [exact Htaken|].
  pose proof (refused_insert_rolls_back demo_env demo_two_seats demo_race_world) as H.
  destruct (respond (handleBookingConfirm demo_env demo_two_seats) demo_race_world)
    as [r w'].
  destruct H as [_ H].
  apply (H None ["5"; "38"] Hreach).
  exists "38". split; [right; left; reflexivity|exact Htaken].
Defined.

Example second_seat_refused_first_seat_rolled_back :
  respond (handleBookingConfirm demo_env demo_two_seats) demo_race_world
  = ({| status := 400; body := ErrorJson "Error: Seat already booked: 38" |},
     {| db := db demo_race_world; outbox := [PaystackVerified "R2"] |}).
Proof. vm_compute. reflexivity. Qed.

(** ** Seat locks *)

Section LockRun.

(** What a lock request that resolves does, case by case. *)
Lemma handleLockSeat_run env w busId seat tripId lockId trip capacity seatKey :
  lock_request_resolves w busId seat tripId trip capacity seatKey ->
  let tripKey := trip_key trip in
  let owner := lock_owner env lockId in
  let ls1 := locks_after_cleanup env busId tripKey seatKey (seat_locks (db w)) in
  let booked :=
    includes
      (uniqueNormalizedSeatList
         (map b_seat_number (filter (confirmed_row busId tripKey) (bookings (db w))))
         capacity) seatKey in
  let granted :=
    {| status := 200;
       body := Json {| lj_lock_id := owner; lj_trip_id := tripKey;
                       lj_seat := seatKey; lj_expires_at := now env + 300 |} |} in
  respond (handleLockSeat env busId seat tripId lockId) w
  = match find (fun l => normalizes_to capacity seatKey (l_seat_number l))
               (filter (active_lock_row env busId tripKey) ls1) with
    | Some m =>
        if negb (String.eqb (owner_of m) owner)
        then (lock_error "Seat already locked by another user", with_locks w ls1)
        else if booked then (lock_error "Seat already booked", with_locks w ls1)
        else (granted, with_locks w (extend_lock (l_id m) (now env + 300) ls1))
    | None =>
        if booked then (lock_error "Seat already booked", with_locks w ls1)
        else (granted,
              with_locks w (insert_lock busId tripKey seatKey owner
                              (now env + 300) ls1))
    end.
Proof.
  intros (Hres & Hcap & Hseat) tripKey owner ls1 booked granted.
  unfold respond, handleLockSeat, try_catch. cbv zeta.
  unfold bind at 1. rewrite Hres. unfold bind at 1. rewrite Hcap. rewrite Hseat.
  fold tripKey. fold owner.
  unfold hasConfirmedSeat, listConfirmedSeatNumbersForBusTrip,
    listActiveLocksForBusTrip.
  unfold bind, run, query, ret, throw, ok.
  subst ls1. unfold locks_after_cleanup. cbv zeta.
  destruct tripKey as [t|] eqn:Et; cbn [fst snd db set_seat_locks seat_locks bookings].
  - destruct (find _ _) as [m|].
    + destruct (negb (String.eqb (owner_of m) owner)); [reflexivity|].
      subst booked. cbn [db set_seat_locks bookings].
      destruct (includes _ seatKey); reflexivity.
    + subst booked. cbn [db set_seat_locks bookings].
      destruct (includes _ seatKey); reflexivity.
  - destruct (find _ _) as [m|].
    + destruct (negb (String.eqb (owner_of m) owner)); [reflexivity|].
      subst booked. cbn [db set_seat_locks bookings].
      destruct (includes _ seatKey); reflexivity.
    + subst booked. cbn [db set_seat_locks bookings].
      destruct (includes _ seatKey); reflexivity.
Qed.

End LockRun.

Section LockState.

Lemma NoDup_map_filter {X Y} (f : X -> Y) (p : X -> bool) l :
  NoDup (map f l) -> NoDup (map f (filter p l)).
Proof.
  induction l as [|x l IH]; simpl; intros H; [constructor|].
  inversion H as [|? ? Hnotin Hrest]; subst.
  destruct (p x); simpl; [|now apply IH].
  constructor; [|now apply IH].
  intros Hin. apply Hnotin. apply in_map_iff in Hin as (y & Hy & Hin).
  apply filter_In in Hin as [Hin _]. rewrite <- Hy. now apply in_map.
Qed.

Lemma NoDup_map_inj_on {X Y} (f : X -> Y) l a b :
  NoDup (map f l) -> In a l -> In b l -> f a = f b -> a = b.
Proof.
  induction l as [|x l IH]; simpl; intros H Ha Hb E; [destruct Ha|].
  inversion H as [|? ? Hnotin Hrest]; subst.
  destruct Ha as [<-|Ha], Hb as [<-|Hb]; auto.
  - exfalso. apply Hnotin. rewrite E. now apply in_map.
  - exfalso. apply Hnotin. rewrite <- E. now apply in_map.
Qed.

Lemma NoDup_snoc {X} (l : list X) x : NoDup l -> ~ In x l -> NoDup (l ++ [x]).
Proof.
  intros Hl Hx. apply NoDup_rev in Hl.
  rewrite <- (List.rev_involutive (l ++ [x])). apply NoDup_rev.
  rewrite List.rev_app_distr. simpl. constructor; [|exact Hl].
  now rewrite <- List.in_rev.
Qed.

Lemma seat_of_lock_set_locks f d l :
  seat_of_lock (set_seat_locks f d) l = seat_of_lock d l.
Proof. reflexivity. Qed.

(** Deleting locks keeps the state of the locks. *)
Lemma locks_wf_filter now w (p : SeatLock -> bool) :
  locks_wf now (db w) ->
  locks_wf now (db (with_locks w (filter p (seat_locks (db w))))).
Proof.
  intros (Hids & Huniq & Htrips & Hactive).
  unfold locks_wf. cbn [with_locks db set_seat_locks seat_locks trip_schedules].
  repeat split.
  - now apply NoDup_map_filter.
  - intros l1 l2 k H1 H2. apply filter_In in H1 as [H1 _], H2 as [H2 _].
    now apply Huniq.
  - exact Htrips.
  - intros l t Hl. apply filter_In in Hl as [Hl _]. now apply Hactive.
Qed.

(** A later clock keeps it: the locks only expire. *)
Lemma locks_wf_later now now' d :
  now <= now' -> locks_wf now d -> locks_wf now' d.
Proof.
  intros Hle (Hids & Huniq & Htrips & Hactive). repeat split; try assumption.
  intros l1 l2 k H1 H2 Hb Ht He1 He2. apply Huniq; try assumption; lia.
Qed.

(** Extending an unexpired lock keeps it. *)
Lemma locks_wf_extend now w m expiresAt :
  locks_wf now (db w) -> In m (seat_locks (db w)) ->
  now < l_expires_at m -> now < expiresAt ->
  locks_wf now (db (with_locks w (extend_lock (l_id m) expiresAt (seat_locks (db w))))).
Proof.
  intros (Hids & Huniq & Htrips & Hactive) Hm Hlive Hnew.
  set (f := fun l =>
         if l_id l =? l_id m then
           {| l_id := l_id l; l_bus_id := l_bus_id l; l_trip_id := l_trip_id l;
              l_seat_number := l_seat_number l; l_locked_by := l_locked_by l;
              l_expires_at := expiresAt |}
         else l).
  assert (Hf : forall l, l_id (f l) = l_id l /\ l_bus_id (f l) = l_bus_id l
                         /\ l_trip_id (f l) = l_trip_id l
                         /\ l_seat_number (f l) = l_seat_number l).
  { intros l. unfold f. destruct (l_id l =? l_id m); repeat split. }
  assert (Hseat : forall l, seat_of_lock (db w) (f l) = seat_of_lock (db w) l).
  { intros l. unfold seat_of_lock. destruct (Hf l) as (_ & -> & _ & ->). reflexivity. }
  assert (Hexp : forall l, In l (seat_locks (db w)) ->
                           now < l_expires_at (f l) -> now < l_expires_at l).
  { intros l Hl. unfold f. destruct (l_id l =? l_id m) eqn:E; [|auto].
    apply Z.eqb_eq in E.
    rewrite (NoDup_map_inj_on l_id _ l m Hids Hl Hm E). auto. }
  unfold locks_wf, extend_lock. fold f.
  cbn [with_locks db set_seat_locks seat_locks trip_schedules].
  repeat split.
  - rewrite map_map. rewrite (map_ext _ l_id); [exact Hids|].
    intros l. now destruct (Hf l).
  - intros l1' l2' k H1 H2.
    apply in_map_iff in H1 as (l1 & <- & H1), H2 as (l2 & <- & H2).
    rewrite !seat_of_lock_set_locks, !Hseat.
    destruct (Hf l1) as (_ & -> & -> & _), (Hf l2) as (_ & -> & -> & _).
    intros Hb Ht He1 He2 Hk1 Hk2. f_equal.
    apply (Huniq l1 l2 k); auto.
  - exact Htrips.
  - intros l' t Hl'. apply in_map_iff in Hl' as (l & <- & Hl).
    destruct (Hf l) as (_ & -> & -> & _). now apply Hactive.
Qed.

(** Inserting a lock for a seat that no unexpired lock of the bus and trip
    holds keeps it. *)
Lemma locks_wf_insert now w busId tripKey seatKey owner expiresAt capacity :
  locks_wf now (db w) ->
  capacity_of (db w) busId = Some capacity ->
  normalizeSeatNumberRaw (Some seatKey) capacity = Some seatKey ->
  (forall l, In l (seat_locks (db w)) -> l_bus_id l = busId ->
             l_trip_id l = tripKey -> now < l_expires_at l ->
             seat_of_lock (db w) l <> Some seatKey) ->
  (forall t, tripKey = Some t ->
             exists trip, In trip (trip_schedules (db w)) /\ t_id trip = t
                          /\ t_bus_id trip = busId /\ t_status trip = "active") ->
  locks_wf now
    (db (with_locks w (insert_lock busId tripKey seatKey owner expiresAt
                         (seat_locks (db w))))).
Proof.
  intros (Hids & Huniq & Htrips & Hactive) Hcap Hcanon Hfree Htrip.
  set (new := {| l_id := next_id (map l_id (seat_locks (db w))); l_bus_id := busId;
                 l_trip_id := tripKey; l_seat_number := seatKey;
                 l_locked_by := Some owner; l_expires_at := expiresAt |}).
  assert (Hnew : seat_of_lock (db w) new = Some seatKey).
  { unfold seat_of_lock. cbn [new l_bus_id l_seat_number]. now rewrite Hcap. }
  unfold locks_wf, insert_lock. fold new.
  cbn [with_locks db set_seat_locks seat_locks trip_schedules].
  repeat split.
  - rewrite map_app. apply NoDup_snoc; [exact Hids|].
    intros Hin. apply next_id_fresh in Hin. cbn [new l_id] in Hin. lia.
  - intros l1 l2 k H1 H2. rewrite !seat_of_lock_set_locks.
    apply in_app_or in H1 as [H1|[<-|[]]], H2 as [H2|[<-|[]]].
    + now apply Huniq.
    + intros Hb Ht He1 _ Hk1 Hk2. exfalso.
      rewrite Hnew in Hk2. injection Hk2 as <-.
      now apply (Hfree l1 H1 Hb Ht He1).
    + intros Hb Ht _ He2 Hk1 Hk2. exfalso.
      rewrite Hnew in Hk1. injection Hk1 as <-.
      apply (Hfree l2 H2); auto.
    + reflexivity.
  - exact Htrips.
  - intros l t Hl. apply in_app_or in Hl as [Hl|[<-|[]]]; [now apply Hactive|].
    cbn [new l_trip_id l_bus_id]. apply Htrip.
Qed.

End LockState.

Section LockRequest.

Lemma order_by_id_desc_first_fold l : forall best,
  let result :=
    fold_left
      (fun best r =>
         match best with
         | None => Some r
         | Some b => if t_id b <? t_id r then Some r else Some b
         end) l best in
  (forall x, In x l -> exists r, result = Some r /\ t_id x <= t_id r)
  /\ (forall b, best = Some b -> exists r, result = Some r /\ t_id b <= t_id r)
  /\ (forall r, result = Some r -> In r l \/ best = Some r).
Proof.
  induction l as [|a l IH]; intros best; cbn zeta.
  - simpl. split; [intros x []|]. split; [|auto].
    intros b ->. exists b. split; [reflexivity|lia].
  - simpl fold_left.
    set (best' := match best with
                  | None => Some a
                  | Some b => if t_id b <? t_id a then Some a else Some b
                  end).
    destruct (IH best') as (Hin & Hbest & Hfrom).
    assert (Ha : exists r, best' = Some r /\ t_id a <= t_id r
                           /\ forall b, best = Some b -> t_id b <= t_id r).
    { unfold best'. destruct best as [b|].
      - destruct (t_id b <? t_id a) eqn:E.
        + exists a. repeat split; [lia|]. intros ? [= <-]. lia.
        + exists b. repeat split; [lia|]. intros ? [= <-]. lia.
      - exists a. repeat split; [lia|discriminate]. }
    destruct Ha as (r0 & E0 & Ha0 & Hb0).
    destruct (Hbest r0 E0) as (r & Er & Hr).
    repeat split.
    + intros x [<-|Hx]; [|now apply Hin]. exists r. split; [exact Er|lia].
    + intros b Hb. exists r. split; [exact Er|]. specialize (Hb0 b Hb). lia.
    + intros r' Hr'. destruct (Hfrom r' Hr') as [H|H]; [left; now right|].
      unfold best' in H. destruct best as [b|].
      * destruct (t_id b <? t_id a); injection H as <-; [left; now left|now right].
      * injection H as <-. left; now left.
Qed.

Lemma order_by_id_desc_first_max l x :
  In x l ->
  exists r, order_by_id_desc_first l = Some r /\ In r l /\ t_id x <= t_id r.
Proof.
  intros Hx. destruct (order_by_id_desc_first_fold l None) as (Hin & _ & Hfrom).
  destruct (Hin x Hx) as (r & Er & Hr). exists r. split; [exact Er|].
  split; [|exact Hr]. destruct (Hfrom r Er) as [H|H]; [exact H|discriminate].
Qed.

Lemma order_by_id_desc_first_In l r :
  order_by_id_desc_first l = Some r -> In r l.
Proof.
  intros Er. destruct (order_by_id_desc_first_fold l None) as (_ & _ & Hfrom).
  destruct (Hfrom r Er) as [H|H]; [exact H|discriminate].
Qed.

(** The trip a request resolves to is an active trip of the bus. *)
Lemma resolveTripForBus_active busId tripId w trip w' :
  resolveTripForBus busId tripId w = (Ret (Some trip), w') ->
  In trip (trip_schedules (db w)) /\ t_bus_id trip = busId
  /\ t_status trip = "active".
Proof.
  unfold resolveTripForBus, bind, query, ret, throw.
  destruct (truthy tripId) as [t|].
  - destruct (find _ _) as [r|] eqn:F; [|discriminate].
    destruct (String.eqb (t_status r) "active") eqn:S; [|discriminate].
    intros [= <- _]. apply find_some in F as [Hin Hp].
    apply andb_true_iff in Hp as [_ Hb]. apply Z.eqb_eq in Hb.
    apply String.eqb_eq in S. auto.
  - intros [= E _]. apply order_by_id_desc_first_In in E.
    apply filter_In in E as [Hin Hp].
    apply andb_true_iff in Hp as [Hb S]. apply Z.eqb_eq in Hb.
    apply String.eqb_eq in S. auto.
Qed.

Lemma trip_key_Some trip t :
  trip_key trip = Some t -> exists r, trip = Some r /\ t_id r = t.
Proof.
  unfold trip_key. destruct trip as [r|]; [|discriminate]. simpl.
  destruct (t_id r) eqn:E; [discriminate| |]; intros [= <-]; eauto.
Qed.

(** A request without a trip key is a request on a bus without active
    trips. *)
Lemma resolveTripForBus_no_trip busId tripId w trip w' :
  resolveTripForBus busId (truthy tripId) w = (Ret trip, w') ->
  trip_key trip = None ->
  (forall t, In t (trip_schedules (db w)) -> 0 < t_id t) ->
  forall r, In r (trip_schedules (db w)) -> t_bus_id r = busId ->
            t_status r = "active" -> False.
Proof.
  unfold resolveTripForBus, bind, query, ret, throw.
  rewrite truthy_idempotent.
  destruct (truthy tripId) as [t|] eqn:Et.
  - destruct (find _ _) as [r0|] eqn:F; [|discriminate].
    destruct (String.eqb (t_status r0) "active"); [|discriminate].
    intros [= <- _] Hkey _. apply find_some in F as [_ Hp].
    apply andb_true_iff in Hp as [Hid _]. apply Z.eqb_eq in Hid.
    pose proof (truthy_idempotent tripId) as Hi. rewrite Et in Hi.
    unfold trip_key in Hkey. simpl option_map in Hkey.
    rewrite Hid, Hi in Hkey. discriminate.
  - intros [= E _] Hkey Hpos r Hr Hb Hs.
    destruct (order_by_id_desc_first_max
                (filter (fun r => (t_bus_id r =? busId)
                                  && String.eqb (t_status r) "active")
                        (trip_schedules (db w))) r) as (m & Em & Hm & Hle).
    { apply filter_In. split; [exact Hr|].
      apply andb_true_iff. split; [now apply Z.eqb_eq|now apply String.eqb_eq]. }
    rewrite Em in E. subst trip. specialize (Hpos r Hr).
    unfold trip_key in Hkey. simpl in Hkey.
    destruct (t_id m); try discriminate; lia.
Qed.

(** The readers of a lock request read the trips and the buses only. *)
Lemma resolveTripForBus_frame busId tripId w w2 r :
  trip_schedules (db w2) = trip_schedules (db w) ->
  resolveTripForBus busId tripId w = (r, w) ->
  resolveTripForBus busId tripId w2 = (r, w2).
Proof.
  intros H. unfold resolveTripForBus, bind, query, ret, throw.
  destruct (truthy tripId) as [t|]; cbv beta; rewrite H.
  - destruct (find _ _) as [r0|]; [|intros [= <-]; reflexivity].
    destruct (String.eqb (t_status r0) "active"); intros [= <-]; reflexivity.
  - intros [= <-]. reflexivity.
Qed.

Lemma getBusCapacity_frame busId w w2 r :
  buses (db w2) = buses (db w) ->
  getBusCapacity busId w = (r, w) -> getBusCapacity busId w2 = (r, w2).
Proof.
  intros H. unfold getBusCapacity, bind, query, ret, throw. cbv beta. rewrite H.
  destruct (find _ _) as [b|]; intros [= <-]; reflexivity.
Qed.

Lemma getBusCapacity_capacity_of busId w capacity w' :
  getBusCapacity busId w = (Ret capacity, w') ->
  capacity_of (db w) busId = Some capacity.
Proof.
  unfold getBusCapacity, capacity_of, bind, query, ret, throw.
  destruct (find _ _) as [b|]; [|discriminate]. now intros [= <- _].
Qed.

Lemma lock_request_resolves_frame w ls busId seat tripId trip capacity seatKey :
  lock_request_resolves w busId seat tripId trip capacity seatKey ->
  lock_request_resolves (with_locks w ls) busId seat tripId trip capacity seatKey.
Proof.
  intros (Ht & Hc & Hn). repeat split; [| |exact Hn].
  - now apply (resolveTripForBus_frame _ _ w).
  - now apply (getBusCapacity_frame _ w).
Qed.

End LockRequest.

Section LockConflict.

Lemma normalizes_to_spec capacity seatKey seat_number :
  normalizes_to capacity seatKey seat_number = true
  <-> normalizeSeatNumberRaw (Some seat_number) capacity = Some seatKey.
Proof.
  unfold normalizes_to.
  destruct (normalizeSeatNumberRaw (Some seat_number) capacity) as [k|]; simpl.
  - rewrite String.eqb_eq. split; congruence.
  - split; discriminate.
Qed.

Lemma locks_after_cleanup_In env busId tripKey seatKey ls l :
  In l (locks_after_cleanup env busId tripKey seatKey ls) -> In l ls.
Proof.
  unfold locks_after_cleanup, delete_other_trip_locks, delete_expired_locks.
  destruct tripKey as [t|]; intros H;
    repeat (apply filter_In in H as [H _]); exact H.
Qed.

(** The cleanup deletes no unexpired lock of the trip of the request. *)
Lemma locks_after_cleanup_keeps env busId tripKey seatKey ls l :
  In l ls -> l_trip_id l = tripKey -> now env < l_expires_at l ->
  In l (locks_after_cleanup env busId tripKey seatKey ls).
Proof.
  intros Hl Ht He.
  assert (In l (delete_expired_locks env busId seatKey (legacy_or_self seatKey) ls)).
  { apply filter_In. split; [exact Hl|].
    replace (l_expires_at l <=? now env) with false by lia.
    now rewrite andb_false_r. }
  unfold locks_after_cleanup. destruct tripKey as [t|]; [|assumption].
  apply filter_In. split; [assumption|].
  rewrite Ht. simpl eqb_opt. rewrite Z.eqb_refl. simpl. now rewrite andb_false_r.
Qed.

Lemma locks_wf_cleanup env w busId tripKey seatKey :
  locks_wf (now env) (db w) ->
  locks_wf (now env)
    (db (with_locks w
           (locks_after_cleanup env busId tripKey seatKey (seat_locks (db w))))).
Proof.
  intros H. unfold locks_after_cleanup, delete_other_trip_locks.
  pose proof (locks_wf_filter (now env) w
    (fun l => negb ((l_bus_id l =? busId)
                    && seat_is seatKey (legacy_or_self seatKey) (l_seat_number l)
                    && (l_expires_at l <=? now env))) H) as H1.
  destruct tripKey as [t|]; [|exact H1].
  exact (locks_wf_filter (now env) _ _ H1).
Qed.

(** On a bus without active trips every lock is a lock without a trip. *)
Lemma lock_without_trip env w busId tripId trip l :
  locks_wf (now env) (db w) ->
  resolveTripForBus busId (truthy tripId) w = (Ret trip, w) ->
  trip_key trip = None ->
  In l (seat_locks (db w)) -> l_bus_id l = busId -> l_trip_id l = None.
Proof.
  intros (_ & _ & Hpos & Hactive) Hres Hkey Hl Hb.
  destruct (l_trip_id l) as [t|] eqn:Et; [exfalso|reflexivity].
  destruct (Hactive l t Hl Et) as (r & Hr & _ & Hrb & Hrs).
  apply (resolveTripForBus_no_trip _ _ _ _ _ Hres Hkey Hpos r Hr); congruence.
Qed.



End LockConflict.

Section LockOutcome.

(** A request that does not resolve is refused and changes nothing. *)
Lemma handleLockSeat_cases env w busId seat tripId lockId :
  (exists trip capacity seatKey,
     lock_request_resolves w busId seat tripId trip capacity seatKey)
  \/ (exists e,
        respond (handleLockSeat env busId seat tripId lockId) w
        = ({| status := 400; body := ErrorJson e |}, w)).
Proof.
  pose proof (resolveTripForBus_reads busId (truthy tripId) w) as R1.
  pose proof (getBusCapacity_reads busId w) as R2.
  unfold respond, handleLockSeat, try_catch. cbv zeta. unfold bind at 1.
  destruct (resolveTripForBus busId (truthy tripId) w) as [[trip|e] w1] eqn:E1;
    simpl in R1; subst w1; [|right; eauto].
  unfold bind at 1.
  destruct (getBusCapacity busId w) as [[capacity|e] w1] eqn:E2;
    simpl in R2; subst w1; [|right; eauto].
  destruct (normalizeSeatNumberRaw seat capacity) as [seatKey|] eqn:Hseat.
  - left. exists trip, capacity, seatKey. repeat split; assumption.
  - right. unfold throw. eauto.
Qed.

Lemma find_lock_None env w busId capacity tripKey seatKey ls :
  truthy tripKey = tripKey ->
  capacity_of (db w) busId = Some capacity ->
  find (fun l => normalizes_to capacity seatKey (l_seat_number l))
       (filter (active_lock_row env busId tripKey) ls) = None ->
  forall l, In l ls -> l_bus_id l = busId -> l_trip_id l = tripKey ->
            now env < l_expires_at l -> seat_of_lock (db w) l <> Some seatKey.
Proof.
  intros Hkey Hcap F l Hl Hb Ht He Hs.
  assert (Hin : In l (filter (active_lock_row env busId tripKey) ls)).
  { apply filter_In. split; [exact Hl|].
    apply (active_lock_row_spec _ _ _ _ Hkey). repeat split; auto.
    rewrite Ht. unfold trip_matches. now destruct tripKey. }
  pose proof (find_none _ _ F l Hin) as Hn. cbv beta in Hn.
  unfold seat_of_lock in Hs. rewrite Hb, Hcap in Hs.
  apply normalizes_to_spec in Hs. congruence.
Qed.

(** The handler keeps the state of the locks, whatever the request. *)
Lemma handleLockSeat_keeps_locks_wf env w busId seat tripId lockId :
  locks_wf (now env) (db w) ->
  locks_wf (now env)
    (db (snd (respond (handleLockSeat env busId seat tripId lockId) w))).
Proof.
  intros Hwf.
  destruct (handleLockSeat_cases env w busId seat tripId lockId)
    as [(trip & capacity & seatKey & Hreq)|(e & ->)]; [|exact Hwf].
  rewrite (handleLockSeat_run _ _ _ _ _ _ _ _ _ Hreq). cbv zeta.
  pose proof (locks_wf_cleanup env w busId (trip_key trip) seatKey Hwf) as Hwf1.
  set (ls1 := locks_after_cleanup env busId (trip_key trip) seatKey
                (seat_locks (db w))) in *.
  destruct Hreq as (Hres & Hcap & Hseat).
  destruct (find _ _) as [m|] eqn:F.
  - destruct (negb _); [exact Hwf1|].
    destruct (includes _ _); [exact Hwf1|]. cbn [snd].
    apply find_some in F as [Hm _]. apply filter_In in Hm as [Hm Hrow].
    apply (active_lock_row_spec _ _ _ _ (truthy_trip_key trip)) in Hrow
      as (_ & _ & Hlive).
    refine (locks_wf_extend (now env) (with_locks w ls1) m (now env + 300)
              Hwf1 Hm Hlive _). lia.
  - destruct (includes _ _); [exact Hwf1|]. cbn [snd].
    refine (locks_wf_insert (now env) (with_locks w ls1) busId (trip_key trip)
              seatKey (lock_owner env lockId) (now env + 300) capacity
              Hwf1 _ _ _ _).
    + exact (getBusCapacity_capacity_of _ _ _ _ Hcap).
    + exact (normalize_idempotent _ _ _ Hseat).
    + apply (find_lock_None env (with_locks w ls1) busId capacity (trip_key trip)
               seatKey ls1 (truthy_trip_key trip)); [|exact F].
      exact (getBusCapacity_capacity_of _ _ _ _ Hcap).
    + intros t Ht. apply trip_key_Some in Ht as (r & -> & Hid).
      apply resolveTripForBus_active in Hres as (Hin & Hb & Hs).
      exists r. repeat split; assumption.
Qed.


(** A request for a seat that no other session holds and that is not sold is
    granted. *)
Lemma handleLockSeat_free env w busId seat tripId lockId trip capacity seatKey :
  locks_wf (now env) (db w) ->
  lock_request_resolves w busId seat tripId trip capacity seatKey ->
  (forall l, holds_seat env (db w) busId (trip_key trip) seatKey l ->
             owner_of l = lock_owner env lockId) ->
  ~ booked_seat (db w) busId (trip_key trip) capacity seatKey ->
  status (fst (respond (handleLockSeat env busId seat tripId lockId) w)) = 200.
Proof.
  intros Hwf Hreq Hfree Hbooked.
  rewrite (handleLockSeat_run _ _ _ _ _ _ _ _ _ Hreq). cbv zeta.
  assert (Hinc : includes
            (uniqueNormalizedSeatList
               (map b_seat_number
                  (filter (confirmed_row busId (trip_key trip)) (bookings (db w))))
               capacity) seatKey = false).
  { apply includes_false. intros Hin. apply Hbooked.
    now apply (booked_list_spec _ _ _ _ _ (truthy_trip_key trip)). }
  rewrite Hinc.
  destruct Hreq as (Hres & Hcap & Hseat).
  pose proof (getBusCapacity_capacity_of _ _ _ _ Hcap) as Hcapacity.
  destruct (find _ _) as [m|] eqn:F; [|reflexivity].
  apply find_some in F as [Hm Hn]. apply filter_In in Hm as [Hm Hrow].
  apply locks_after_cleanup_In in Hm.
  apply (active_lock_row_spec _ _ _ _ (truthy_trip_key trip)) in Hrow
    as (Hb & Ht & Hlive).
  apply normalizes_to_spec in Hn.
  rewrite (Hfree m), String.eqb_refl; [reflexivity|].
  repeat split; auto.
  - destruct (trip_key trip) as [t|] eqn:Ek; [exact Ht|].
    now apply (lock_without_trip env w busId tripId trip).
  - unfold seat_of_lock. now rewrite Hb, Hcapacity.
Qed.

End LockOutcome.

Lemma demo_db_locks_wf : locks_wf (now demo_env) (db demo_world).
Proof.
  unfold locks_wf. cbn [demo_world db demo_db seat_locks trip_schedules map l_id].
  split; [|split; [|split]].
  - repeat constructor; simpl; intuition discriminate.
  - intros l1 l2 k [<-|[<-|[]]] [<-|[<-|[]]];
      cbn [l_bus_id l_trip_id]; intros Hb Ht; try reflexivity; discriminate.
  - intros t [<-|[]]. cbn [t_id]. lia.
  - intros l t [<-|[<-|[]]]; cbn [l_trip_id l_bus_id]; intros E; [discriminate|].
    injection E as <-. eexists. split; [left; reflexivity|]. repeat split.
Qed.



(** Session LA holds seat 5 of bus 1: a request of session LC for the seat,
    under its legacy key, is refused, and the lock stays. *)
Example held_seat_is_refused :
  respond (handleLockSeat demo_env 1 (Some "a5") None (Some "LC")) demo_world
  = (lock_error "Seat already locked by another user", demo_world).
Proof. vm_compute. reflexivity. Qed.

(** The holder itself extends its lock. *)
Example holder_extends_its_lock :
  let (r, w) := respond (handleLockSeat demo_env 1 (Some "5") None (Some "LA"))
                  demo_world in
  status r = 200
  /\ map (fun l => (l_id l, l_expires_at l)) (seat_locks (db w))
     = [(1, 1300); (2, 1250)].
Proof. vm_compute. split; reflexivity. Qed.

(** Two sessions ask for seat 7 of bus 1, one after the other: the first is
    granted, the second refused, and one lock of the seat exists. *)
Example two_requests_for_one_seat :
  let (rA, wA) := respond (handleLockSeat demo_env 1 (Some "7") None (Some "A"))
                    demo_world in
  let (rB, wB) := respond (handleLockSeat demo_env 1 (Some "7") None (Some "B")) wA in
  status rA = 200
  /\ rB = lock_error "Seat already locked by another user"
  /\ map (fun l => (l_seat_number l, l_locked_by l))
         (filter (fun l => l_bus_id l =? 1) (seat_locks (db wB)))
     = [("5", Some "LA"); ("7", Some "A")].
Proof. vm_compute. repeat split; reflexivity. Qed.

(** ** The other writers of the locks

    Only [handleLockSeat] inserts locks.  Releasing a seat and confirming a
    booking delete locks, and the manual booking of the administration leaves
    them alone: they keep the state of the locks too. *)

Section LockWriters.

Lemma only_deletes_refl w : only_deletes_locks w w.
Proof.
  split; [reflexivity|]. split; [reflexivity|].
  exists (fun _ => true). symmetry. now apply filter_all.
Qed.

Lemma only_deletes_trans w1 w2 w3 :
  only_deletes_locks w1 w2 -> only_deletes_locks w2 w3 ->
  only_deletes_locks w1 w3.
Proof.
  intros (Ht1 & Hc1 & p & Hp) (Ht2 & Hc2 & q & Hq).
  split; [congruence|]. split; [intros bus; now rewrite Hc2|].
  exists (fun l => p l && q l). now rewrite Hq, Hp, filter_filter.
Qed.

Lemma only_deletes_keeps_locks_wf now w w' :
  only_deletes_locks w w' -> locks_wf now (db w) -> locks_wf now (db w').
Proof.
  intros (Ht & Hc & p & Hp) (Hids & Huniq & Hpos & Hactive).
  assert (Hseat : forall l, seat_of_lock (db w') l = seat_of_lock (db w) l).
  { intros l. unfold seat_of_lock. now rewrite Hc. }
  unfold locks_wf. rewrite Hp, Ht. repeat split.
  - now apply NoDup_map_filter.
  - intros l1 l2 k H1 H2. apply filter_In in H1 as [H1 _], H2 as [H2 _].
    rewrite !Hseat. now apply Huniq.
  - exact Hpos.
  - intros l t Hl. apply filter_In in Hl as [Hl _]. now apply Hactive.
Qed.

Lemma find_map_same {X} (p : X -> bool) (f : X -> X) l :
  (forall x, p (f x) = p x) -> find p (map f l) = option_map f (find p l).
Proof.
  intros H. induction l as [|x l IH]; simpl; [reflexivity|].
  rewrite H. now destruct (p x).
Qed.

Lemma only_deletes_update_available_seats busId remaining :
  keeps only_deletes_locks (update_available_seats busId remaining).
Proof.
  intros w. unfold update_available_seats, run. cbn [snd db].
  split; [reflexivity|]. split.
  - intros bus. unfold capacity_of, set_buses. cbn [buses db].
    rewrite find_map_same.
    + destruct (find _ (buses (db w))) as [b|]; [|reflexivity]. simpl.
      now destruct (bus_id b =? busId).
    + intros b. now destruct (bus_id b =? busId).
  - exists (fun _ => true). symmetry. now apply filter_all.
Qed.

Lemma only_deletes_insert payload :
  keeps only_deletes_locks (insertConfirmedBookingAtomic payload).
Proof.
  intros w. unfold insertConfirmedBookingAtomic, sql.
  destruct (existsb _ _); cbn [snd db]; (split; [reflexivity|]);
    (split; [reflexivity|]);
    exists (fun _ => true); symmetry; now apply filter_all.
Qed.

Lemma only_deletes_delete_locks (p : SeatLock -> bool) :
  keeps only_deletes_locks (run (set_seat_locks (filter p))).
Proof.
  intros w. unfold run. cbn [snd db].
  split; [reflexivity|]. split; [reflexivity|]. now exists p.
Qed.

End LockWriters.

(** Splits a goal [keeps only_deletes_locks m] along the structure of [m]; a
    step that writes another table, or sends a message, is closed by
    conversion. *)
Ltac only_deletes_auto :=
  repeat first
    [ apply keeps_ret; exact only_deletes_refl
    | apply keeps_throw; exact only_deletes_refl
    | apply keeps_query; exact only_deletes_refl
    | apply keeps_try_catch
    | apply only_deletes_update_available_seats
    | apply only_deletes_insert
    | apply only_deletes_delete_locks
    | apply keeps_for_each;
        [exact only_deletes_refl | exact only_deletes_trans | intros ?]
    | apply keeps_bind; [exact only_deletes_trans | | intros ?]
    | match goal with
      | |- keeps _ (match ?x with _ => _ end) => destruct x eqn:?
      | |- keeps _ (if ?b then _ else _) => destruct b eqn:?
      end
    | (intros ?w; split; [reflexivity|]; split; [reflexivity|];
       exists (fun _ => true); symmetry; apply filter_all; reflexivity) ].

Section LockWritersHandlers.

Lemma handleUnlockSeat_only_deletes env busId seat tripId lockId :
  keeps only_deletes_locks (handleUnlockSeat env busId seat tripId lockId).
Proof.
  unfold handleUnlockSeat, ok. cbv zeta.
  only_deletes_auto;
    try (apply keeps_reads; [exact only_deletes_refl|]);
    auto using resolveTripForBus_reads, getBusCapacity_reads.
Qed.

Lemma insert_seats_only_deletes passenger bus tripKey paid ref single seatKeys :
  forall created,
    keeps only_deletes_locks
      (insert_seats passenger bus tripKey paid ref single seatKeys created).
Proof.
  induction seatKeys as [|k rest IH]; intros created; simpl.
  - apply keeps_ret, only_deletes_refl.
  - apply keeps_bind; [exact only_deletes_trans| |intros r].
    + apply only_deletes_insert.
    + destruct (negb (inserted r)); [|apply IH].
      unfold delete_booking, delete_passenger. only_deletes_auto.
Qed.

Lemma handleBookingConfirm_only_deletes env data :
  keeps only_deletes_locks (handleBookingConfirm env data).
Proof.
  unfold handleBookingConfirm. apply keeps_try_catch.
  apply keeps_bind; [exact only_deletes_trans| |intros [[trip capacity] seatKeys]].
  { apply keeps_reads; [exact only_deletes_refl|apply confirm_validate_reads]. }
  apply keeps_bind; [exact only_deletes_trans| |intros existingRows].
  { only_deletes_auto. }
  destruct existingRows as [|first rest].
  - apply keeps_bind; [exact only_deletes_trans| |intros _].
    { unfold confirm_verify, verifyPaystackTransaction. only_deletes_auto. }
    apply keeps_bind; [exact only_deletes_trans| |intros ownedLocks].
    { apply keeps_reads; [exact only_deletes_refl|apply owned_locks_reads]. }
    unfold confirm_commit. cbv zeta.
    apply keeps_bind; [exact only_deletes_trans| |intros passengerId].
    { unfold insert_passenger. only_deletes_auto. }
    apply keeps_bind; [exact only_deletes_trans| |intros createdBookingIds].
    { apply insert_seats_only_deletes. }
    unfold route_name_of, sendBookingToGAS, saveReceiptForBooking, sendSMS, ok.
    only_deletes_auto.
  - unfold confirm_duplicate, getReceiptByBookingId, ok. only_deletes_auto.
Qed.

(** Releasing a seat and confirming a booking keep the state of the locks. *)
Lemma lock_deleting_handlers_keep_locks_wf env w :
  locks_wf (now env) (db w) ->
  (forall busId seat tripId lockId,
     locks_wf (now env)
       (db (snd (respond (handleUnlockSeat env busId seat tripId lockId) w))))
  /\ (forall data,
        locks_wf (now env)
          (db (snd (respond (handleBookingConfirm env data) w)))).
Proof.
  intros Hwf. split; intros; rewrite snd_respond;
    eapply only_deletes_keeps_locks_wf; try exact Hwf.
  - apply handleUnlockSeat_only_deletes.
  - apply handleBookingConfirm_only_deletes.
Qed.

End LockWritersHandlers.

(* ================================================================== *)
(** * Further properties of the worker *)

(** ** The seat key normaliser *)

Section NormaliserFacts.

Lemma upper_char_idempotent c : Js.upper_char (Js.upper_char c) = Js.upper_char c.
Proof. destruct c as [[|] [|] [|] [|] [|] [|] [|] [|]]; reflexivity. Qed.

Lemma is_space_upper_char c : Js.is_space (Js.upper_char c) = Js.is_space c.
Proof. destruct c as [[|] [|] [|] [|] [|] [|] [|] [|]]; reflexivity. Qed.

Lemma toUpperCase_idempotent s :
  Js.toUpperCase (Js.toUpperCase s) = Js.toUpperCase s.
Proof.
  induction s as [|c r IH]; simpl; [reflexivity|].
  now rewrite upper_char_idempotent, IH.
Qed.

Lemma trimStart_toUpperCase s :
  Js.trimStart (Js.toUpperCase s) = Js.toUpperCase (Js.trimStart s).
Proof.
  induction s as [|c r IH]; simpl; [reflexivity|].
  rewrite is_space_upper_char. now destruct (Js.is_space c).
Qed.

Lemma trimEnd_toUpperCase s :
  Js.trimEnd (Js.toUpperCase s) = Js.toUpperCase (Js.trimEnd s).
Proof.
  induction s as [|c r IH]; simpl; [reflexivity|].
  rewrite IH, is_space_upper_char.
  destruct (Js.trimEnd r); simpl; [|reflexivity].
  now destruct (Js.is_space c).
Qed.

Lemma trim_toUpperCase s : Js.trim (Js.toUpperCase s) = Js.toUpperCase (Js.trim s).
Proof. unfold Js.trim. now rewrite trimStart_toUpperCase, trimEnd_toUpperCase. Qed.

Lemma trimEnd_idempotent s : Js.trimEnd (Js.trimEnd s) = Js.trimEnd s.
Proof.
  induction s as [|c r IH]; simpl; [reflexivity|].
  destruct (Js.trimEnd r) as [|x r'] eqn:E.
  - destruct (Js.is_space c) eqn:S; simpl; [reflexivity|]. now rewrite S.
  - simpl. simpl in IH. now rewrite IH.
Qed.

Lemma trimStart_head s c r :
  Js.trimStart s = String c r -> Js.is_space c = false.
Proof.
  induction s as [|x s IH]; simpl; [discriminate|].
  destruct (Js.is_space x) eqn:S; [exact IH|]. now intros [= <- _].
Qed.

Lemma trimEnd_head c r :
  Js.is_space c = false -> exists r', Js.trimEnd (String c r) = String c r'.
Proof.
  intros S. simpl. destruct (Js.trimEnd r); [|eauto]. rewrite S. eauto.
Qed.

Lemma trim_idempotent s : Js.trim (Js.trim s) = Js.trim s.
Proof.
  unfold Js.trim. destruct (Js.trimStart s) as [|c r] eqn:E; [reflexivity|].
  pose proof (trimStart_head _ _ _ E) as S.
  destruct (trimEnd_head c r S) as (r' & E').
  rewrite E'. simpl Js.trimStart. rewrite S, <- E'. apply trimEnd_idempotent.
Qed.

Lemma trim_no_space_digits c r :
  Js.is_space c = false -> Js.all_digits r = true ->
  Js.trim (String c r) = String c r.
Proof.
  intros S Hr. unfold Js.trim. simpl Js.trimStart. rewrite S.
  simpl. rewrite (trimEnd_digits r Hr). destruct r; [|reflexivity].
  now rewrite S.
Qed.

End NormaliserFacts.

(** X1.  What the normaliser answers is a canonical seat of the bus, the
    decimal string of a number from 1 to the capacity (50 when the capacity
    is 0), and a canonical seat is its own normal form: normalising twice
    is normalising once. *)
Theorem normalized_seat_is_canonical (v : option string) (capacity : Z) (k : string) :
  normalizeSeatNumberRaw v capacity = Some k ->
  (exists n, 1 <= n <= capacity_or_50 capacity /\ k = Js.String_of n)
  /\ normalizeSeatNumberRaw (Some k) capacity = Some k.
Proof.
  intros H. split.
  - exact (normalize_canonical v capacity k H).
  - exact (normalize_idempotent v capacity k H).
Qed.

Lemma normalized_seat_is_canonical_witness :
  normalizeSeatNumberRaw (Some " d08 ") 50 = Some "38"
  /\ (exists n, 1 <= n <= capacity_or_50 50 /\ "38" = Js.String_of n)
  /\ normalizeSeatNumberRaw (Some "38") 50 = Some "38".
Proof.
  split; [reflexivity|].
  apply (normalized_seat_is_canonical (Some " d08 ") 50 "38"). reflexivity.
Defined.

(** X2.  A seat key that a bus accepts is accepted, as the same seat, by
    every bus of at least that capacity. *)
Theorem normalize_accepts_at_larger_capacity (v : option string) (c1 c2 : Z)
  (k : string) :
  normalizeSeatNumberRaw v c1 = Some k ->
  capacity_or_50 c1 <= capacity_or_50 c2 ->
  normalizeSeatNumberRaw v c2 = Some k.
Proof.
  intros H Hle. destruct (normalize_canonical v c1 k H) as (n & Hn & ->).
  apply (normalize_change_capacity v c1 c2 n H); lia.
Qed.

Lemma normalize_accepts_at_larger_capacity_witness :
  normalizeSeatNumberRaw (Some "C7") 30 = Some "27"
  /\ normalizeSeatNumberRaw (Some "C7") 0 = Some "27".
Proof.
  split; [reflexivity|].
  apply (normalize_accepts_at_larger_capacity (Some "C7") 30 0 "27");
    [reflexivity|vm_compute; discriminate].
Defined.

(** X3.  The normaliser reads a seat key without its surrounding white
    space and without regard to the case of its letters. *)
Theorem normalize_ignores_case_and_blanks (v : string) (capacity : Z) :
  normalizeSeatNumberRaw (Some (Js.trim v)) capacity
  = normalizeSeatNumberRaw (Some v) capacity
  /\ normalizeSeatNumberRaw (Some (Js.toUpperCase v)) capacity
     = normalizeSeatNumberRaw (Some v) capacity.
Proof.
  unfold normalizeSeatNumberRaw. split.
  - now rewrite trim_idempotent.
  - now rewrite trim_toUpperCase, toUpperCase_idempotent.
Qed.

(** X4.  The tolerated prefix [L] and leading zeros do not change the seat
    that a string of digits names. *)
Theorem normalize_ignores_prefix_and_zeros (digits : string) (capacity : Z) :
  Js.all_digits digits = true -> digits <> "" ->
  normalizeSeatNumberRaw (Some (String "L" digits)) capacity
  = normalizeSeatNumberRaw (Some digits) capacity
  /\ normalizeSeatNumberRaw (Some (String "0" digits)) capacity
     = normalizeSeatNumberRaw (Some digits) capacity.
Proof.
  intros Hd Hne. destruct digits as [|c r]; [now destruct Hne|].
  simpl in Hd. apply andb_prop in Hd as [Hc Hr].
  assert (Hall : Js.all_digits (String c r) = true) by (simpl; now rewrite Hc, Hr).
  assert (HL : match String c r with
               | String "L"%char r0 => r0
               | _ => String c r
               end = String c r).
  { pose proof (digit_not_L c Hc) as H.
    destruct c as [[|] [|] [|] [|] [|] [|] [|] [|]]; try reflexivity.
    now destruct H. }
  unfold normalizeSeatNumberRaw.
  rewrite (trim_digits c r Hc Hr), (toUpperCase_digits _ Hall).
  split.
  - rewrite (trim_no_space_digits "L" (String c r) eq_refl Hall).
    change (Js.toUpperCase (String "L" (String c r)))
      with (String "L" (Js.toUpperCase (String c r))).
    rewrite (toUpperCase_digits _ Hall).
    unfold match_numeric. rewrite HL, Hall. reflexivity.
  - rewrite (trim_digits "0" (String c r) eq_refl Hall).
    rewrite (toUpperCase_digits (String "0" (String c r)))
      by (simpl; now rewrite Hc, Hr).
    unfold match_numeric. rewrite HL.
    change (Js.all_digits (String "0" (String c r)))
      with (Js.all_digits (String c r)).
    rewrite Hall. reflexivity.
Qed.

Lemma normalize_ignores_prefix_and_zeros_witness :
  normalizeSeatNumberRaw (Some "L038") 50 = normalizeSeatNumberRaw (Some "038") 50
  /\ normalizeSeatNumberRaw (Some "0038") 50 = normalizeSeatNumberRaw (Some "038") 50.
Proof.
  apply (normalize_ignores_prefix_and_zeros "038" 50); [reflexivity|discriminate].
Defined.

(** X5.  Different seats have different legacy keys (for the seats whose
    row letter is one character, 1 to 630), and a legacy key is never a
    canonical key: the two spellings that the conditional insert and the
    lock cleanup compare do not collide. *)
Theorem legacy_keys_are_distinct (m n : Z) :
  1 <= m <= 630 -> 1 <= n <= 630 ->
  (canonicalSeatToLegacy (Js.String_of m) = canonicalSeatToLegacy (Js.String_of n) ->
   m = n)
  /\ canonicalSeatToLegacy (Js.String_of m) <> Some (Js.String_of n).
Proof.
  intros Hm Hn. split.
  - rewrite (canonicalSeatToLegacy_ascii m Hm), (canonicalSeatToLegacy_ascii n Hn).
    assert (Hrm : 0 <= (m - 1) / 10 < 63).
    { split; [apply Z.div_pos; lia|apply Z.div_lt_upper_bound; lia]. }
    assert (Hrn : 0 <= (n - 1) / 10 < 63).
    { split; [apply Z.div_pos; lia|apply Z.div_lt_upper_bound; lia]. }
    pose proof (Z.mod_pos_bound (m - 1) 10 ltac:(lia)) as Hcm.
    pose proof (Z.mod_pos_bound (n - 1) 10 ltac:(lia)) as Hcn.
    pose proof (Z.div_mod (m - 1) 10 ltac:(lia)) as Dm.
    pose proof (Z.div_mod (n - 1) 10 ltac:(lia)) as Dn.
    remember ((m - 1) / 10) as rm. remember ((n - 1) / 10) as rn.
    remember ((m - 1) mod 10) as cm. remember ((n - 1) mod 10) as cn.
    remember (65 + rm) as lm. remember (65 + rn) as ln.
    intros E. injection E as El Ec.
    apply (f_equal Js.code) in El. rewrite !code_byte in El by lia.
    apply String_of_inj in Ec; lia.
  - intros E. now apply (legacy_is_not_canonical m n _ Hm ltac:(lia) E).
Qed.

Lemma legacy_keys_are_distinct_witness :
  (canonicalSeatToLegacy (Js.String_of 38) = canonicalSeatToLegacy (Js.String_of 38) ->
   38 = 38)
  /\ canonicalSeatToLegacy (Js.String_of 38) <> Some (Js.String_of 38).
Proof. apply (legacy_keys_are_distinct 38 38); lia. Defined.

(** ** The list of the seats of a set of rows *)

Section SeatListFacts.

Lemma ascending_same_members (a : list Z) : forall b,
  StronglySorted Z.lt a -> StronglySorted Z.lt b ->
  (forall x, In x a <-> In x b) -> a = b.
Proof.
  induction a as [|x a IH]; intros [|y b] Ha Hb Hab.
  - reflexivity.
  - exfalso. apply (proj2 (Hab y)). now left.
  - exfalso. apply (proj1 (Hab x)). now left.
  - inversion Ha as [|? ? Ha' Hx]; subst. inversion Hb as [|? ? Hb' Hy]; subst.
    rewrite Forall_forall in Hx, Hy.
    assert (E : x = y).
    { destruct (proj1 (Hab x) (or_introl eq_refl)) as [E|Hxb]; [auto|].
      destruct (proj2 (Hab y) (or_introl eq_refl)) as [E|Hya]; [auto|].
      specialize (Hx y Hya). specialize (Hy x Hxb). lia. }
    subst y. f_equal. apply IH; try assumption.
    intros z. split; intros Hz.
    + destruct (proj1 (Hab z) (or_intror Hz)) as [E|H]; [|exact H].
      specialize (Hx z Hz). lia.
    + destruct (proj2 (Hab z) (or_intror Hz)) as [E|H]; [|exact H].
      specialize (Hy z Hz). lia.
Qed.

Lemma ascending_seats_same_members capacity l1 l2 :
  ascending_seats capacity l1 -> ascending_seats capacity l2 ->
  (forall k, In k l1 <-> In k l2) -> l1 = l2.
Proof.
  intros (n1 & -> & S1 & F1) (n2 & -> & S2 & F2) H.
  rewrite Forall_forall in F1, F2.
  f_equal. apply ascending_same_members; try assumption.
  intros x. split; intros Hx.
  - assert (Hin : In (Js.String_of x) (map Js.String_of n2)).
    { apply H. now apply in_map. }
    apply in_map_iff in Hin as (y & E & Hy).
    apply String_of_inj in E; [now subst|specialize (F2 y Hy); lia|
                               specialize (F1 x Hx); lia].
  - assert (Hin : In (Js.String_of x) (map Js.String_of n1)).
    { apply H. now apply in_map. }
    apply in_map_iff in Hin as (y & E & Hy).
    apply String_of_inj in E; [now subst|specialize (F1 y Hy); lia|
                               specialize (F2 x Hx); lia].
Qed.

End SeatListFacts.

(** X6.  The list of seats depends on the set of the seat numbers of the
    rows only, not on their order or their repetitions, and listing the
    seats of a list of seats gives that list again. *)
Theorem seat_list_of_a_set_of_rows (rows1 rows2 : list string) (capacity : Z) :
  0 < capacity ->
  ((forall s, In s rows1 <-> In s rows2) ->
   uniqueNormalizedSeatList rows1 capacity = uniqueNormalizedSeatList rows2 capacity)
  /\ uniqueNormalizedSeatList (uniqueNormalizedSeatList rows1 capacity) capacity
     = uniqueNormalizedSeatList rows1 capacity.
Proof.
  intros Hcap. split.
  - intros H. apply (ascending_seats_same_members capacity);
      try now apply uniqueNormalizedSeatList_ascending.
    intros k. rewrite !uniqueNormalizedSeatList_In.
    split; intros (s & Hs & E); exists s; (split; [now apply H|exact E]).
  - apply (ascending_seats_same_members capacity);
      try now apply uniqueNormalizedSeatList_ascending.
    intros k. rewrite uniqueNormalizedSeatList_In. split.
    + intros (s & Hs & E). pose proof Hs as Hs'.
      apply uniqueNormalizedSeatList_In in Hs' as (s0 & _ & E0).
      apply normalize_idempotent in E0. congruence.
    + intros Hk. exists k. split; [exact Hk|].
      apply uniqueNormalizedSeatList_In in Hk as (s0 & _ & E0).
      now apply normalize_idempotent in E0.
Qed.

Lemma seat_list_of_a_set_of_rows_witness :
  uniqueNormalizedSeatList ["D8"; "7"; "D8"] 50 = uniqueNormalizedSeatList ["7"; "D8"] 50
  /\ uniqueNormalizedSeatList (uniqueNormalizedSeatList ["D8"; "7"; "D8"] 50) 50
     = uniqueNormalizedSeatList ["D8"; "7"; "D8"] 50.
Proof.
  destruct (seat_list_of_a_set_of_rows ["D8"; "7"; "D8"] ["7"; "D8"] 50 ltac:(lia))
    as [Hsame Hidem].
  split; [|exact Hidem]. apply Hsame. intros s. simpl. tauto.
Defined.

(** ** The comparison of signatures *)

(** X7.  [timingSafeEqual] is equality of non-empty strings: it answers
    true exactly when the two strings are the same and not empty. *)
Theorem timingSafeEqual_is_equality (a b : string) :
  timingSafeEqual a b = true <-> a = b /\ a <> "".
Proof. apply timingSafeEqual_spec. Qed.

(** ** The trip of a request *)

(** X8.  The trip resolver reads only.  The trip it answers is an active
    trip of the bus: the trip of the given id when the request names one,
    else the active trip of the bus with the greatest id.  It answers no
    trip only when the request names none and the bus has no active trip;
    a named trip is never replaced by another one. *)
Theorem resolved_trip_is_active_trip_of_bus (busId : Z) (tripId : option Z)
  (w : World) :
  snd (resolveTripForBus busId tripId w) = w
  /\ (forall trip,
        fst (resolveTripForBus busId tripId w) = Ret (Some trip) ->
        In trip (trip_schedules (db w))
        /\ t_bus_id trip = busId /\ t_status trip = "active"
        /\ (forall t, truthy tripId = Some t -> t_id trip = t)
        /\ (truthy tripId = None ->
            forall r, In r (trip_schedules (db w)) -> t_bus_id r = busId ->
                      t_status r = "active" -> t_id r <= t_id trip))
  /\ (fst (resolveTripForBus busId tripId w) = Ret None ->
      truthy tripId = None
      /\ forall r, In r (trip_schedules (db w)) -> t_bus_id r = busId ->
                   t_status r <> "active").
Proof.
  split; [apply resolveTripForBus_reads|]. split.
  - intros trip E.
    destruct (resolveTripForBus busId tripId w) as [o w'] eqn:R.
    simpl in E. subst o.
    destruct (resolveTripForBus_active _ _ _ _ _ R) as (Hin & Hb & Hs).
    repeat split; try assumption.
    + intros t Ht. revert R. unfold resolveTripForBus, bind, query, ret, throw.
      rewrite Ht. destruct (find _ _) as [r0|] eqn:F; [|discriminate].
      destruct (String.eqb (t_status r0) "active"); [|discriminate].
      intros [= <- _]. apply find_some in F as [_ Hp].
      apply andb_true_iff in Hp as [Hid _]. now apply Z.eqb_eq in Hid.
    + intros Ht r Hr Hrb Hrs. revert R.
      unfold resolveTripForBus, bind, query, ret, throw. rewrite Ht.
      intros [= E _].
      destruct (order_by_id_desc_first_max
                  (filter (fun r => (t_bus_id r =? busId)
                                    && String.eqb (t_status r) "active")
                          (trip_schedules (db w))) r) as (m & Em & _ & Hle).
      { apply filter_In. split; [exact Hr|]. apply andb_true_iff.
        split; [now apply Z.eqb_eq|now apply String.eqb_eq]. }
      congruence.
  - unfold resolveTripForBus, bind, query, ret, throw.
    destruct (truthy tripId) as [t|].
    + destruct (find _ _) as [r0|]; [|discriminate].
      destruct (String.eqb (t_status r0) "active"); discriminate.
    + cbn [fst]. intros [= E]. split; [reflexivity|].
      intros r Hr Hb Hs.
      destruct (order_by_id_desc_first_max
                  (filter (fun r => (t_bus_id r =? busId)
                                    && String.eqb (t_status r) "active")
                          (trip_schedules (db w))) r) as (m & Em & _).
      { apply filter_In. split; [exact Hr|]. apply andb_true_iff.
        split; [now apply Z.eqb_eq|now apply String.eqb_eq]. }
      congruence.
Qed.

Example latest_active_trip_of_bus_2 :
  fst (resolveTripForBus 2 None demo_world)
  = Ret (Some {| t_id := 3; t_route_id := 1; t_bus_id := 2; t_status := "active" |})
  /\ fst (resolveTripForBus 1 None demo_world) = Ret None
  /\ fst (resolveTripForBus 1 (Some 3) demo_world) = Throw "Trip not found for bus".
Proof. repeat split. Qed.

(** ** Locking and releasing a seat *)

Section LockFrame.

Lemma locks_after_cleanup_other_bus env busId tripKey seatKey ls l :
  In l ls -> l_bus_id l <> busId ->
  In l (locks_after_cleanup env busId tripKey seatKey ls).
Proof.
  intros Hl Hb. apply Z.eqb_neq in Hb.
  assert (In l (delete_expired_locks env busId seatKey (legacy_or_self seatKey) ls)).
  { apply filter_In. split; [exact Hl|]. now rewrite Hb. }
  unfold locks_after_cleanup. destruct tripKey as [t|]; [|assumption].
  apply filter_In. split; [assumption|]. now rewrite Hb.
Qed.

Lemma extend_lock_In id expiresAt ls l :
  In l ls ->
  exists l', In l' (extend_lock id expiresAt ls)
             /\ l_id l' = l_id l /\ l_bus_id l' = l_bus_id l
             /\ l_trip_id l' = l_trip_id l
             /\ l_seat_number l' = l_seat_number l
             /\ l_locked_by l' = l_locked_by l
             /\ (l_expires_at l' = l_expires_at l \/ l_expires_at l' = expiresAt)
             /\ (l_id l <> id -> l' = l).
Proof.
  intros Hl. unfold extend_lock.
  eexists. split; [apply in_map_iff; exists l; split; [reflexivity|exact Hl]|].
  cbv beta. destruct (l_id l =? id) eqn:E; cbn; repeat split; auto.
  apply Z.eqb_eq in E. intros H. now destruct H.
Qed.

(** The worlds a lock request can leave: the world with other locks. *)
Lemma handleLockSeat_world env w busId seat tripId lockId :
  snd (respond (handleLockSeat env busId seat tripId lockId) w) = w
  \/ exists trip capacity seatKey,
       lock_request_resolves w busId seat tripId trip capacity seatKey
       /\ let ls1 := locks_after_cleanup env busId (trip_key trip) seatKey
                       (seat_locks (db w)) in
          (snd (respond (handleLockSeat env busId seat tripId lockId) w)
           = with_locks w ls1
           /\ status (fst (respond (handleLockSeat env busId seat tripId lockId) w))
              = 400)
          \/ (exists m,
                In m ls1 /\ l_bus_id m = busId
                /\ snd (respond (handleLockSeat env busId seat tripId lockId) w)
                   = with_locks w (extend_lock (l_id m) (now env + 300) ls1))
          \/ snd (respond (handleLockSeat env busId seat tripId lockId) w)
             = with_locks w (insert_lock busId (trip_key trip) seatKey
                               (lock_owner env lockId) (now env + 300) ls1).
Proof.
  destruct (handleLockSeat_cases env w busId seat tripId lockId)
    as [(trip & capacity & seatKey & Hreq)|(e & ->)]; [|now left].
  right. exists trip, capacity, seatKey. split; [exact Hreq|].
  rewrite (handleLockSeat_run _ _ _ _ _ _ _ _ _ Hreq). cbv zeta.
  destruct (find _ _) as [m|] eqn:F.
  - destruct (negb _); [left; split; reflexivity|].
    destruct (includes _ _); [left; split; reflexivity|].
    right. left. exists m. apply find_some in F as [Hm _].
    apply filter_In in Hm as [Hm Hrow].
    apply (active_lock_row_spec _ _ _ _ (truthy_trip_key trip)) in Hrow
      as (Hb & _). repeat split; assumption.
  - destruct (includes _ _); [left; split; reflexivity|].
    right. right. reflexivity.
Qed.

End LockFrame.

(** X9.  A seat that has a confirmed booking on the bus and trip is not
    locked: the request is refused with status 400, as booked or, when
    another session holds a lock on it, as locked, and no lock is created or
    extended. *)
Theorem sold_seat_is_not_locked (env : Env) (w : World) (busId : Z)
  (seat : option string) (tripId : option Z) (lockId : option string)
  (trip : option Trip) (capacity : Z) (seatKey : string) :
  lock_request_resolves w busId seat tripId trip capacity seatKey ->
  booked_seat (db w) busId (trip_key trip) capacity seatKey ->
  let r := respond (handleLockSeat env busId seat tripId lockId) w in
  (fst r = lock_error "Seat already booked"
   \/ fst r = lock_error "Seat already locked by another user")
  /\ incl (seat_locks (db (snd r))) (seat_locks (db w))
  /\ bookings (db (snd r)) = bookings (db w).
Proof.
  intros Hreq Hbooked r. subst r.
  rewrite (handleLockSeat_run _ _ _ _ _ _ _ _ _ Hreq). cbv zeta.
  apply (booked_list_spec _ _ _ _ _ (truthy_trip_key trip)) in Hbooked.
  apply includes_In in Hbooked. rewrite Hbooked.
  assert (Hincl : incl (locks_after_cleanup env busId (trip_key trip) seatKey
                          (seat_locks (db w))) (seat_locks (db w))).
  { intros l. apply locks_after_cleanup_In. }
  destruct (find _ _) as [m|]; [destruct (negb _)|]; cbn [fst snd];
    repeat split; auto.
Qed.

Lemma sold_seat_is_not_locked_witness :
  fst (respond (handleLockSeat demo_env 1 (Some "38") None (Some "LC")) demo_world)
  = lock_error "Seat already booked".
Proof.
  destruct (sold_seat_is_not_locked demo_env demo_world 1 (Some "38") None
              (Some "LC") None 50 "38") as ([H|H] & _).
  - repeat split.
  - eexists. split; [left; reflexivity|]. repeat split.
  - exact H.
  - discriminate H.
Defined.

(** X10.  A lock request writes the table of the locks only, and of that
    table only what concerns its bus: the bookings, the passengers, the
    trips, the buses and the log of outbound calls stay as they are, every
    lock of another bus stays as it is, and an unexpired lock of the trip
    of the request is never taken away or given to another session. *)
Theorem lock_request_leaves_the_rest_alone (env : Env) (w : World) (busId : Z)
  (seat : option string) (tripId : option Z) (lockId : option string) :
  NoDup (map l_id (seat_locks (db w))) ->
  let w' := snd (respond (handleLockSeat env busId seat tripId lockId) w) in
  (bookings (db w') = bookings (db w)
   /\ passengers (db w') = passengers (db w)
   /\ trip_schedules (db w') = trip_schedules (db w)
   /\ buses (db w') = buses (db w)
   /\ outbox w' = outbox w)
  /\ (forall l, In l (seat_locks (db w)) -> l_bus_id l <> busId ->
                In l (seat_locks (db w')))
  /\ (forall trip capacity seatKey l,
        lock_request_resolves w busId seat tripId trip capacity seatKey ->
        In l (seat_locks (db w)) -> l_trip_id l = trip_key trip ->
        now env < l_expires_at l ->
        exists l', In l' (seat_locks (db w'))
                   /\ l_id l' = l_id l /\ l_bus_id l' = l_bus_id l
                   /\ l_seat_number l' = l_seat_number l
                   /\ l_locked_by l' = l_locked_by l
                   /\ now env < l_expires_at l').
Proof.
  intros Hids w'. subst w'.
  destruct (handleLockSeat_world env w busId seat tripId lockId)
    as [->|(trip & capacity & seatKey & Hreq & Hw)].
  { split; [repeat split|]. split; [auto|].
    intros trip capacity seatKey l _ Hl _ He. exists l. repeat split; auto. }
  cbv zeta in Hw.
  set (ls1 := locks_after_cleanup env busId (trip_key trip) seatKey
                (seat_locks (db w))) in *.
  assert (Hsame : forall trip' capacity' seatKey',
             lock_request_resolves w busId seat tripId trip' capacity' seatKey' ->
             trip' = trip).
  { intros trip' c' k' (R' & _). destruct Hreq as (R & _). congruence. }
  destruct Hw as [[-> _]|[(m & Hm & Hmb & ->)| ->]];
    (split; [repeat split|]); cbn [with_locks db set_seat_locks seat_locks].
  - split.
    + intros l Hl Hb. now apply locks_after_cleanup_other_bus.
    + intros trip' c' k' l Hreq' Hl Ht He.
      rewrite (Hsame _ _ _ Hreq') in Ht. exists l. repeat split; auto.
      now apply locks_after_cleanup_keeps.
  - split.
    + intros l Hl Hb.
      pose proof (locks_after_cleanup_other_bus env busId (trip_key trip) seatKey
                    _ l Hl Hb) as Hl1.
      destruct (extend_lock_In (l_id m) (now env + 300) ls1 l Hl1)
        as (l' & Hl' & _ & _ & _ & _ & _ & _ & Heq).
      rewrite <- Heq; [exact Hl'|]. intros E.
      apply locks_after_cleanup_In in Hm.
      pose proof (NoDup_map_inj_on l_id _ l m Hids Hl Hm E). congruence.
    + intros trip' c' k' l Hreq' Hl Ht He.
      rewrite (Hsame _ _ _ Hreq') in Ht.
      pose proof (locks_after_cleanup_keeps env busId (trip_key trip) seatKey
                    _ l Hl Ht He) as Hl1.
      destruct (extend_lock_In (l_id m) (now env + 300) ls1 l Hl1)
        as (l' & Hl' & Hid & Hb & _ & Hs & Ho & Hexp & _).
      exists l'. repeat split; auto. destruct Hexp as [-> | ->]; lia.
  - split.
    + intros l Hl Hb. unfold insert_lock. apply in_or_app. left.
      now apply locks_after_cleanup_other_bus.
    + intros trip' c' k' l Hreq' Hl Ht He.
      rewrite (Hsame _ _ _ Hreq') in Ht. exists l. repeat split; auto.
      unfold insert_lock. apply in_or_app. left.
      now apply locks_after_cleanup_keeps.
Qed.

Lemma lock_request_leaves_the_rest_alone_witness :
  NoDup (map l_id (seat_locks (db demo_world)))
  /\ bookings (db (snd (respond (handleLockSeat demo_env 1 (Some "5") None
                                  (Some "LA")) demo_world)))
     = bookings (db demo_world)
  /\ In {| l_id := 2; l_bus_id := 2; l_trip_id := Some 3; l_seat_number := "9";
           l_locked_by := Some "LB"; l_expires_at := 1250 |}
        (seat_locks
           (db (snd (respond (handleLockSeat demo_env 1 (Some "5") None
                                (Some "LA")) demo_world)))).
Proof.
  assert (H : NoDup (map l_id (seat_locks (db demo_world)))).
  { repeat constructor; simpl; intuition discriminate. }
  destruct (lock_request_leaves_the_rest_alone demo_env demo_world 1
              (Some "5") None (Some "LA") H) as ((Hb & _) & Hother & _).
  split; [exact H|]. split; [exact Hb|].
  apply Hother; [right; left; reflexivity|discriminate].
Defined.

Section Unlock.

(** What an unlock request does: refused with nothing changed, or one
    [DELETE]. *)
Lemma handleUnlockSeat_run env w busId seat tripId lockId :
  (exists e,
     respond (handleUnlockSeat env busId seat tripId lockId) w
     = ({| status := 400; body := ErrorJson e |}, w)
     /\ (trimmed_or_null lockId = None -> e = "Error: Lock ID required"))
  \/ (exists key capacity seatKey trip,
        trimmed_or_null lockId = Some key
        /\ getBusCapacity busId w = (Ret capacity, w)
        /\ normalizeSeatNumberRaw seat capacity = Some seatKey
        /\ resolveTripForBus busId (truthy tripId) w = (Ret trip, w)
        /\ respond (handleUnlockSeat env busId seat tripId lockId) w
           = ({| status := 200;
                 body := Json {| uj_unlocked := true; uj_trip_id := trip_key trip;
                                 uj_seat := seatKey |} |},
              with_locks w
                (filter (fun l =>
                   negb ((l_bus_id l =? busId)
                         && trip_clause (trip_key trip) (l_trip_id l)
                         && sql_eq_string (l_locked_by l) (Some key)
                         && seat_is seatKey (legacy_or_self seatKey)
                              (l_seat_number l)))
                   (seat_locks (db w))))).
Proof.
  pose proof (resolveTripForBus_reads busId (truthy tripId) w) as R1.
  pose proof (getBusCapacity_reads busId w) as R2.
  unfold respond, handleUnlockSeat, try_catch.
  destruct (trimmed_or_null lockId) as [key|] eqn:Ek.
  2:{ left. eexists. split; [reflexivity|reflexivity]. }
  unfold bind at 1.
  destruct (getBusCapacity busId w) as [[capacity|e] w1] eqn:E2;
    simpl in R2; subst w1.
  2:{ left. eexists. split; [reflexivity|discriminate]. }
  destruct (normalizeSeatNumberRaw seat capacity) as [seatKey|] eqn:Hseat.
  2:{ left. eexists. split; [reflexivity|discriminate]. }
  cbv zeta. unfold bind at 1.
  destruct (resolveTripForBus busId (truthy tripId) w) as [[trip|e] w1] eqn:E1;
    simpl in R1; subst w1.
  2:{ left. eexists. split; [reflexivity|discriminate]. }
  right. exists key, capacity, seatKey, trip.
  split; [reflexivity|]. split; [reflexivity|]. split; [exact Hseat|].
  split; [reflexivity|]. unfold bind. rewrite E2, Hseat, E1. reflexivity.
Qed.

End Unlock.

(** X11.  Releasing a seat needs the lock id of the session and deletes
    locks of that session on that bus only: no lock of another session, or
    of another bus, is deleted, nothing but the table of the locks is
    written, and after a release that succeeds the session holds no lock of
    the seat, under its canonical or its legacy key, on the bus and trip. *)
Theorem unlock_releases_own_locks_only (env : Env) (w : World) (busId : Z)
  (seat : option string) (tripId : option Z) (lockId : option string) :
  let r := respond (handleUnlockSeat env busId seat tripId lockId) w in
  (trimmed_or_null lockId = None ->
   r = ({| status := 400; body := ErrorJson "Error: Lock ID required" |}, w))
  /\ (bookings (db (snd r)) = bookings (db w)
      /\ passengers (db (snd r)) = passengers (db w)
      /\ trip_schedules (db (snd r)) = trip_schedules (db w)
      /\ buses (db (snd r)) = buses (db w)
      /\ outbox (snd r) = outbox w)
  /\ incl (seat_locks (db (snd r))) (seat_locks (db w))
  /\ (forall l, In l (seat_locks (db w)) ->
                l_locked_by l <> trimmed_or_null lockId \/ l_bus_id l <> busId ->
                In l (seat_locks (db (snd r))))
  /\ (status (fst r) = 200 ->
      exists key capacity seatKey trip,
        trimmed_or_null lockId = Some key
        /\ getBusCapacity busId w = (Ret capacity, w)
        /\ normalizeSeatNumberRaw seat capacity = Some seatKey
        /\ resolveTripForBus busId (truthy tripId) w = (Ret trip, w)
        /\ forall l, In l (seat_locks (db (snd r))) ->
                     l_bus_id l = busId -> l_locked_by l = Some key ->
                     trip_matches (trip_key trip) (l_trip_id l) ->
                     l_seat_number l <> seatKey
                     /\ l_seat_number l <> legacy_or_self seatKey).
Proof.
  intros r. subst r.
  destruct (handleUnlockSeat_run env w busId seat tripId lockId)
    as [(e & -> & He)|(key & capacity & seatKey & trip & Hk & Hc & Hs & Ht & ->)];
    cbn [fst snd status].
  - split; [intros H; now rewrite (He H)|].
    split; [repeat split|]. split; [apply incl_refl|]. split; [auto|discriminate].
  - split; [congruence|]. split; [repeat split|].
    cbn [with_locks db set_seat_locks seat_locks]. split.
    { intros l Hl. now apply filter_In in Hl as [Hl _]. }
    split.
    + intros l Hl Hwhy. apply filter_In. split; [exact Hl|].
      destruct Hwhy as [Ho|Hb].
      * replace (sql_eq_string (l_locked_by l) (Some key)) with false.
        { now rewrite !andb_false_r. }
        symmetry. destruct (l_locked_by l) as [o|] eqn:Eo; [|reflexivity].
        simpl. apply String.eqb_neq. congruence.
      * apply Z.eqb_neq in Hb. now rewrite Hb.
    + intros _. exists key, capacity, seatKey, trip.
      do 4 (split; [assumption|]).
      intros l Hl Hb Ho Htrip. apply filter_In in Hl as [_ Hp].
      apply negb_true_iff in Hp.
      apply (trip_clause_spec _ _ (truthy_trip_key trip)) in Htrip.
      rewrite Hb, Ho, Htrip, Z.eqb_refl in Hp. simpl in Hp.
      rewrite String.eqb_refl in Hp. unfold seat_is in Hp.
      apply orb_false_iff in Hp as [H1 H2].
      apply String.eqb_neq in H1, H2. split; assumption.
Qed.

(** Session LA releases seat 5 of bus 1: its lock goes, the lock of session
    LB on bus 2 stays. *)
Example release_of_seat_5 :
  let (r, w) := respond (handleUnlockSeat demo_env 1 (Some "A5") None (Some " LA "))
                  demo_world in
  status r = 200 /\ map l_id (seat_locks (db w)) = [2].
Proof. vm_compute. split; reflexivity. Qed.

Section LockThenRelease.

Lemma handleUnlockSeat_ok env w busId seat tripId lockId key capacity seatKey trip :
  trimmed_or_null lockId = Some key ->
  lock_request_resolves w busId seat tripId trip capacity seatKey ->
  respond (handleUnlockSeat env busId seat tripId lockId) w
  = ({| status := 200;
        body := Json {| uj_unlocked := true; uj_trip_id := trip_key trip;
                        uj_seat := seatKey |} |},
     with_locks w
       (filter (fun l =>
          negb ((l_bus_id l =? busId)
                && trip_clause (trip_key trip) (l_trip_id l)
                && sql_eq_string (l_locked_by l) (Some key)
                && seat_is seatKey (legacy_or_self seatKey) (l_seat_number l)))
          (seat_locks (db w)))).
Proof.
  intros Hk (Ht & Hc & Hs).
  unfold respond, handleUnlockSeat, try_catch. rewrite Hk.
  unfold bind. rewrite Hc, Hs, Ht. reflexivity.
Qed.

Lemma lock_owner_given env lockId key :
  trimmed_or_null lockId = Some key -> lock_owner env lockId = key.
Proof. intros H. unfold lock_owner. now rewrite H. Qed.

(** With no unexpired lock on the seat, the request inserts one. *)
Lemma handleLockSeat_inserts env w busId seat tripId lockId trip capacity seatKey :
  locks_wf (now env) (db w) ->
  lock_request_resolves w busId seat tripId trip capacity seatKey ->
  (forall l, ~ holds_seat env (db w) busId (trip_key trip) seatKey l) ->
  ~ booked_seat (db w) busId (trip_key trip) capacity seatKey ->
  respond (handleLockSeat env busId seat tripId lockId) w
  = ({| status := 200;
        body := Json {| lj_lock_id := lock_owner env lockId;
                        lj_trip_id := trip_key trip; lj_seat := seatKey;
                        lj_expires_at := now env + 300 |} |},
     with_locks w
       (insert_lock busId (trip_key trip) seatKey (lock_owner env lockId)
          (now env + 300)
          (locks_after_cleanup env busId (trip_key trip) seatKey
             (seat_locks (db w))))).
Proof.
  intros Hwf Hreq Hfree Hbooked.
  rewrite (handleLockSeat_run _ _ _ _ _ _ _ _ _ Hreq). cbv zeta.
  assert (Hinc : includes
            (uniqueNormalizedSeatList
               (map b_seat_number
                  (filter (confirmed_row busId (trip_key trip)) (bookings (db w))))
               capacity) seatKey = false).
  { apply includes_false. intros Hin. apply Hbooked.
    now apply (booked_list_spec _ _ _ _ _ (truthy_trip_key trip)). }
  rewrite Hinc.
  destruct (find _ _) as [m|] eqn:F; [exfalso|reflexivity].
  destruct Hreq as (Hres & Hcap & Hseat).
  pose proof (getBusCapacity_capacity_of _ _ _ _ Hcap) as Hcapacity.
  apply find_some in F as [Hm Hn]. apply filter_In in Hm as [Hm Hrow].
  apply locks_after_cleanup_In in Hm.
  apply (active_lock_row_spec _ _ _ _ (truthy_trip_key trip)) in Hrow
    as (Hb & Ht & Hlive).
  apply normalizes_to_spec in Hn.
  apply (Hfree m). repeat split; auto.
  - destruct (trip_key trip) as [t|] eqn:Ek; [exact Ht|].
    now apply (lock_without_trip env w busId tripId trip).
  - unfold seat_of_lock. now rewrite Hb, Hcapacity.
Qed.

End LockThenRelease.

(** X12.  A seat that a session locked and released is free again: when no
    unexpired lock is on the seat and the seat is not sold, the lock request
    of a session is granted, its release succeeds, and a later lock request
    of any session for the seat is granted. *)
Theorem released_seat_can_be_locked_again (env : Env) (w : World) (busId : Z)
  (seat : option string) (tripId : option Z) (lockId : option string)
  (key : string) (trip : option Trip) (capacity : Z) (seatKey : string) :
  locks_wf (now env) (db w) ->
  lock_request_resolves w busId seat tripId trip capacity seatKey ->
  trimmed_or_null lockId = Some key ->
  (forall l, ~ holds_seat env (db w) busId (trip_key trip) seatKey l) ->
  ~ booked_seat (db w) busId (trip_key trip) capacity seatKey ->
  let locked := respond (handleLockSeat env busId seat tripId lockId) w in
  let released :=
    respond (handleUnlockSeat env busId seat tripId lockId) (snd locked) in
  status (fst locked) = 200
  /\ status (fst released) = 200
  /\ forall env3 lockId3,
       now env <= now env3 ->
       status (fst (respond (handleLockSeat env3 busId seat tripId lockId3)
                      (snd released))) = 200.
Proof.
  intros Hwf Hreq Hk Hfree Hbooked locked released.
  pose proof (handleLockSeat_keeps_locks_wf env w busId seat tripId lockId Hwf)
    as Hwf1.
  subst released locked.
  rewrite (handleLockSeat_inserts _ _ _ _ _ _ _ _ _ Hwf Hreq Hfree Hbooked) in *.
  cbn [fst snd status] in *. split; [reflexivity|].
  set (ls1 := locks_after_cleanup env busId (trip_key trip) seatKey
                (seat_locks (db w))) in *.
  set (X := insert_lock busId (trip_key trip) seatKey (lock_owner env lockId)
              (now env + 300) ls1) in *.
  pose proof (lock_request_resolves_frame w X _ _ _ _ _ _ Hreq) as Hreq1.
  rewrite (handleUnlockSeat_ok _ _ _ _ _ _ _ _ _ _ Hk Hreq1).
  cbn [fst snd status]. split; [reflexivity|].
  intros env3 lockId3 Hnow.
  set (q := fun l =>
         negb ((l_bus_id l =? busId)
               && trip_clause (trip_key trip) (l_trip_id l)
               && sql_eq_string (l_locked_by l) (Some key)
               && seat_is seatKey (legacy_or_self seatKey) (l_seat_number l))).
  change (seat_locks (db (with_locks w X))) with X.
  apply (handleLockSeat_free env3 _ busId seat tripId lockId3 trip capacity seatKey).
  - apply (locks_wf_later (now env)); [exact Hnow|].
    exact (locks_wf_filter (now env) (with_locks w X) q Hwf1).
  - exact (lock_request_resolves_frame w (filter q X) _ _ _ _ _ _ Hreq).
  - intros l (Hl & Hb & Ht & He & Hs). exfalso.
    cbn [with_locks db set_seat_locks seat_locks] in Hl.
    apply filter_In in Hl as [Hl Hq].
    unfold X, insert_lock in Hl. apply in_app_or in Hl as [Hl|[<-|[]]].
    + apply (Hfree l). repeat split; auto.
      * now apply (locks_after_cleanup_In env busId (trip_key trip) seatKey).
      * lia.
    + unfold q in Hq. cbn [l_bus_id l_trip_id l_locked_by l_seat_number] in Hq.
      rewrite (lock_owner_given env lockId key Hk) in Hq.
      rewrite Z.eqb_refl in Hq.
      replace (trip_clause (trip_key trip) (trip_key trip)) with true in Hq.
      * simpl in Hq. rewrite String.eqb_refl in Hq. unfold seat_is in Hq.
        rewrite String.eqb_refl in Hq. discriminate.
      * symmetry. apply (trip_clause_spec _ _ (truthy_trip_key trip)).
        unfold trip_matches. now destruct (trip_key trip).
  - exact Hbooked.
Qed.

Lemma released_seat_can_be_locked_again_witness :
  status (fst (respond (handleLockSeat demo_env 2 (Some "11") (Some 3) (Some "LD"))
                 (snd (respond (handleUnlockSeat demo_env 2 (Some "11") (Some 3)
                                  (Some "LC"))
                         (snd (respond (handleLockSeat demo_env 2 (Some "11")
                                          (Some 3) (Some "LC")) demo_world))))))
  = 200.
Proof.
  refine (proj2 (proj2 (released_seat_can_be_locked_again demo_env demo_world 2
            (Some "11") (Some 3) (Some "LC") "LC"
            (Some {| t_id := 3; t_route_id := 1; t_bus_id := 2; t_status := "active" |})
            30 "11" demo_db_locks_wf _ eq_refl _ _)) demo_env (Some "LD") _).
  - repeat split.
  - intros l (Hl & Hb & Ht & He & Hs).
    destruct Hl as [<-|[<-|[]]]; [discriminate Hb|discriminate Hs].
  - intros (b & [<-|[<-|[]]] & Hb & Ht & Hst & Hs);
      [discriminate Hb|discriminate Hs].
  - simpl. lia.
Defined.

(** ** Receipts *)

Section Receipts.

Lemma find_app_none {X} (p : X -> bool) l x :
  find p l = None -> p x = true -> find p (l ++ [x]) = Some x.
Proof.
  induction l as [|y l IH]; simpl; intros H Hx; [now rewrite Hx|].
  destruct (p y); [discriminate|]. now apply IH.
Qed.

Lemma find_app_some {X} (p : X -> bool) l l' x :
  find p l = Some x -> find p (l ++ l') = Some x.
Proof.
  induction l as [|y l IH]; simpl; [discriminate|].
  destruct (p y); [auto|]. exact IH.
Qed.





End Receipts.



(** ** The payment webhook *)

Section WebhookEffects.

(** What the fallback does: it writes receipts and sends at most one
    receipt request and one SMS. *)
Lemma handleWebhookBookingFallback_effect env reference w :
  exists w' sent,
    handleWebhookBookingFallback env reference w = (Ret tt, w')
    /\ bookings (db w') = bookings (db w)
    /\ same_but_bookings_and_receipts w w'
    /\ outbox w' = outbox w ++ sent
    /\ (List.length (filter is_sms sent) <= 1)%nat
    /\ (List.length (filter is_receipt_post sent) <= 1)%nat
    /\ Forall (fun o => is_sms o || is_receipt_post o = true) sent.
Proof.
  unfold handleWebhookBookingFallback, getReceiptByBookingId, sendBookingToGAS,
    saveReceiptForBooking, sendSMS, same_but_bookings_and_receipts.
  destruct reference as [|c reference']; [exists w, []; cbn; rewrite List.app_nil_r; repeat split; auto|].
  unfold bind, query, run, send, ret. cbn [fst snd db outbox].
  repeat match goal with
         | |- context [match ?x with _ => _ end] =>
             lazymatch x with
             | context [match _ with _ => _ end] => fail
             | _ => destruct x eqn:?
             end
         end.
  all: eexists; eexists; (split; [reflexivity|]);
    cbn [db outbox set_booking_receipts bookings routes buses trip_schedules
         passengers seat_locks users auth_sessions];
    (split; [reflexivity|]); (split; [repeat split|]);
    first [ split; [reflexivity|]
          | split; [rewrite <- List.app_assoc; reflexivity|]
          | split; [symmetry; apply List.app_nil_r|] ];
    cbn; repeat split; try lia; repeat constructor.
Qed.

End WebhookEffects.


Section WebhookBookings.

Lemma status_only_refl b : status_only b b.
Proof. unfold status_only. tauto. Qed.

Lemma Forall2_status_only_refl l : Forall2 status_only l l.
Proof. induction l; constructor; auto using status_only_refl. Qed.

Lemma Forall2_status_only_confirm (p : Booking -> bool) l :
  Forall2 status_only l
    (map (fun b =>
            if p b then
              {| b_id := b_id b; b_passenger_id := b_passenger_id b;
                 b_bus_id := b_bus_id b; b_trip_id := b_trip_id b;
                 b_seat_number := b_seat_number b;
                 b_price_paid := b_price_paid b; b_status := "confirmed";
                 b_external_ref := b_external_ref b |}
            else b) l).
Proof.
  induction l as [|b l IH]; simpl; constructor; [|exact IH].
  destruct (p b); [|apply status_only_refl].
  unfold status_only. cbn. tauto.
Qed.

Lemma confirm_confirmed (p : Booking -> bool) l :
  (forall b, In b l -> b_status b = "confirmed") ->
  map (fun b =>
         if p b then
           {| b_id := b_id b; b_passenger_id := b_passenger_id b;
              b_bus_id := b_bus_id b; b_trip_id := b_trip_id b;
              b_seat_number := b_seat_number b;
              b_price_paid := b_price_paid b; b_status := "confirmed";
              b_external_ref := b_external_ref b |}
         else b) l = l.
Proof.
  intros H. apply map_id_on. intros b Hb. destruct (p b); [|reflexivity].
  specialize (H b Hb). destruct b; cbn in *. now subst.
Qed.

End WebhookBookings.

(** X14.  Whatever it is sent, the webhook adds and removes no booking: a
    booking keeps its id, passenger, bus, trip, seat, price and reference,
    and its status either stays or becomes [confirmed]; where every booking
    is confirmed already the bookings stay as they are.  The webhook writes
    no other table but the receipts, asks the receipt service at most once
    and sends at most one SMS, and never calls the payment processor. *)
Theorem webhook_confirms_and_notifies_once (env : Env) (rawBody : string)
  (signature : option string) (w : World) :
  let w' := snd (respond (handlePaystackWebhook env rawBody signature) w) in
  Forall2 status_only (bookings (db w)) (bookings (db w'))
  /\ same_but_bookings_and_receipts w w'
  /\ ((forall b, In b (bookings (db w)) -> b_status b = "confirmed") ->
      bookings (db w') = bookings (db w))
  /\ exists sent,
       outbox w' = outbox w ++ sent
       /\ (List.length (filter is_sms sent) <= 1)%nat
       /\ (List.length (filter is_receipt_post sent) <= 1)%nat
       /\ Forall (fun o => is_sms o || is_receipt_post o = true) sent.
Proof.
  intros w'. subst w'.
  assert (Hsame : Forall2 status_only (bookings (db w)) (bookings (db w))
                  /\ same_but_bookings_and_receipts w w
                  /\ ((forall b, In b (bookings (db w)) -> b_status b = "confirmed") ->
                      bookings (db w) = bookings (db w))
                  /\ exists sent,
                       outbox w = outbox w ++ sent
                       /\ (List.length (filter is_sms sent) <= 1)%nat
                       /\ (List.length (filter is_receipt_post sent) <= 1)%nat
                       /\ Forall (fun o => is_sms o || is_receipt_post o = true) sent).
  { split; [apply Forall2_status_only_refl|]. split; [repeat split|].
    split; [auto|]. exists []. rewrite List.app_nil_r. simpl. repeat split; auto. }
  remember (respond (handlePaystackWebhook env rawBody signature) w) as rw eqn:Er.
  unfold respond, handlePaystackWebhook, try_catch in Er.
  destruct (nonempty (PAYSTACK_SECRET_KEY env)) as [secretKey|];
    [|subst rw; exact Hsame].
  cbv zeta in Er.
  destruct (negb (timingSafeEqual _ _)); [subst rw; exact Hsame|].
  destruct (JSON_parse env rawBody) as [event|]; [|subst rw; exact Hsame].
  destruct (eqb_opt_string (ev_event event) (Some "charge.success"));
    [|subst rw; exact Hsame].
  destruct (nonempty (ev_reference event)) as [reference|];
    [|subst rw; exact Hsame].
  unfold bind at 1 in Er. unfold bind at 1 in Er. unfold run at 1 in Er.
  match type of Er with
  | context [handleWebhookBookingFallback env reference ?w1] =>
      destruct (handleWebhookBookingFallback_effect env reference w1)
        as (w2 & sent & E & Hb & Ht & Ho & Hsms & Hgas & Hall)
  end.
  rewrite E in Er. cbn [fst snd ok ret] in Er. subst rw. cbn [snd].
  unfold same_but_bookings_and_receipts in *.
  cbn [db outbox set_bookings bookings routes buses trip_schedules passengers
       seat_locks users auth_sessions] in Hb, Ht, Ho.
  rewrite Hb. split; [apply Forall2_status_only_confirm|].
  split; [exact Ht|]. split; [apply confirm_confirmed|].
  exists sent. auto.
Qed.

Section WebhookRedelivery.

Lemma nonempty_Some o s : nonempty o = Some s -> o = Some s /\ s <> "".
Proof.
  destruct o as [[|c r]|]; simpl; try discriminate.
  intros [= <-]. split; [reflexivity|discriminate].
Qed.

(** The rows that the fallback reads do not depend on the statuses. *)
Lemma fallback_rows_confirm reference (p : Booking -> bool) d :
  fallback_rows reference
    (set_bookings
       (map (fun b =>
               if p b then
                 {| b_id := b_id b; b_passenger_id := b_passenger_id b;
                    b_bus_id := b_bus_id b; b_trip_id := b_trip_id b;
                    b_seat_number := b_seat_number b;
                    b_price_paid := b_price_paid b; b_status := "confirmed";
                    b_external_ref := b_external_ref b |}
               else b)) d)
  = fallback_rows reference d.
Proof.
  unfold fallback_rows, set_bookings.
  cbn [bookings passengers buses trip_schedules routes].
  induction (bookings d) as [|b l IH]; [reflexivity|].
  cbn [map flat_map]. rewrite IH. f_equal.
  now destruct (p b).
Qed.

(** With a receipt stored for the latest booking of the reference, the
    fallback does nothing. *)
Lemma handleWebhookBookingFallback_silent env reference w row receipt :
  reference <> "" ->
  last_by_id (fallback_rows reference (db w)) = Some row ->
  fr_id row <> 0 ->
  find (fun r => rc_booking_id r =? fr_id row) (booking_receipts (db w))
  = Some receipt ->
  rc_receipt_url receipt <> "" ->
  handleWebhookBookingFallback env reference w = (Ret tt, w).
Proof.
  intros Href Hrow Hid Hfind Hurl.
  unfold handleWebhookBookingFallback, getReceiptByBookingId.
  destruct reference as [|c reference']; [now destruct Href|].
  unfold bind at 1. unfold query at 1. rewrite Hrow.
  assert (Ht : truthy (Some (fr_id row)) = Some (fr_id row)).
  { destruct (fr_id row); [now destruct Hid|reflexivity|reflexivity]. }
  rewrite Ht. unfold bind at 1. unfold query at 1. rewrite Hfind.
  destruct (rc_receipt_url receipt) as [|x url] eqn:E; [now destruct Hurl|].
  reflexivity.
Qed.

End WebhookRedelivery.

(** X15.  A webhook call that is delivered again is silent: when the latest
    booking of the reference has its receipt stored, a signed
    [charge.success] call is answered 200 without a request to the receipt
    service, without an SMS and without a change of the receipts. *)
Theorem webhook_redelivery_is_silent (env : Env) (rawBody : string)
  (signature : option string) (w : World) (secretKey : string)
  (event : WebhookEvent) (reference : string) (row : FallbackRow)
  (receipt : Receipt) :
  nonempty (PAYSTACK_SECRET_KEY env) = Some secretKey ->
  match signature with Some s => s | None => "" end
  = hmacSha512Hex env secretKey rawBody ->
  hmacSha512Hex env secretKey rawBody <> "" ->
  JSON_parse env rawBody = Some event ->
  ev_event event = Some "charge.success" ->
  nonempty (ev_reference event) = Some reference ->
  last_by_id (fallback_rows reference (db w)) = Some row ->
  fr_id row <> 0 ->
  find (fun r => rc_booking_id r =? fr_id row) (booking_receipts (db w))
  = Some receipt ->
  rc_receipt_url receipt <> "" ->
  let r := respond (handlePaystackWebhook env rawBody signature) w in
  fst r = {| status := 200; body := Json {| received := true |} |}
  /\ outbox (snd r) = outbox w
  /\ booking_receipts (db (snd r)) = booking_receipts (db w).
Proof.
  intros Hkey Hsig Hdigest Hparse Hevent Href Hrow Hid Hfind Hurl r. subst r.
  apply nonempty_Some in Href as Href'. destruct Href' as [_ Hne].
  remember (respond (handlePaystackWebhook env rawBody signature) w) as rw eqn:Er.
  revert Er.
  unfold respond, handlePaystackWebhook, try_catch. rewrite Hkey. cbv zeta.
  rewrite Hsig.
  replace (timingSafeEqual (hmacSha512Hex env secretKey rawBody)
             (hmacSha512Hex env secretKey rawBody)) with true
    by (symmetry; apply timingSafeEqual_spec; auto).
  rewrite Hparse, Hevent, Href. cbn [negb eqb_opt_string].
  rewrite String.eqb_refl.
  unfold bind at 1. unfold bind at 1. unfold run at 1.
  rewrite (handleWebhookBookingFallback_silent env reference _ row receipt
             Hne); try assumption.
  - cbn [fst snd ok ret]. intros ->.
    cbn [fst snd db outbox set_bookings booking_receipts]. repeat split.
  - cbn [db]. now rewrite fallback_rows_confirm.
Qed.

Lemma webhook_redelivery_is_silent_witness :
  let r := respond (handlePaystackWebhook demo_env "R0" (Some "5fsk_testR0"))
             demo_receipt_world in
  fst r = {| status := 200; body := Json {| received := true |} |}
  /\ outbox (snd r) = []
  /\ booking_receipts (db (snd r)) = booking_receipts (db demo_receipt_world).
Proof.
  eapply (webhook_redelivery_is_silent demo_env "R0" (Some "5fsk_testR0")
            demo_receipt_world "sk_test");
    try reflexivity; discriminate.
Defined.

(** ** What a booking needs *)

Section ConfirmNeeds.


Lemma sql_eq_string_true column param :
  sql_eq_string column param = true -> exists s, column = Some s /\ param = Some s.
Proof.
  destruct column as [x|], param as [y|]; simpl; try discriminate.
  intros E. apply String.eqb_eq in E. subst. eauto.
Qed.


End ConfirmNeeds.



(** ** Accounts and sessions *)

Section SignUp.

Lemma is_empty_false s : s <> "" -> is_empty s = false.
Proof. destruct s; [intros H; now destruct H|reflexivity]. Qed.

Lemma find_none_all {X} (p : X -> bool) l :
  (forall x, In x l -> p x = false) -> find p l = None.
Proof.
  induction l as [|x l IH]; simpl; intros H; [reflexivity|].
  rewrite H by (now left). apply IH. intros y Hy. apply H. now right.
Qed.

(** A complete sign-up with a new e-mail address: what it answers and what it
    writes. *)
Lemma handleEmailSignUp_success env data w :
  complete_sign_up data -> 6 <= Js.length (su_password data) ->
  (forall u, In u (users (db w)) -> u_email u <> su_email data) ->
  let user := signed_up_user env data w in
  let token := generateToken env (u_id user) in
  respond (handleEmailSignUp env data) w
  = ({| status := 200;
        body := Json {| aj_token := token; aj_user_id := u_id user;
                        aj_name :=
                          (su_firstName data ++ " " ++ su_lastName data)%string;
                        aj_email := su_email data; aj_phone := su_phone data;
                        aj_authMethod := "email";
                        aj_isAdmin := isAdminEmail env (su_email data) |} |},
     {| db :=
          set_auth_sessions (fun ss => ss ++
            [{| s_user_id := u_id user; s_token := token;
                s_expires_at := now env + 7 * 24 * 60 * 60 |}])
            (set_passengers (fun ps => ps ++
               [{| p_id := next_id (map p_id (passengers (db w)));
                   p_first_name := su_firstName data;
                   p_last_name := su_lastName data;
                   p_email := su_email data; p_phone := su_phone data;
                   p_nok_name := None; p_nok_phone := None |}])
               (set_users (fun us => us ++ [user]) (db w)));
        outbox := outbox w |}).
Proof.
  intros (H1 & H2 & H3 & H4 & H5) Hlen Hnew user token.
  unfold respond, handleEmailSignUp, try_catch.
  rewrite !is_empty_false by assumption. cbn [orb].
  replace (Js.length (su_password data) <? 6) with false by lia.
  unfold bind at 1. unfold query at 1.
  rewrite find_none_all.
  - reflexivity.
  - intros u Hu. apply String.eqb_neq. now apply Hnew.
Qed.

Lemma handleEmailSignUp_refused env data w :
  (exists u, In u (users (db w)) /\ u_email u = su_email data) ->
  exists e, respond (handleEmailSignUp env data) w
            = ({| status := 400; body := ErrorJson e |}, w).
Proof.
  intros (u & Hu & He). unfold respond, handleEmailSignUp, try_catch.
  destruct (_ || _); [eexists; reflexivity|].
  destruct (_ <? 6); [eexists; reflexivity|].
  unfold bind at 1. unfold query at 1.
  destruct (find _ _) as [u0|] eqn:F; [eexists; reflexivity|].
  exfalso. pose proof (find_none _ _ F u Hu) as Hn. cbv beta in Hn.
  apply String.eqb_neq in Hn. now destruct Hn.
Qed.

End SignUp.

(** X17.  A complete sign-up with a new e-mail address is answered 200 with
    a token, adds one user, and opens a session: until the seven days of the
    session are over, the token (not empty, and not the token of an older
    session) is resolved to the new user. *)
Theorem sign_up_opens_a_session (env : Env) (data : SignUpRequest) (w : World) :
  complete_sign_up data -> 6 <= Js.length (su_password data) ->
  (forall u, In u (users (db w)) -> u_email u <> su_email data) ->
  let user := signed_up_user env data w in
  let token := generateToken env (u_id user) in
  let r := respond (handleEmailSignUp env data) w in
  status (fst r) = 200
  /\ (exists j, body (fst r) = Json j /\ aj_token j = token
                /\ aj_user_id j = u_id user)
  /\ users (db (snd r)) = users (db w) ++ [user]
  /\ bookings (db (snd r)) = bookings (db w)
  /\ (token <> "" ->
      (forall s, In s (auth_sessions (db w)) -> s_token s <> token) ->
      forall env2, now env2 <= now env + 7 * 24 * 60 * 60 ->
        getSessionUser env2 (Some token) (snd r) = (Ret user, snd r)).
Proof.
  intros Hc Hlen Hnew user token r. subst r.
  rewrite (handleEmailSignUp_success env data w Hc Hlen Hnew).
  fold user. fold token. cbn [fst snd status body db].
  split; [reflexivity|]. split; [eexists; repeat split|].
  split; [reflexivity|]. split; [reflexivity|].
  intros Htok Hfresh env2 Hnow.
  unfold getSessionUser.
  assert (Hne : nonempty (Some token) = Some token).
  { destruct token; [now destruct Htok|reflexivity]. }
  rewrite Hne. unfold bind at 1. unfold query at 1.
  cbn [db auth_sessions set_auth_sessions set_passengers set_users users].
  rewrite find_app_none.
  - cbn [s_expires_at s_user_id].
    replace (now env + 7 * 24 * 60 * 60 <? now env2) with false by lia.
    unfold bind at 1. unfold query at 1.
    cbn [db auth_sessions set_auth_sessions set_passengers set_users users].
    rewrite find_app_none; [reflexivity| |apply Z.eqb_refl].
    apply find_none_all. intros u Hu. apply Z.eqb_neq.
    pose proof (next_id_fresh (map u_id (users (db w))) (u_id u)
                  (in_map u_id _ _ Hu)) as Hlt.
    cbn [user signed_up_user u_id]. lia.
  - apply find_none_all. intros s Hs. apply String.eqb_neq. now apply Hfresh.
  - apply String.eqb_refl.
Qed.

Lemma sign_up_opens_a_session_witness :
  let data := {| su_firstName := "Ama"; su_lastName := "Mensah";
                 su_email := "ama@example.com"; su_phone := "0240000000";
                 su_password := "secret1" |} in
  let r := respond (handleEmailSignUp demo_env data) demo_world in
  status (fst r) = 200
  /\ exists user, getSessionUser demo_env (Some "tok_2") (snd r) = (Ret user, snd r)
                  /\ u_email user = "ama@example.com".
Proof.
  intros data r.
  destruct (sign_up_opens_a_session demo_env data demo_world)
    as (Hok & _ & _ & _ & Hsession).
  - repeat split; discriminate.
  - vm_compute. discriminate.
  - intros u [<-|[]]. discriminate.
  - split; [exact Hok|]. eexists. split.
    + apply Hsession; [discriminate| |vm_compute; discriminate].
      intros s [<-|[]]. discriminate.
    + reflexivity.
Defined.

(** X18.  Sign-up keeps the ids and the e-mail addresses of the users
    unique, whatever the request; and once an address is registered, every
    later sign-up with that address is refused with status 400 and changes
    nothing. *)
Theorem sign_up_keeps_users_unique (env : Env) (data : SignUpRequest) (w : World) :
  users_unique (db w) ->
  users_unique (db (snd (respond (handleEmailSignUp env data) w)))
  /\ ((exists u, In u (users (db w)) /\ u_email u = su_email data) ->
      status (fst (respond (handleEmailSignUp env data) w)) = 400
      /\ snd (respond (handleEmailSignUp env data) w) = w)
  /\ (status (fst (respond (handleEmailSignUp env data) w)) = 200 ->
      exists u, In u (users (db (snd (respond (handleEmailSignUp env data) w))))
                /\ u_email u = su_email data).
Proof.
  intros (Hids & Hemails).
  split; [|split].
  2:{ intros H. destruct (handleEmailSignUp_refused env data w H) as (e & ->).
      split; reflexivity. }
  - remember (respond (handleEmailSignUp env data) w) as r eqn:Er. revert Er.
    unfold respond, handleEmailSignUp, try_catch.
    destruct (_ || _); [intros ->; split; assumption|].
    destruct (_ <? 6); [intros ->; split; assumption|].
    unfold bind at 1. unfold query at 1.
    destruct (find _ _) as [u0|] eqn:F; [intros ->; split; assumption|].
    intros ->. unfold users_unique, insert_passenger.
    unfold sql, run, bind, ok, ret.
    cbn [fst snd db users set_auth_sessions set_passengers set_users].
    rewrite !map_app. cbn [map u_id u_email]. split.
    + apply NoDup_snoc; [exact Hids|]. intros Hin.
      apply next_id_fresh in Hin. lia.
    + apply NoDup_snoc; [exact Hemails|]. intros Hin.
      apply in_map_iff in Hin as (u & Eu & Hu).
      pose proof (find_none _ _ F u Hu) as Hn. cbv beta in Hn.
      apply String.eqb_neq in Hn. now destruct Hn.
  - remember (respond (handleEmailSignUp env data) w) as r eqn:Er. revert Er.
    unfold respond, handleEmailSignUp, try_catch.
    destruct (_ || _); [intros ->; discriminate|].
    destruct (_ <? 6); [intros ->; discriminate|].
    unfold bind at 1. unfold query at 1.
    destruct (find _ _) as [u0|] eqn:F; [intros ->; discriminate|].
    intros -> _. unfold insert_passenger. unfold sql, run, bind, ok, ret.
    cbn [fst snd db users set_auth_sessions set_passengers set_users].
    eexists. split; [apply in_or_app; right; left; reflexivity|reflexivity].
Qed.

Lemma sign_up_keeps_users_unique_witness :
  let data := {| su_firstName := "Esi"; su_lastName := "Owusu";
                 su_email := "admin@elite.example"; su_phone := "0209999999";
                 su_password := "secret1" |} in
  users_unique (db demo_world)
  /\ snd (respond (handleEmailSignUp demo_env data) demo_world) = demo_world.
Proof.
  intros data.
  assert (H : users_unique (db demo_world)).
  { split; repeat constructor; simpl; tauto. }
  split; [exact H|].
  destruct (sign_up_keeps_users_unique demo_env data demo_world H)
    as (_ & Hrefused & _).
  apply Hrefused. eexists. split; [left; reflexivity|reflexivity].
Defined.

(** X19.  A sign-in opens a session only for the user of the e-mail address
    and only when the stored hash matches the password: a user without a
    stored hash (an account of another sign-in method) cannot sign in with a
    password.  A refused sign-in is answered 400 and writes nothing; a
    granted one adds one session and nothing else. *)
Theorem sign_in_checks_the_password (env : Env) (check : PasswordCheck)
  (data : SignInRequest) (w : World) :
  let r := respond (handleEmailSignIn env check data) w in
  (status (fst r) = 200 ->
   exists user hash,
     find (fun u => String.eqb (u_email u) (si_email data)) (users (db w))
     = Some user
     /\ u_password_hash user = Some hash /\ hash <> ""
     /\ verifyPassword check (si_password data) (Some hash) = true
     /\ snd r
        = {| db := set_auth_sessions (fun ss => ss ++
                     [{| s_user_id := u_id user;
                         s_token := generateToken env (u_id user);
                         s_expires_at := now env + 7 * 24 * 60 * 60 |}]) (db w);
             outbox := outbox w |})
  /\ (status (fst r) <> 200 -> status (fst r) = 400 /\ snd r = w).
Proof.
  intros r. subst r.
  remember (respond (handleEmailSignIn env check data) w) as r eqn:Er. revert Er.
  unfold respond, handleEmailSignIn, try_catch.
  destruct (_ || _); [intros ->; split; [discriminate|split; reflexivity]|].
  unfold bind at 1. unfold query at 1.
  destruct (find _ _) as [user|] eqn:F;
    [|intros ->; split; [discriminate|split; reflexivity]].
  destruct (verifyPassword check (si_password data) (u_password_hash user)) eqn:V;
    cbn [negb]; [|intros ->; split; [discriminate|split; reflexivity]].
  unfold bind at 1. unfold run at 1. unfold bind at 1. unfold query at 1.
  cbn [db users set_auth_sessions].
  destruct (find (fun u => u_id u =? u_id user) (users (db w))) as [full|] eqn:G.
  - intros ->. cbn [fst snd status ok ret]. split; [|intros H; now destruct H].
    intros _.
    assert (Hh : exists hash, u_password_hash user = Some hash /\ hash <> "").
    { unfold verifyPassword in V.
      destruct (u_password_hash user) as [[|c h]|]; simpl in V; try discriminate.
      eexists. split; [reflexivity|discriminate]. }
    destruct Hh as (hash & Eh & Hne). exists user, hash.
    rewrite Eh in V. repeat split; assumption.
  - exfalso. apply find_some in F as [Hin _].
    pose proof (find_none _ _ G user Hin) as Hn. cbv beta in Hn.
    now rewrite Z.eqb_refl in Hn.
Qed.

(** X20.  The password of a sign-up signs in: after a complete sign-up with
    a new e-mail address, and provided the password check accepts a password
    against its own hash, a sign-in with that address and password is
    answered 200 for the new user, and a sign-in with a password that the
    check does not accept against that hash is answered 400. *)
Theorem sign_up_then_sign_in (env env2 : Env) (check : PasswordCheck)
  (data : SignUpRequest) (w : World) :
  complete_sign_up data -> 6 <= Js.length (su_password data) ->
  (forall u, In u (users (db w)) -> u_email u <> su_email data) ->
  verifyPassword check (su_password data)
    (Some (hashPassword env (su_password data))) = true ->
  let w1 := snd (respond (handleEmailSignUp env data) w) in
  let sign_in password :=
    respond (handleEmailSignIn env2 check
               {| si_email := su_email data; si_password := password |}) w1 in
  (status (fst (sign_in (su_password data))) = 200
   /\ exists j, body (fst (sign_in (su_password data))) = Json j
                /\ aj_user_id j = u_id (signed_up_user env data w)
                /\ aj_email j = su_email data)
  /\ (forall wrong,
        verifyPassword check wrong (Some (hashPassword env (su_password data)))
        = false ->
        status (fst (sign_in wrong)) = 400).
Proof.
  intros Hc Hlen Hnew Hcheck w1 sign_in. subst sign_in w1.
  rewrite (handleEmailSignUp_success env data w Hc Hlen Hnew). cbn [snd].
  destruct Hc as (_ & _ & Hemail & _ & Hpw).
  assert (Hfind : find (fun u => String.eqb (u_email u) (su_email data))
                    (users (db w) ++ [signed_up_user env data w])
                  = Some (signed_up_user env data w)).
  { apply find_app_none; [|apply String.eqb_refl].
    apply find_none_all. intros u Hu. apply String.eqb_neq. now apply Hnew. }
  assert (Hfull : find (fun u => u_id u =? u_id (signed_up_user env data w))
                    (users (db w) ++ [signed_up_user env data w])
                  = Some (signed_up_user env data w)).
  { apply find_app_none; [|apply Z.eqb_refl].
    apply find_none_all. intros u Hu. apply Z.eqb_neq.
    pose proof (next_id_fresh (map u_id (users (db w))) (u_id u)
                  (in_map u_id _ _ Hu)) as Hlt.
    cbn [signed_up_user u_id]. lia. }
  split.
  - unfold respond, handleEmailSignIn, try_catch. cbn [si_email si_password].
    rewrite !is_empty_false by assumption. cbn [orb].
    unfold bind, query, run, ok, ret.
    cbn [fst snd db users set_auth_sessions set_passengers set_users].
    rewrite Hfind. cbn [u_password_hash signed_up_user]. rewrite Hcheck.
    cbn [negb fst snd db users set_auth_sessions set_passengers set_users u_id].
    fold (signed_up_user env data w). rewrite Hfull.
    cbn. split; [reflexivity|]. eexists. repeat split.
  - intros wrong Hwrong.
    unfold respond, handleEmailSignIn, try_catch. cbn [si_email si_password].
    rewrite (is_empty_false _ Hemail). cbn [orb].
    destruct (is_empty wrong); [reflexivity|].
    unfold bind, query, run, ok, ret.
    cbn [fst snd db users set_auth_sessions set_passengers set_users].
    rewrite Hfind. cbn [u_password_hash signed_up_user]. rewrite Hwrong.
    reflexivity.
Qed.

Lemma sign_up_then_sign_in_witness :
  status (fst (respond (handleEmailSignIn demo_env demo_check
                          {| si_email := "ama@example.com";
                             si_password := "secret1" |})
                 (snd (respond (handleEmailSignUp demo_env demo_sign_up)
                         demo_world)))) = 200
  /\ status (fst (respond (handleEmailSignIn demo_env demo_check
                             {| si_email := "ama@example.com";
                                si_password := "secret2" |})
                    (snd (respond (handleEmailSignUp demo_env demo_sign_up)
                            demo_world)))) = 400.
Proof.
  destruct (sign_up_then_sign_in demo_env demo_env demo_check demo_sign_up
              demo_world) as ((Hok & _) & Hwrong).
  - repeat split; discriminate.
  - vm_compute. discriminate.
  - intros u [<-|[]]. discriminate.
  - reflexivity.
  - split; [exact Hok|]. apply (Hwrong "secret2"). reflexivity.
Defined.

(** ** The administration *)

Section AdminSession.

Lemma getSessionUser_reads env token w : snd (getSessionUser env token w) = w.
Proof.
  unfold getSessionUser. destruct (nonempty token) as [tok|]; [|reflexivity].
  unfold bind, query, ret, throw. cbn [fst snd].
  destruct (find _ _) as [session|]; [|reflexivity].
  destruct (_ <? _); [reflexivity|].
  destruct (find _ _); reflexivity.
Qed.

Lemma getSessionUser_throws env token w e w' :
  getSessionUser env token w = (Throw e, w') ->
  e = "Token required" \/ e = "Invalid token" \/ e = "Token expired"
  \/ e = "User not found".
Proof.
  unfold getSessionUser. destruct (nonempty token) as [tok|]; [|intros [= <- _]; auto].
  unfold bind, query, ret, throw. cbn [fst snd].
  destruct (find _ _) as [session|]; [|intros [= <- _]; auto].
  destruct (_ <? _); [intros [= <- _]; auto|].
  destruct (find _ _); [discriminate|intros [= <- _]; auto].
Qed.

(** Without the session of an administrator [requireAdminUser] throws,
    [Forbidden] when the session is valid, and reads only. *)
Lemma requireAdminUser_cases env token w :
  (admin_session env w token = true
   /\ exists user, requireAdminUser env token w = (Ret user, w))
  \/ (admin_session env w token = false
      /\ exists e,
           requireAdminUser env token w = (Throw e, w)
           /\ str_includes "Forbidden" (String_of_error e)
              = match session_of env w token with
                | Some _ => true
                | None => false
                end).
Proof.
  unfold admin_session, session_of, requireAdminUser, bind.
  pose proof (getSessionUser_reads env token w) as R.
  destruct (getSessionUser env token w) as [[user|e] w1] eqn:E;
    simpl in R; subst w1.
  - destruct (isAdminEmail env (u_email user)); cbn [negb].
    + left. split; [reflexivity|]. now exists user.
    + right. split; [reflexivity|]. exists "Forbidden". split; reflexivity.
  - right. split; [reflexivity|]. exists e. split; [reflexivity|].
    destruct (getSessionUser_throws _ _ _ _ _ E) as [->|[->|[->| ->]]];
      reflexivity.
Qed.

End AdminSession.

(** X21.  The handlers of the administration that write (manual booking,
    trip creation, trip end) do nothing for a caller who is no
    administrator: the world stays as it is and the answer is an error, 403
    when the token is the token of a valid session, 400 when it is not. *)
Theorem admin_handlers_need_an_admin (env : Env) (token : option string)
  (w : World) :
  admin_session env w token = false ->
  let refused {A} (r : Response (Body A) * World) :=
    snd r = w /\ is_error (fst r)
    /\ status (fst r) = match session_of env w token with
                        | Some _ => 403
                        | None => 400
                        end in
  (forall data, refused (respond (handleAdminManualBooking env token data) w))
  /\ (forall data, refused (respond (handleAdminCreateTrip env token data) w))
  /\ (forall tripId, refused (respond (handleAdminEndTrip env token tripId) w)).
Proof.
  intros Hno refused. subst refused. cbv beta.
  assert (Htrip : exists e,
             requireAdminUser env token w = (Throw e, w)
             /\ str_includes "Forbidden" (String_of_error e)
                = match session_of env w token with
                  | Some _ => true
                  | None => false
                  end).
  { destruct (requireAdminUser_cases env token w) as [[H _]|[_ H]];
      [congruence|exact H]. }
  destruct Htrip as (e & He & Hf).
  split; [|split].
  - intros data.
    remember (respond (handleAdminManualBooking env token data) w) as r eqn:Er.
    revert Er. unfold respond, handleAdminManualBooking, try_catch.
    unfold bind at 1. revert Hno. unfold admin_session, session_of.
    pose proof (getSessionUser_reads env token w) as R.
    destruct (getSessionUser env token w) as [[user|e0] w1];
      simpl in R; subst w1.
    + intros -> ->. cbn. repeat split. now eexists.
    + intros _ ->. cbn. repeat split. now eexists.
  - intros data.
    remember (respond (handleAdminCreateTrip env token data) w) as r eqn:Er.
    revert Er. unfold respond, handleAdminCreateTrip, try_catch_admin.
    unfold bind at 1. rewrite He. intros ->. cbn [fst snd status body].
    rewrite Hf. repeat split; [now eexists|].
    now destruct (session_of env w token).
  - intros tripId.
    remember (respond (handleAdminEndTrip env token tripId) w) as r eqn:Er.
    revert Er. unfold respond, handleAdminEndTrip, try_catch_admin.
    unfold bind at 1. rewrite He. intros ->. cbn [fst snd status body].
    rewrite Hf. repeat split; [now eexists|].
    now destruct (session_of env w token).
Qed.

Lemma admin_handlers_need_an_admin_witness :
  admin_session demo_env demo_world (Some "nobody") = false
  /\ respond (handleAdminEndTrip demo_env (Some "nobody") 3) demo_world
     = ({| status := 400; body := ErrorJson "Error: Invalid token" |}, demo_world).
Proof.
  split; [reflexivity|].
  destruct (admin_handlers_need_an_admin demo_env (Some "nobody") demo_world
              eq_refl) as (_ & _ & Hend).
  destruct (Hend 3) as (Hw & _ & _).
  destruct (respond (handleAdminEndTrip demo_env (Some "nobody") 3) demo_world)
    as [r w'] eqn:E.
  simpl in Hw. subst w'. f_equal.
  revert E. vm_compute. now intros [= <-].
Defined.

Section Trips.

Lemma admin_session_requires env token w :
  admin_session env w token = true ->
  exists user, requireAdminUser env token w = (Ret user, w).
Proof.
  intros H. destruct (requireAdminUser_cases env token w) as [[_ Hu]|[Hno _]];
    [exact Hu|congruence].
Qed.

(** What ending an active trip does. *)
Lemma handleAdminEndTrip_run env token tripId w trip :
  admin_session env w token = true -> tripId <> 0 ->
  find (fun r => t_id r =? tripId) (trip_schedules (db w)) = Some trip ->
  t_status trip = "active" ->
  let capacity :=
    match find (fun b => bus_id b =? t_bus_id trip) (buses (db w)) with
    | Some b => bus_capacity b
    | None => 0
    end in
  respond (handleAdminEndTrip env token tripId) w
  = ({| status := 200;
        body := Json {| et_tripId := tripId; et_status := "completed";
                        et_busId := t_bus_id trip;
                        et_availableSeats := capacity |} |},
     snd (delete_trip_locks tripId
            (snd (update_available_seats (t_bus_id trip) capacity
                    (snd (complete_trip tripId w)))))).
Proof.
  intros Hadmin Hid Hfind Hactive capacity.
  destruct (admin_session_requires env token w Hadmin) as (user & Hu).
  unfold respond, handleAdminEndTrip, try_catch_admin.
  unfold bind at 1. rewrite Hu.
  replace (tripId =? 0) with false by lia.
  unfold bind at 1. unfold query at 1. rewrite Hfind, Hactive.
  reflexivity.
Qed.

(** What creating a trip for a free bus does. *)
Lemma handleAdminCreateTrip_run env token data w routeId busId route bus :
  admin_session env w token = true ->
  truthy (ct_routeId data) = Some routeId -> truthy (ct_busId data) = Some busId ->
  find (fun r => r_id r =? routeId) (routes (db w)) = Some route ->
  find (fun b => bus_id b =? busId) (buses (db w)) = Some bus ->
  find (fun r => (t_bus_id r =? busId) && String.eqb (t_status r) "active")
       (trip_schedules (db w)) = None ->
  let tripId := next_id (map t_id (trip_schedules (db w))) in
  let price := match ct_price data with Some p => p | None => bus_price bus end in
  respond (handleAdminCreateTrip env token data) w
  = ({| status := 200;
        body := Json {| ctj_tripId := tripId; ctj_routeId := routeId;
                        ctj_busId := busId;
                        ctj_departureDate := nonempty (ct_departureDate data);
                        ctj_departureTime := nonempty (ct_departureTime data);
                        ctj_price := price; ctj_status := "active" |} |},
     snd (assign_bus busId routeId (bus_capacity bus) price
            (snd (insert_trip routeId busId w)))).
Proof.
  intros Hadmin Hr Hb Hroute Hbus Hfree tripId price.
  destruct (admin_session_requires env token w Hadmin) as (user & Hu).
  unfold respond, handleAdminCreateTrip, try_catch_admin.
  unfold bind at 1. rewrite Hu, Hr, Hb.
  unfold bind at 1. unfold query at 1. rewrite Hroute.
  unfold bind at 1. unfold query at 1. rewrite Hbus.
  unfold bind at 1. unfold query at 1. rewrite Hfree.
  reflexivity.
Qed.

(** The other answers of the two handlers leave the world as it is. *)
Lemma handleAdminEndTrip_cases env token tripId w :
  snd (respond (handleAdminEndTrip env token tripId) w) = w
  \/ exists trip,
       admin_session env w token = true /\ tripId <> 0
       /\ find (fun r => t_id r =? tripId) (trip_schedules (db w)) = Some trip
       /\ t_status trip = "active".
Proof.
  destruct (requireAdminUser_cases env token w) as [[Hadmin (user & Hu)]|[_ (e & He & _)]].
  2:{ left. unfold respond, handleAdminEndTrip, try_catch_admin.
      unfold bind at 1. now rewrite He. }
  unfold respond, handleAdminEndTrip, try_catch_admin.
  unfold bind at 1. rewrite Hu.
  destruct (tripId =? 0) eqn:E0; [now left|].
  unfold bind at 1. unfold query at 1.
  destruct (find _ _) as [trip|] eqn:F; [|now left].
  destruct (String.eqb (t_status trip) "active") eqn:Es; [|now left].
  right. exists trip. apply String.eqb_eq in Es. repeat split; auto. lia.
Qed.

Lemma handleAdminCreateTrip_cases env token data w :
  snd (respond (handleAdminCreateTrip env token data) w) = w
  \/ exists routeId busId route bus,
       admin_session env w token = true
       /\ truthy (ct_routeId data) = Some routeId
       /\ truthy (ct_busId data) = Some busId
       /\ find (fun r => r_id r =? routeId) (routes (db w)) = Some route
       /\ find (fun b => bus_id b =? busId) (buses (db w)) = Some bus
       /\ find (fun r => (t_bus_id r =? busId) && String.eqb (t_status r) "active")
               (trip_schedules (db w)) = None.
Proof.
  destruct (requireAdminUser_cases env token w) as [[Hadmin (user & Hu)]|[_ (e & He & _)]].
  2:{ left. unfold respond, handleAdminCreateTrip, try_catch_admin.
      unfold bind at 1. now rewrite He. }
  unfold respond, handleAdminCreateTrip, try_catch_admin.
  unfold bind at 1. rewrite Hu.
  destruct (truthy (ct_routeId data)) as [routeId|]; [|now left].
  destruct (truthy (ct_busId data)) as [busId|]; [|now left].
  unfold bind at 1. unfold query at 1.
  destruct (find _ (routes (db w))) as [route|] eqn:Fr; [|now left].
  unfold bind at 1. unfold query at 1.
  destruct (find _ (buses (db w))) as [bus|] eqn:Fb; [|now left].
  unfold bind at 1. unfold query at 1.
  destruct (find _ (trip_schedules (db w))) as [active|] eqn:Ft; [now left|].
  right. exists routeId, busId, route, bus. repeat split; auto.
Qed.

End Trips.

Section TripEffects.

Lemma complete_trip_ids tripId l :
  map t_id
    (map (fun r =>
            if t_id r =? tripId then
              {| t_id := t_id r; t_route_id := t_route_id r;
                 t_bus_id := t_bus_id r; t_status := "completed" |}
            else r) l)
  = map t_id l.
Proof.
  rewrite map_map. apply map_ext. intros r. now destruct (t_id r =? tripId).
Qed.

Lemma complete_trip_In tripId l r' :
  In r' (map (fun r =>
                if t_id r =? tripId then
                  {| t_id := t_id r; t_route_id := t_route_id r;
                     t_bus_id := t_bus_id r; t_status := "completed" |}
                else r) l) ->
  (t_id r' = tripId /\ t_status r' = "completed")
  \/ (t_id r' <> tripId /\ In r' l).
Proof.
  intros H. apply in_map_iff in H as (r & <- & Hr).
  destruct (t_id r =? tripId) eqn:E.
  - left. apply Z.eqb_eq in E. split; [exact E|reflexivity].
  - right. apply Z.eqb_neq in E. split; assumption.
Qed.

Lemma complete_trip_keeps tripId l r :
  In r l -> t_id r <> tripId ->
  In r (map (fun r =>
               if t_id r =? tripId then
                 {| t_id := t_id r; t_route_id := t_route_id r;
                    t_bus_id := t_bus_id r; t_status := "completed" |}
               else r) l).
Proof.
  intros Hr Hid. apply in_map_iff. exists r. split; [|exact Hr].
  apply Z.eqb_neq in Hid. now rewrite Hid.
Qed.

(** An answer of [handleAdminEndTrip] other than 200 is an error that
    leaves the world as it is. *)
Lemma handleAdminEndTrip_refusal env token tripId w :
  (forall trip,
     find (fun r => t_id r =? tripId) (trip_schedules (db w)) = Some trip ->
     t_status trip <> "active") ->
  status (fst (respond (handleAdminEndTrip env token tripId) w)) <> 200
  /\ snd (respond (handleAdminEndTrip env token tripId) w) = w.
Proof.
  intros Hnone.
  remember (respond (handleAdminEndTrip env token tripId) w) as r eqn:Er.
  revert Er. unfold respond, handleAdminEndTrip, try_catch_admin.
  unfold bind at 1.
  pose proof (getSessionUser_reads env token w) as R.
  unfold requireAdminUser, bind.
  destruct (getSessionUser env token w) as [[user|e] w1]; simpl in R; subst w1.
  2:{ intros ->. cbn [fst snd status]. split; [|reflexivity].
      destruct (str_includes _ _); discriminate. }
  destruct (negb (isAdminEmail env (u_email user))).
  { intros ->. cbn. split; [discriminate|reflexivity]. }
  cbn [ret]. destruct (tripId =? 0).
  { intros ->. cbn. split; [discriminate|reflexivity]. }
  unfold query at 1.
  destruct (find _ _) as [trip|] eqn:F.
  2:{ intros ->. cbn. split; [discriminate|reflexivity]. }
  specialize (Hnone trip eq_refl). apply String.eqb_neq in Hnone.
  rewrite Hnone. intros ->. cbn. split; [discriminate|reflexivity].
Qed.

End TripEffects.

(** X22.  Ending an active trip, by an administrator, is answered 200; the
    trip is completed, the other trips and the bookings stay as they are,
    the locks of the trip, and only those, are deleted; after it, no request
    resolves to the trip, and a second end of the trip is refused. *)
Theorem ended_trip_is_completed (env : Env) (token : option string) (tripId : Z)
  (w : World) (trip : Trip) :
  admin_session env w token = true -> tripId <> 0 ->
  find (fun r => t_id r =? tripId) (trip_schedules (db w)) = Some trip ->
  t_status trip = "active" ->
  let r := respond (handleAdminEndTrip env token tripId) w in
  status (fst r) = 200
  /\ (forall r', In r' (trip_schedules (db (snd r))) -> t_id r' = tripId ->
                 t_status r' = "completed")
  /\ (forall r', In r' (trip_schedules (db w)) -> t_id r' <> tripId ->
                 In r' (trip_schedules (db (snd r))))
  /\ map t_id (trip_schedules (db (snd r))) = map t_id (trip_schedules (db w))
  /\ (forall l, In l (seat_locks (db (snd r))) <->
                In l (seat_locks (db w)) /\ l_trip_id l <> Some tripId)
  /\ bookings (db (snd r)) = bookings (db w)
  /\ (forall busId,
        exists e, fst (resolveTripForBus busId (Some tripId) (snd r)) = Throw e)
  /\ (forall env2 token2,
        status (fst (respond (handleAdminEndTrip env2 token2 tripId) (snd r)))
        <> 200).
Proof.
  intros Hadmin Hid Hfind Hactive r. subst r.
  rewrite (handleAdminEndTrip_run env token tripId w trip Hadmin Hid Hfind Hactive).
  unfold delete_trip_locks, update_available_seats, complete_trip, run.
  cbn [fst snd status db trip_schedules seat_locks bookings set_seat_locks
       set_buses set_trip_schedules].
  assert (Hdone : forall r', In r' (map (fun r =>
                      if t_id r =? tripId then
                        {| t_id := t_id r; t_route_id := t_route_id r;
                           t_bus_id := t_bus_id r; t_status := "completed" |}
                      else r) (trip_schedules (db w))) ->
                    t_id r' = tripId -> t_status r' = "completed").
  { intros r' Hr' E. apply complete_trip_In in Hr' as [[_ H]|[H _]];
      [exact H|now destruct H]. }
  split; [reflexivity|]. split; [exact Hdone|].
  split; [intros r' Hr' Hne; now apply complete_trip_keeps|].
  split; [apply complete_trip_ids|]. split.
  { intros l. rewrite filter_In. split; intros [Hl Ht]; (split; [exact Hl|]).
    - intros E. rewrite E in Ht. simpl in Ht. now rewrite Z.eqb_refl in Ht.
    - destruct (l_trip_id l) as [t|]; [|reflexivity]. simpl.
      apply negb_true_iff, Z.eqb_neq. congruence. }
  split; [reflexivity|]. split.
  - intros busId. unfold resolveTripForBus.
    assert (Ht : truthy (Some tripId) = Some tripId).
    { destruct tripId; [now destruct Hid|reflexivity|reflexivity]. }
    rewrite Ht. unfold bind, query, ret, throw.
    cbn [fst snd db trip_schedules set_seat_locks set_buses set_trip_schedules].
    destruct (find (fun r => (t_id r =? tripId) && (t_bus_id r =? busId)) _)
      as [r0|] eqn:F; [|eexists; reflexivity].
    apply find_some in F as [Hin Hp]. apply andb_prop in Hp.
    destruct Hp as [Hp _].
    apply Z.eqb_eq in Hp. rewrite (Hdone r0 Hin Hp).
    eexists. reflexivity.
  - intros env2 token2. apply handleAdminEndTrip_refusal.
    cbn [db trip_schedules]. intros trip' F.
    apply find_some in F as [Hin Hp]. apply Z.eqb_eq in Hp.
    rewrite (Hdone trip' Hin Hp). discriminate.
Qed.

Lemma ended_trip_is_completed_witness :
  let r := respond (handleAdminEndTrip demo_env (Some "tok_admin") 3) demo_world in
  status (fst r) = 200
  /\ (forall l, In l (seat_locks (db (snd r))) <->
                In l (seat_locks (db demo_world)) /\ l_trip_id l <> Some 3)
  /\ exists e, fst (resolveTripForBus 2 (Some 3) (snd r)) = Throw e.
Proof.
  intros r.
  destruct (ended_trip_is_completed demo_env (Some "tok_admin") 3 demo_world
              {| t_id := 3; t_route_id := 1; t_bus_id := 2; t_status := "active" |})
    as (Hok & _ & _ & _ & Hlocks & _ & Hgone & _);
    try reflexivity; [discriminate|].
  split; [exact Hok|]. split; [exact Hlocks|]. apply Hgone.
Defined.

(** X23.  Trip creation and trip end keep the trips well formed: unique
    positive ids, and at most one active trip for a bus; a trip is created
    only for a bus without an active trip. *)
Theorem trip_handlers_keep_one_active_trip_per_bus (env : Env)
  (token : option string) (w : World) :
  trips_wf (db w) ->
  (forall data,
     trips_wf (db (snd (respond (handleAdminCreateTrip env token data) w))))
  /\ (forall tripId,
        trips_wf (db (snd (respond (handleAdminEndTrip env token tripId) w)))).
Proof.
  intros (Hids & Hpos & Hone). split.
  - intros data.
    destruct (handleAdminCreateTrip_cases env token data w)
      as [->|(routeId & busId & route & bus & Hadmin & Hr & Hb & Hroute & Hbus & Hfree)];
      [repeat split; assumption|].
    rewrite (handleAdminCreateTrip_run env token data w routeId busId route bus
               Hadmin Hr Hb Hroute Hbus Hfree).
    unfold assign_bus, insert_trip, run, sql. unfold trips_wf.
    cbn [fst snd db trip_schedules set_buses set_trip_schedules].
    set (new := {| t_id := next_id (map t_id (trip_schedules (db w)));
                   t_route_id := routeId; t_bus_id := busId;
                   t_status := "active" |}).
    split; [|split].
    + rewrite map_app. apply NoDup_snoc; [exact Hids|]. intros Hin.
      apply next_id_fresh in Hin. cbn [new t_id] in Hin. lia.
    + intros r Hr'. apply in_app_or in Hr' as [Hr'|[<-|[]]]; [now apply Hpos|].
      cbn [new t_id]. pose proof (next_id_positive (map t_id (trip_schedules (db w)))).
      lia.
    + assert (Hold : forall r, In r (trip_schedules (db w)) ->
                               t_status r = "active" -> t_bus_id r = busId -> False).
      { intros r Hin Hs Hbus'. pose proof (find_none _ _ Hfree r Hin) as Hn.
        cbv beta in Hn. rewrite Hbus', Hs, Z.eqb_refl in Hn. discriminate. }
      intros r1 r2 H1 H2 Hs1 Hs2 Hbb.
      apply in_app_or in H1 as [H1|[<-|[]]], H2 as [H2|[<-|[]]].
      * now apply Hone.
      * exfalso. apply (Hold r1 H1 Hs1). exact Hbb.
      * exfalso. apply (Hold r2 H2 Hs2). symmetry. exact Hbb.
      * reflexivity.
  - intros tripId.
    destruct (handleAdminEndTrip_cases env token tripId w)
      as [->|(trip & Hadmin & Hid & Hfind & Hactive)];
      [repeat split; assumption|].
    rewrite (handleAdminEndTrip_run env token tripId w trip Hadmin Hid Hfind Hactive).
    unfold delete_trip_locks, update_available_seats, complete_trip, run.
    unfold trips_wf.
    cbn [fst snd db trip_schedules set_seat_locks set_buses set_trip_schedules].
    split; [|split].
    + now rewrite complete_trip_ids.
    + intros r Hr. apply in_map_iff in Hr as (r0 & <- & Hr0).
      specialize (Hpos r0 Hr0). now destruct (t_id r0 =? tripId).
    + intros r1 r2 H1 H2 Hs1 Hs2 Hbb.
      apply complete_trip_In in H1 as [[_ H1]|[_ H1]]; [congruence|].
      apply complete_trip_In in H2 as [[_ H2]|[_ H2]]; [congruence|].
      now apply Hone.
Qed.

Lemma demo_trips_wf : trips_wf (db demo_world).
Proof.
  unfold trips_wf. cbn [demo_world db demo_db trip_schedules map t_id].
  split; [|split].
  - repeat constructor. simpl. tauto.
  - intros r [<-|[]]. cbn. lia.
  - intros r1 r2 [<-|[]] [<-|[]]. reflexivity.
Qed.

Lemma trip_handlers_keep_one_active_trip_per_bus_witness :
  trips_wf (db demo_world)
  /\ trips_wf (db (snd (respond (handleAdminEndTrip demo_env (Some "tok_admin") 3)
                          demo_world))).
Proof.
  split; [exact demo_trips_wf|].
  apply (trip_handlers_keep_one_active_trip_per_bus demo_env (Some "tok_admin")
           demo_world demo_trips_wf).
Defined.

Section TripCreation.

(** A request for a bus that has an active trip is refused. *)
Lemma handleAdminCreateTrip_refusal env token data w busId active :
  truthy (ct_busId data) = Some busId ->
  find (fun r => (t_bus_id r =? busId) && String.eqb (t_status r) "active")
       (trip_schedules (db w)) = Some active ->
  status (fst (respond (handleAdminCreateTrip env token data) w)) <> 200
  /\ snd (respond (handleAdminCreateTrip env token data) w) = w.
Proof.
  intros Hb Hactive.
  remember (respond (handleAdminCreateTrip env token data) w) as r eqn:Er.
  revert Er. unfold respond, handleAdminCreateTrip, try_catch_admin.
  unfold bind at 1.
  pose proof (getSessionUser_reads env token w) as R.
  unfold requireAdminUser, bind.
  destruct (getSessionUser env token w) as [[user|e] w1]; simpl in R; subst w1.
  2:{ intros ->. cbn [fst snd status]. split; [|reflexivity].
      destruct (str_includes _ _); discriminate. }
  destruct (negb (isAdminEmail env (u_email user))).
  { intros ->. cbn. split; [discriminate|reflexivity]. }
  cbn [ret]. rewrite Hb.
  destruct (truthy (ct_routeId data)) as [routeId|].
  2:{ intros ->. cbn. split; [discriminate|reflexivity]. }
  unfold query at 1.
  destruct (find _ (routes (db w))).
  2:{ intros ->. cbn. split; [discriminate|reflexivity]. }
  unfold query at 1.
  destruct (find _ (buses (db w))).
  2:{ intros ->. cbn. split; [discriminate|reflexivity]. }
  unfold query at 1. rewrite Hactive.
  intros ->. cbn. split; [discriminate|reflexivity].
Qed.

End TripCreation.

(** X24.  A trip that an administrator creates for a bus without an active
    trip is the trip of that bus from then on: the answer is 200; requests
    on the bus, with the id of the trip or without an id, resolve to it; the
    bus carries the route of the trip and all its seats are available; and
    a second trip for the bus is refused while the trip is active. *)
Theorem created_trip_is_the_trip_of_its_bus (env : Env) (token : option string)
  (data : CreateTripRequest) (w : World) (routeId busId : Z) (route : Route)
  (bus : Bus) :
  admin_session env w token = true ->
  truthy (ct_routeId data) = Some routeId -> truthy (ct_busId data) = Some busId ->
  find (fun r => r_id r =? routeId) (routes (db w)) = Some route ->
  find (fun b => bus_id b =? busId) (buses (db w)) = Some bus ->
  find (fun r => (t_bus_id r =? busId) && String.eqb (t_status r) "active")
       (trip_schedules (db w)) = None ->
  let r := respond (handleAdminCreateTrip env token data) w in
  let trip := {| t_id := next_id (map t_id (trip_schedules (db w)));
                 t_route_id := routeId; t_bus_id := busId;
                 t_status := "active" |} in
  status (fst r) = 200
  /\ trip_schedules (db (snd r)) = trip_schedules (db w) ++ [trip]
  /\ resolveTripForBus busId None (snd r) = (Ret (Some trip), snd r)
  /\ resolveTripForBus busId (Some (t_id trip)) (snd r) = (Ret (Some trip), snd r)
  /\ (exists b, find (fun b => bus_id b =? busId) (buses (db (snd r))) = Some b
                /\ bus_route_id b = Some routeId
                /\ bus_capacity b = bus_capacity bus
                /\ bus_available_seats b = bus_capacity bus)
  /\ (bookings (db (snd r)) = bookings (db w)
      /\ seat_locks (db (snd r)) = seat_locks (db w))
  /\ (forall env2 token2 data2,
        truthy (ct_busId data2) = Some busId ->
        status (fst (respond (handleAdminCreateTrip env2 token2 data2) (snd r)))
        <> 200).
Proof.
  intros Hadmin Hr Hb Hroute Hbus Hfree r trip. subst r.
  rewrite (handleAdminCreateTrip_run env token data w routeId busId route bus
             Hadmin Hr Hb Hroute Hbus Hfree).
  unfold assign_bus, insert_trip, run, sql.
  cbn [fst snd status db trip_schedules buses bookings seat_locks set_buses
       set_trip_schedules].
  fold trip.
  assert (Hnone : filter (fun r => (t_bus_id r =? busId)
                                   && String.eqb (t_status r) "active")
                    (trip_schedules (db w)) = []).
  { apply filter_none. intros x Hx. exact (find_none _ _ Hfree x Hx). }
  assert (Hp : (t_bus_id trip =? busId) && String.eqb (t_status trip) "active"
               = true).
  { cbn [trip t_bus_id t_status]. now rewrite Z.eqb_refl. }
  assert (Hfound : find (fun r => (t_bus_id r =? busId)
                                  && String.eqb (t_status r) "active")
                     (trip_schedules (db w) ++ [trip]) = Some trip).
  { apply find_app_none; [exact Hfree|exact Hp]. }
  split; [reflexivity|]. split; [reflexivity|]. split.
  { unfold resolveTripForBus, query.
    cbn [truthy db trip_schedules set_buses set_trip_schedules].
    rewrite filter_app, Hnone. cbn [filter app]. rewrite Hp. reflexivity. }
  split.
  { unfold resolveTripForBus. cbn [trip t_id]. rewrite truthy_next_id.
    unfold bind, query, ret.
    cbn [fst snd db trip_schedules set_buses set_trip_schedules].
    rewrite find_app_none.
    - reflexivity.
    - apply find_none_all. intros x Hx.
      pose proof (next_id_fresh (map t_id (trip_schedules (db w))) (t_id x)
                    (in_map t_id _ _ Hx)) as Hlt.
      replace (t_id x =? next_id (map t_id (trip_schedules (db w)))) with false
        by lia. reflexivity.
    - cbn [t_id t_bus_id]. now rewrite !Z.eqb_refl. }
  split.
  { rewrite find_map_same.
    - rewrite Hbus. cbn [option_map].
      apply find_some in Hbus as [_ Hid]. cbv beta in Hid. rewrite Hid.
      eexists. split; [reflexivity|]. repeat split.
    - intros b. now destruct (bus_id b =? busId) eqn:E. }
  split; [split; reflexivity|].
  intros env2 token2 data2 Hb2.
  apply (handleAdminCreateTrip_refusal env2 token2 data2 _ busId trip Hb2).
  exact Hfound.
Qed.

Lemma created_trip_is_the_trip_of_its_bus_witness :
  let data := {| ct_routeId := Some 1; ct_busId := Some 1;
                 ct_departureDate := Some "2026-01-05";
                 ct_departureTime := Some "06:30"; ct_price := None |} in
  let r := respond (handleAdminCreateTrip demo_env (Some "tok_admin") data)
             demo_world in
  status (fst r) = 200
  /\ resolveTripForBus 1 None (snd r)
     = (Ret (Some {| t_id := 4; t_route_id := 1; t_bus_id := 1;
                     t_status := "active" |}), snd r).
Proof.
  intros data r.
  destruct (created_trip_is_the_trip_of_its_bus demo_env (Some "tok_admin") data
              demo_world 1 1 {| r_id := 1; r_name := "Accra - Kumasi" |}
              {| bus_id := 1; bus_route_id := Some 1; bus_name := "Elite 01";
                 bus_capacity := 50; bus_available_seats := 50;
                 bus_price := 50 # 1 |})
    as (Hok & _ & Hresolve & _); try reflexivity.
  split; [exact Hok|exact Hresolve].
Defined.

Section TripsAndLocks.

Lemma capacity_of_assign_bus busId routeId seats price w bus :
  capacity_of (db (snd (assign_bus busId routeId seats price w))) bus
  = capacity_of (db w) bus.
Proof.
  unfold assign_bus, run, capacity_of. cbn [snd db set_buses buses].
  rewrite find_map_same.
  - destruct (find _ (buses (db w))) as [b|]; [|reflexivity]. simpl.
    now destruct (bus_id b =? busId).
  - intros b. now destruct (bus_id b =? busId).
Qed.

Lemma capacity_of_update_available_seats busId remaining w bus :
  capacity_of (db (snd (update_available_seats busId remaining w))) bus
  = capacity_of (db w) bus.
Proof.
  destruct (only_deletes_update_available_seats busId remaining w)
    as (_ & H & _). apply H.
Qed.

End TripsAndLocks.

(** X25.  Trip creation and trip end keep the state of the locks: unique
    ids, at most one unexpired lock for a bus, trip and canonical seat, and
    every lock of a trip on an active trip of its bus.  Ending a trip
    deletes the locks that would be left on a trip that is no longer
    active. *)
Theorem trip_handlers_keep_the_state_of_the_locks (env : Env)
  (token : option string) (w : World) :
  locks_wf (now env) (db w) ->
  (forall data,
     locks_wf (now env)
       (db (snd (respond (handleAdminCreateTrip env token data) w))))
  /\ (forall tripId,
        locks_wf (now env)
          (db (snd (respond (handleAdminEndTrip env token tripId) w)))).
Proof.
  intros Hwf. pose proof Hwf as (Hids & Huniq & Hpos & Hactive). split.
  - intros data.
    destruct (handleAdminCreateTrip_cases env token data w)
      as [->|(routeId & busId & route & bus & Hadmin & Hr & Hb & Hroute & Hbus & Hfree)];
      [exact Hwf|].
    rewrite (handleAdminCreateTrip_run env token data w routeId busId route bus
               Hadmin Hr Hb Hroute Hbus Hfree). cbn [snd].
    set (price := match ct_price data with Some p => p | None => bus_price bus end).
    assert (Hseat : forall l,
               seat_of_lock
                 (db (snd (assign_bus busId routeId (bus_capacity bus) price
                             (snd (insert_trip routeId busId w))))) l
               = seat_of_lock (db w) l).
    { intros l. unfold seat_of_lock. now rewrite capacity_of_assign_bus. }
    unfold locks_wf.
    split; [exact Hids|]. split; [|split].
    + intros l1 l2 k H1 H2. rewrite !Hseat. now apply Huniq.
    + intros r Hr'. cbn in Hr'.
      apply in_app_or in Hr' as [Hr'|[<-|[]]]; [now apply Hpos|].
      pose proof (next_id_positive (map t_id (trip_schedules (db w)))) as Hn.
      cbn. cbn in Hn. lia.
    + intros l t Hl Ht. destruct (Hactive l t Hl Ht) as (r & Hr' & Hrest).
      exists r. split; [|exact Hrest]. cbn. apply in_or_app. now left.
  - intros tripId.
    destruct (handleAdminEndTrip_cases env token tripId w)
      as [->|(trip & Hadmin & Hid & Hfind & Hactive')]; [exact Hwf|].
    rewrite (handleAdminEndTrip_run env token tripId w trip Hadmin Hid Hfind
               Hactive'). cbn [snd].
    set (capacity := match find (fun b => bus_id b =? t_bus_id trip) (buses (db w))
                     with Some b => bus_capacity b | None => 0 end).
    assert (Hseat : forall l,
               seat_of_lock
                 (db (snd (delete_trip_locks tripId
                             (snd (update_available_seats (t_bus_id trip) capacity
                                     (snd (complete_trip tripId w))))))) l
               = seat_of_lock (db w) l).
    { intros l. unfold seat_of_lock.
      change (capacity_of
                (db (snd (delete_trip_locks tripId
                            (snd (update_available_seats (t_bus_id trip) capacity
                                    (snd (complete_trip tripId w))))))))
        with (capacity_of
                (db (snd (update_available_seats (t_bus_id trip) capacity
                            (snd (complete_trip tripId w)))))).
      now rewrite capacity_of_update_available_seats. }
    unfold locks_wf. split; [|split; [|split]].
    + cbn. now apply NoDup_map_filter.
    + intros l1 l2 k H1 H2. rewrite !Hseat. cbn in H1, H2.
      apply filter_In in H1 as [H1 _], H2 as [H2 _]. now apply Huniq.
    + intros r Hr. cbn in Hr. apply in_map_iff in Hr as (r0 & <- & Hr0).
      specialize (Hpos r0 Hr0). now destruct (t_id r0 =? tripId).
    + intros l t Hl Ht. cbn in Hl. apply filter_In in Hl as [Hl Hkeep].
      destruct (Hactive l t Hl Ht) as (r & Hr & Hrid & Hrest).
      exists r. split; [|split; assumption].
      cbn. apply complete_trip_keeps; [exact Hr|].
      rewrite Ht in Hkeep. simpl in Hkeep.
      apply negb_true_iff, Z.eqb_neq in Hkeep. congruence.
Qed.

Lemma trip_handlers_keep_the_state_of_the_locks_witness :
  locks_wf (now demo_env) (db demo_world)
  /\ locks_wf (now demo_env)
       (db (snd (respond (handleAdminEndTrip demo_env (Some "tok_admin") 3)
                   demo_world))).
Proof.
  split; [exact demo_db_locks_wf|].
  apply (trip_handlers_keep_the_state_of_the_locks demo_env (Some "tok_admin")
           demo_world demo_db_locks_wf).
Defined.

(** ** What a paid request gets *)

Section ConfirmGives.

Lemma same_bookings_and_locks_refl w : same_bookings_and_locks w w.
Proof. repeat split. Qed.

Lemma same_bookings_and_locks_trans w1 w2 w3 :
  same_bookings_and_locks w1 w2 -> same_bookings_and_locks w2 w3 ->
  same_bookings_and_locks w1 w3.
Proof.
  intros (Hb & Hp & Hl) (Hb' & Hp' & Hl'). repeat split; congruence.
Qed.

(** The insertion loop, when it returns, has appended one confirmed booking
    for every seat key, in the order of the keys. *)
Lemma insert_seats_ret passenger bus tripKey paid ref single seatKeys :
  forall created w1 ids w2,
    insert_seats passenger bus tripKey paid ref single seatKeys created w1
    = (Ret ids, w2) ->
    exists rows,
      bookings (db w2) = bookings (db w1) ++ rows
      /\ map b_seat_number rows = seatKeys
      /\ Forall (fun b =>
                   b_passenger_id b = passenger /\ b_bus_id b = bus
                   /\ b_trip_id b = tripKey /\ b_status b = "confirmed"
                   /\ b_external_ref b
                      = Some (if single then ref
                              else (ref ++ ":" ++ b_seat_number b)%string))
                rows
      /\ passengers (db w2) = passengers (db w1)
      /\ seat_locks (db w2) = seat_locks (db w1).
Proof.
  induction seatKeys as [|k rest IH]; intros created w1 ids w2.
  - simpl. unfold ret. intros [= _ <-]. exists [].
    rewrite List.app_nil_r. repeat split. constructor.
  - simpl insert_seats. unfold bind at 1.
    unfold insertConfirmedBookingAtomic, sql.
    destruct (existsb _ (bookings (db w1))) eqn:Eblock.
    + cbn [inserted negb]. unfold bind at 1.
      destruct (for_each_delete_booking created
                  {| db := db w1; outbox := outbox w1 |}) as (w' & -> & _).
      unfold bind, delete_passenger, run, throw. discriminate.
    + cbn [inserted negb bookingId]. intros H.
      apply IH in H as (rows & Hb & Hseats & Hrows & Hp & Hl).
      cbn [db set_bookings bookings passengers seat_locks busId tripId
             passengerId seatNumber pricePaid externalRef] in Hb, Hp, Hl.
      match type of Hb with
      | _ = (_ ++ [?row]) ++ _ => exists (row :: rows)
      end.
      split; [now rewrite Hb, <- List.app_assoc|].
      split; [cbn [map b_seat_number]; now rewrite Hseats|].
      split; [|split; assumption].
      constructor; [|exact Hrows]. cbn. repeat split.
Qed.

(** The loop that removes the consumed locks. *)
Lemma release_locks_run (owned : list SeatLock) : forall w,
  exists w',
    for_each owned (fun lock =>
      run (set_seat_locks (filter (fun l => negb (l_id l =? l_id lock))))) w
    = (Ret tt, w')
    /\ bookings (db w') = bookings (db w)
    /\ passengers (db w') = passengers (db w)
    /\ seat_locks (db w') = filter (not_released owned) (seat_locks (db w)).
Proof.
  induction owned as [|o owned IH]; intros w.
  - exists w. simpl. repeat split. symmetry. now apply filter_all.
  - simpl for_each. unfold bind at 1. unfold run at 1.
    destruct (IH {| db := set_seat_locks
                            (filter (fun l => negb (l_id l =? l_id o))) (db w);
                    outbox := outbox w |}) as (w' & -> & Hb & Hp & Hl).
    exists w'. split; [reflexivity|]. split; [exact Hb|]. split; [exact Hp|].
    rewrite Hl. cbn [db set_seat_locks seat_locks].
    clear. induction (seat_locks (db w)) as [|l ls IHl]; [reflexivity|].
    unfold not_released in *. cbn [filter existsb].
    destruct (l_id l =? l_id o); cbn [negb orb filter].
    + exact IHl.
    + destruct (negb (existsb _ owned)); [now rewrite IHl|exact IHl].
Qed.

Lemma owned_locks_found env bus tripKey lockId capacity seatKeys :
  forall w locks w',
    truthy tripKey = tripKey ->
    owned_locks env bus tripKey lockId capacity seatKeys w = (Ret locks, w') ->
    forall k, In k seatKeys ->
      exists l, In l locks /\ In l (seat_locks (db w))
                /\ l_bus_id l = bus /\ trip_matches tripKey (l_trip_id l)
                /\ now env < l_expires_at l
                /\ (exists s, l_locked_by l = Some s /\ lockId = Some s)
                /\ normalizeSeatNumberRaw (Some (l_seat_number l)) capacity
                   = Some k.
Proof.
  induction seatKeys as [|k0 rest IH]; intros w locks w' Ht H k Hk; [destruct Hk|].
  revert H. simpl. unfold bind at 1.
  unfold findOwnedActiveLockForSeat, bind, query, ret. cbn [fst snd].
  destruct (find _ _) as [l|] eqn:F; [|discriminate].
  destruct (owned_locks env bus tripKey lockId capacity rest w) as [[ls|e] w1] eqn:E;
    [|discriminate].
  intros [= <- _]. destruct Hk as [<-|Hk].
  - apply find_some in F as [Hl Hn]. apply filter_In in Hl as [Hl Hrow].
    apply andb_true_iff in Hrow as [Hrow Ho].
    apply (active_lock_row_spec _ _ _ _ Ht) in Hrow as (Hb & Htm & He).
    apply normalizes_to_spec in Hn. apply sql_eq_string_true in Ho.
    exists l. split; [now left|]. repeat split; assumption.
  - destruct (IH w ls w1 Ht E k Hk) as (l' & Hin & Hrest).
    exists l'. split; [now right|exact Hrest].
Qed.

End ConfirmGives.

(** Splits a goal [keeps same_bookings_and_locks m]; a step that leaves the
    three tables alone is closed by conversion. *)
Ltac keeps_bookings_and_locks_auto :=
  repeat first
    [ apply keeps_ret; exact same_bookings_and_locks_refl
    | apply keeps_throw; exact same_bookings_and_locks_refl
    | apply keeps_query; exact same_bookings_and_locks_refl
    | apply keeps_bind; [exact same_bookings_and_locks_trans | | intros ?]
    | apply keeps_for_each;
        [exact same_bookings_and_locks_refl
        |exact same_bookings_and_locks_trans | intros ?]
    | match goal with
      | |- keeps _ (match ?x with _ => _ end) => destruct x
      | |- keeps _ (if ?b then _ else _) => destruct b
      end
    | (intros ?w; exact (conj eq_refl (conj eq_refl eq_refl))) ].

Section ConfirmCommit.

(** The commit, when it returns: the passenger of the request is the last
    passenger, the bookings of the request follow the bookings there were,
    and the consumed locks are gone. *)
Lemma confirm_commit_ret env data trip seatKeys ownedLocks w r w' :
  confirm_commit env data trip seatKeys ownedLocks w = (Ret r, w') ->
  (exists rows,
      bookings (db w') = bookings (db w) ++ rows
      /\ map b_seat_number rows = seatKeys
      /\ Forall (booking_of_request data (trip_key trip)
                   (Z.of_nat (List.length seatKeys) =? 1)
                   (next_id (map p_id (passengers (db w))))) rows)
  /\ passengers (db w')
     = passengers (db w)
       ++ [{| p_id := next_id (map p_id (passengers (db w)));
              p_first_name := c_firstName data; p_last_name := c_lastName data;
              p_email := c_email data; p_phone := c_phone data;
              p_nok_name := c_nokName data; p_nok_phone := c_nokPhone data |}]
  /\ seat_locks (db w') = filter (not_released ownedLocks) (seat_locks (db w)).
Proof.
  unfold confirm_commit. cbv zeta. unfold bind at 1.
  unfold insert_passenger, sql.
  set (pid := next_id (map p_id (passengers (db w)))).
  match goal with
  | |- context [set_passengers (fun ps => ps ++ [?p]) (db w)] => set (row := p)
  end.
  set (w1 := {| db := set_passengers (fun ps => ps ++ [row]) (db w);
                outbox := outbox w |}).
  unfold bind at 1.
  destruct (insert_seats pid (c_busId data) (trip_key trip) _ _ _ seatKeys [] w1)
    as [[created|e0] w2] eqn:E; [|discriminate].
  apply insert_seats_ret in E as (rows & Hb & Hseats & Hrows & Hp & Hl).
  unfold bind at 1.
  destruct (release_locks_run ownedLocks w2) as (w3 & -> & Hb3 & Hp3 & Hl3).
  match goal with
  | |- ?tail w3 = _ -> _ =>
      assert (Htail : keeps same_bookings_and_locks tail)
  end.
  { unfold update_available_seats, route_name_of, sendBookingToGAS,
      saveReceiptForBooking, sendSMS, ok.
    keeps_bookings_and_locks_auto. }
  intros Hrun. specialize (Htail w3). rewrite Hrun in Htail.
  destruct Htail as (Hb4 & Hp4 & Hl4). cbn [snd] in Hb4, Hp4, Hl4.
  split; [|split].
  - exists rows. split; [now rewrite Hb4, Hb3, Hb|]. split; [exact Hseats|].
    exact Hrows.
  - now rewrite Hp4, Hp3, Hp.
  - now rewrite Hl4, Hl3, Hl.
Qed.

End ConfirmCommit.

(** X26.  A confirmation request that is answered with status 200 for a
    payment reference without bookings adds the passenger of the request
    and, after the bookings there were, one confirmed booking for every seat
    key of the request, in their order, for that passenger, on the bus and
    trip of the request and under the reference of the payment; for every
    seat key, a lock that its session held on the seat is deleted, and no
    lock is added. *)
Theorem paid_request_books_its_seats (env : Env) (data : ConfirmRequest)
  (w : World) (trip : option Trip) (capacity : Z) (seatKeys : list string) :
  confirm_validate data w = (Ret (trip, capacity, seatKeys), w) ->
  existing_rows (c_paystackRef data) (db w) = [] ->
  status (fst (respond (handleBookingConfirm env data) w)) = 200 ->
  let w' := snd (respond (handleBookingConfirm env data) w) in
  let passenger := next_id (map p_id (passengers (db w))) in
  (exists rows,
      bookings (db w') = bookings (db w) ++ rows
      /\ map b_seat_number rows = seatKeys
      /\ Forall (booking_of_request data (trip_key trip)
                   (Z.of_nat (List.length seatKeys) =? 1) passenger) rows)
  /\ passengers (db w')
     = passengers (db w)
       ++ [{| p_id := passenger;
              p_first_name := c_firstName data; p_last_name := c_lastName data;
              p_email := c_email data; p_phone := c_phone data;
              p_nok_name := c_nokName data; p_nok_phone := c_nokPhone data |}]
  /\ (forall k, In k seatKeys ->
        exists l, In l (seat_locks (db w))
                  /\ l_bus_id l = c_busId data
                  /\ trip_matches (trip_key trip) (l_trip_id l)
                  /\ now env < l_expires_at l
                  /\ (exists s, l_locked_by l = Some s /\ c_lockId data = Some s)
                  /\ normalizeSeatNumberRaw (Some (l_seat_number l)) capacity
                     = Some k
                  /\ ~ In l (seat_locks (db w')))
  /\ (forall l, In l (seat_locks (db w')) -> In l (seat_locks (db w))).
Proof.
  intros Ev Ex. cbv zeta.
  remember (respond (handleBookingConfirm env data) w) as r eqn:Er. revert Er.
  unfold respond, handleBookingConfirm, try_catch.
  unfold bind at 1. rewrite Ev.
  unfold bind at 1. unfold query at 1. rewrite Ex.
  unfold bind at 1.
  pose proof (confirm_verify_keeps_db env data w) as Hdb.
  destruct (confirm_verify env data w) as [[[]|e] w1] eqn:Epay; simpl in Hdb.
  2:{ intros -> H. discriminate H. }
  unfold bind at 1.
  pose proof (owned_locks_reads env (c_busId data) (trip_key trip) (c_lockId data)
                capacity seatKeys w1) as Hreads.
  destruct (owned_locks env (c_busId data) (trip_key trip) (c_lockId data)
              capacity seatKeys w1) as [[locks|e] w2] eqn:El;
    simpl in Hreads; subst w2.
  2:{ intros -> H. discriminate H. }
  destruct (confirm_commit env data trip seatKeys locks w1) as [[resp|e] w3] eqn:Ec.
  2:{ intros -> H. discriminate H. }
  intros -> _. cbn [fst snd].
  apply confirm_commit_ret in Ec as (Hrows & Hp & Hl).
  rewrite Hdb in Hrows, Hp, Hl.
  split; [exact Hrows|]. split; [exact Hp|]. split.
  - intros k Hk.
    destruct (owned_locks_found env _ _ _ _ _ w1 locks w1 (truthy_trip_key trip)
                El k Hk) as (l & Hown & Hin & Hb & Ht & He & Hs & Hn).
    rewrite Hdb in Hin. exists l. repeat split; try assumption.
    rewrite Hl. intros Hleft. apply filter_In in Hleft as [_ Hleft].
    unfold not_released in Hleft. apply negb_true_iff in Hleft.
    enough (existsb (fun o => l_id l =? l_id o) locks = true) by congruence.
    apply existsb_exists. exists l. split; [exact Hown|apply Z.eqb_refl].
  - intros l Hin. rewrite Hl in Hin. now apply filter_In in Hin.
Qed.

Lemma paid_request_books_its_seats_witness :
  let w' := snd (respond (handleBookingConfirm demo_env demo_confirm) demo_world) in
  map b_seat_number (skipn (List.length (bookings (db demo_world)))
                       (bookings (db w'))) = ["5"]
  /\ (List.length (seat_locks (db w'))
      < List.length (seat_locks (db demo_world)))%nat.
Proof.
  destruct (paid_request_books_its_seats demo_env demo_confirm demo_world
              None 50 ["5"])
    as ((rows & Hb & Hseats & _) & _); try reflexivity.
  cbv zeta. split.
  - rewrite Hb, List.skipn_app, List.skipn_all, Nat.sub_diag. exact Hseats.
  - vm_compute. lia.
Defined.

(** ** Manual bookings *)

Section ManualBooking.

Lemma try_catch_ret {A} (m : M (Response (Body A))) st w r w' :
  try_catch m st w = (Ret r, w') -> status r <> st -> m w = (Ret r, w').
Proof.
  unfold try_catch. destruct (m w) as [[r0|e] w0]; intros [= <- <-] H.
  - reflexivity.
  - now destruct H.
Qed.

Lemma locked_list_spec env d busId tripKey capacity k :
  truthy tripKey = tripKey ->
  (In k (uniqueNormalizedSeatList
           (map l_seat_number
              (filter (active_lock_row env busId tripKey) (seat_locks d)))
           capacity)
   <-> exists l, lock_of_seat env d busId tripKey capacity k l).
Proof.
  intros Ht. rewrite uniqueNormalizedSeatList_In. unfold lock_of_seat. split.
  - intros (seat & Hin & Hk). apply in_map_iff in Hin as (l & <- & Hl).
    apply filter_In in Hl as [Hl Hrow].
    apply (active_lock_row_spec _ _ _ _ Ht) in Hrow. exists l. tauto.
  - intros (l & Hl & H1 & H2 & H3 & Hk). exists (l_seat_number l).
    split; [|exact Hk]. apply in_map, filter_In. split; [exact Hl|].
    apply (active_lock_row_spec _ _ _ _ Ht). tauto.
Qed.

Lemma handleAdminManualBooking_ret env token data w r w' :
  handleAdminManualBooking env token data w = (Ret r, w') ->
  status r = 200 ->
  admin_session env w token = true
  /\ exists bus trip seatKey,
       find (fun b => bus_id b =? m_busId data) (buses (db w)) = Some bus
       /\ resolveTripForBus (m_busId data) (truthy (m_tripId data)) w
          = (Ret trip, w)
       /\ normalizeSeatNumberRaw (m_seat data) (capacity_or_50 (bus_capacity bus))
          = Some seatKey
       /\ ~ booked_seat (db w) (m_busId data) (trip_key trip)
              (capacity_or_50 (bus_capacity bus)) seatKey
       /\ (forall l, ~ lock_of_seat env (db w) (m_busId data) (trip_key trip)
                         (capacity_or_50 (bus_capacity bus)) seatKey l)
       /\ (exists row,
             bookings (db w') = bookings (db w) ++ [row]
             /\ b_bus_id row = m_busId data /\ b_trip_id row = trip_key trip
             /\ b_seat_number row = seatKey /\ b_status row = "confirmed"
             /\ b_passenger_id row = next_id (map p_id (passengers (db w)))
             /\ b_external_ref row = Some (random_manual_ref env))
       /\ seat_locks (db w') = seat_locks (db w).
Proof.
  intros Hrun Hok. apply try_catch_ret in Hrun; [|rewrite Hok; discriminate].
  revert Hrun. unfold bind at 1.
  pose proof (getSessionUser_reads env token w) as Hreads.
  destruct (getSessionUser env token w) as [[user|e] w0] eqn:Eu;
    simpl in Hreads; subst w0; [|discriminate].
  destruct (isAdminEmail env (u_email user)) eqn:Eadmin; cbn [negb].
  2:{ unfold ret. intros [= <- _]. discriminate Hok. }
  assert (Hadmin : admin_session env w token = true).
  { unfold admin_session, session_of. now rewrite Eu. }
  cbv zeta.
  match goal with |- (if ?c then _ else _) w = _ -> _ => destruct c end;
    [discriminate|].
  unfold bind at 1. unfold query at 1.
  destruct (find (fun b => bus_id b =? m_busId data) (buses (db w)))
    as [bus|] eqn:Ebus; [|discriminate].
  unfold bind at 1.
  pose proof (resolveTripForBus_reads (m_busId data) (truthy (m_tripId data)) w)
    as Hreads.
  destruct (resolveTripForBus (m_busId data) (truthy (m_tripId data)) w)
    as [[trip|e] w0] eqn:Etrip; simpl in Hreads; subst w0; [|discriminate].
  destruct (normalizeSeatNumberRaw (m_seat data)
              (capacity_or_50 (bus_capacity bus))) as [seatKey|] eqn:Eseat;
    [|discriminate].
  unfold bind at 1. unfold hasConfirmedSeat at 1.
  unfold listConfirmedSeatNumbersForBusTrip at 1.
  unfold bind at 1. unfold query at 1. unfold ret at 1. cbn [fst snd].
  destruct (includes (uniqueNormalizedSeatList (map b_seat_number _) _) seatKey)
    eqn:Ebooked.
  { unfold bind at 1. unfold throw at 1. discriminate. }
  unfold bind at 1. unfold ret at 1. cbv beta iota.
  unfold bind at 1. unfold hasActiveLockSeat at 1.
  unfold listActiveLockedSeatNumbersForBusTrip at 1.
  unfold bind at 1. unfold query at 1. unfold ret at 1. cbn [fst snd].
  destruct (includes (uniqueNormalizedSeatList (map l_seat_number _) _) seatKey)
    eqn:Elocked.
  { unfold bind at 1. unfold throw at 1. discriminate. }
  unfold bind at 1. unfold ret at 1. cbv beta iota.
  unfold bind at 1. unfold insert_passenger, sql.
  set (pid := next_id (map p_id (passengers (db w)))).
  unfold bind at 1. unfold insertConfirmedBookingAtomic, sql.
  cbn [db set_passengers bookings].
  destruct (existsb _ (bookings (db w))) eqn:Eblock; cbn [inserted negb bookingId].
  { unfold bind, delete_passenger, run, throw. discriminate. }
  match goal with
  | |- ?tail ?w3 = _ -> _ =>
      assert (Htail : keeps same_bookings_and_locks tail)
  end.
  { unfold update_available_seats, route_name_of, sendBookingToGAS,
      saveReceiptForBooking, sendSMS, ok.
    keeps_bookings_and_locks_auto. }
  match goal with
  | |- ?tail ?w3 = _ -> _ => intros Hrun; specialize (Htail w3)
  end.
  rewrite Hrun in Htail. destruct Htail as (Hb & _ & Hl).
  cbn [snd db set_bookings set_passengers bookings seat_locks passengerId busId
         tripId seatNumber pricePaid externalRef] in Hb, Hl.
  split; [exact Hadmin|]. exists bus, trip, seatKey.
  split; [reflexivity|]. split; [reflexivity|]. split; [exact Eseat|].
  split; [|split; [|split]].
  - intros Hbooked.
    apply (booked_list_spec _ _ _ _ _ (truthy_trip_key trip)) in Hbooked.
    apply includes_In in Hbooked. congruence.
  - intros l Hlock.
    assert (Hin : exists l0, lock_of_seat env (db w) (m_busId data) (trip_key trip)
                    (capacity_or_50 (bus_capacity bus)) seatKey l0) by eauto.
    apply (locked_list_spec _ _ _ _ _ _ (truthy_trip_key trip)) in Hin.
    apply includes_In in Hin. congruence.
  - eexists. split; [exact Hb|]. cbn. repeat split.
  - exact Hl.
Qed.

End ManualBooking.

(** X27.  A manual booking is answered with status 200 only to the session
    of an administrator and for a seat of the bus that has, on the bus and
    trip, neither a confirmed booking nor an unexpired lock of any session;
    it then adds one confirmed booking of the seat, after the bookings
    there were, and leaves the locks as they are. *)
Theorem manual_booking_takes_a_free_seat (env : Env) (token : option string)
  (data : ManualRequest) (w : World) :
  status (fst (respond (handleAdminManualBooking env token data) w)) = 200 ->
  let w' := snd (respond (handleAdminManualBooking env token data) w) in
  admin_session env w token = true
  /\ exists bus trip seatKey,
       find (fun b => bus_id b =? m_busId data) (buses (db w)) = Some bus
       /\ resolveTripForBus (m_busId data) (truthy (m_tripId data)) w
          = (Ret trip, w)
       /\ normalizeSeatNumberRaw (m_seat data) (capacity_or_50 (bus_capacity bus))
          = Some seatKey
       /\ ~ booked_seat (db w) (m_busId data) (trip_key trip)
              (capacity_or_50 (bus_capacity bus)) seatKey
       /\ (forall l, ~ lock_of_seat env (db w) (m_busId data) (trip_key trip)
                         (capacity_or_50 (bus_capacity bus)) seatKey l)
       /\ (exists row,
             bookings (db w') = bookings (db w) ++ [row]
             /\ b_bus_id row = m_busId data /\ b_trip_id row = trip_key trip
             /\ b_seat_number row = seatKey /\ b_status row = "confirmed"
             /\ b_passenger_id row = next_id (map p_id (passengers (db w)))
             /\ b_external_ref row = Some (random_manual_ref env))
       /\ seat_locks (db w') = seat_locks (db w).
Proof.
  cbv zeta. unfold respond.
  destruct (handleAdminManualBooking env token data w) as [[r|e] w'] eqn:E;
    cbn [fst snd status]; [|discriminate].
  intros Hok. exact (handleAdminManualBooking_ret env token data w r w' E Hok).
Qed.

Lemma manual_booking_takes_a_free_seat_witness :
  let data := {| m_firstName := "Yaw"; m_lastName := "Asante";
                 m_email := "yaw@example.com"; m_phone := "0245555555";
                 m_nokName := None; m_nokPhone := None; m_busId := 1;
                 m_seat := Some "A6"; m_pricePaid := None; m_tripId := None |} in
  let r := respond (handleAdminManualBooking demo_env (Some "tok_admin") data)
             demo_world in
  status (fst r) = 200
  /\ admin_session demo_env demo_world (Some "tok_admin") = true
  /\ map b_seat_number (bookings (db (snd r))) = ["D8"; "7"; "6"].
Proof.
  intros data r.
  assert (Hok : status (fst r) = 200) by reflexivity.
  destruct (manual_booking_takes_a_free_seat demo_env (Some "tok_admin") data
              demo_world Hok)
    as (Hadmin & bus & trip & seatKey & Hbus & _ & Hseat & _ & _
        & (row & Hrows & _ & _ & Hrow & _) & _).
  split; [exact Hok|]. split; [exact Hadmin|].
  vm_compute in Hbus. injection Hbus as <-.
  vm_compute in Hseat. injection Hseat as <-.
  fold r in Hrows. rewrite Hrows, map_app. cbn [map]. rewrite Hrow. reflexivity.
Defined.
